(** * lua-lmdb: the handle wrappers of [lmdb.c], embedded and verified

    [lmdb.c] binds the LMDB storage engine to Lua.  Every exported C
    function takes its arguments from the Lua stack, calls into the
    engine, and pushes its results.  The development below embeds those
    functions as computations over an explicit interpreter state:

    - the userdata blocks allocated by [lua_newuserdata], with the
      metatable installed on each block and the C struct stored in it;
    - the integer part of the Lua registry ([luaL_ref]/[luaL_unref]);
    - the state of the storage engine, which is external: the engine is a
      record of functions the whole development is parameterised by;
    - a log of every engine call with its reply and of every registry
      reference taken or dropped, in program order.

    A Lua error ([luaL_error], a failed [luaL_check*]) unwinds the C
    function; a dereference of a null pointer inside the wrapper itself is
    a fault. *)

From Stdlib Require Import ZArith Lia Ascii String.
From stdpp Require Import gmap strings list fin_maps pretty.

Local Open Scope Z_scope.
Local Open Scope string_scope.

(** ** C integers *)

Module CInt.

(** Conversion to an unsigned integer of [w] bits. *)
Definition to_unsigned (w z : Z) : Z := z mod 2 ^ w.

(** Conversion to a two's complement integer of [w] bits. *)
Definition to_signed (w z : Z) : Z := (z + 2 ^ (w - 1)) mod 2 ^ w - 2 ^ (w - 1).

Definition to_uint : Z -> Z := to_unsigned 32.
Definition to_int : Z -> Z := to_signed 32.
Definition to_size_t : Z -> Z := to_unsigned 64.
Definition to_lua_Integer : Z -> Z := to_signed 64.

End CInt.

(** ** Values, pointers and the C structs *)

(** Address of a userdata block, and identity of a Lua closure. *)
Definition loc := nat.
Definition fid := nat.

(** Lua values.  A string is a sequence of 8-bit characters of any value,
    the zero character included.  A table is given by its fields. *)
#[warnings="-register-all"]
Inductive lval :=
| LNil
| LBool (b : bool)
| LInt (n : Z)
| LStr (s : string)
| LTable (fields : list (string * lval))
| LUserdata (l : loc)
| LFunction (f : fid).

(** C pointers: the null pointer, an object owned by the engine
    ([MDB_env*], [MDB_txn*], [MDB_cursor*]), or the address of a userdata
    block of the Lua heap. *)
Inductive ptr :=
| NULL
| Native (a : nat)
| Block (l : loc).

Global Instance ptr_eq_dec : EqDecision ptr.
Proof. solve_decision. Defined.

Definition is_null (p : ptr) : bool :=
  match p with NULL => true | _ => false end.

(** [MDB_val]: a length and a buffer.  Only the first [mv_size] bytes of
    the buffer belong to the value. *)
Record MDB_val := { mv_size : nat; mv_data : string }.

Fixpoint take_bytes (n : nat) (s : string) : string :=
  match n, s with
  | O, _ => EmptyString
  | S n', EmptyString => EmptyString
  | S n', String c s' => String c (take_bytes n' s')
  end.

Definition val_bytes (v : MDB_val) : string := take_bytes (mv_size v) (mv_data v).

(** The bytes of a NUL-terminated C string stop at the first zero. *)
Fixpoint c_str (s : string) : string :=
  match s with
  | EmptyString => EmptyString
  | String c s' => if Ascii.eqb c Ascii.zero then EmptyString else String c (c_str s')
  end.

Definition LUA_LMDB_ENV : string := "LMDB.Env".
Definition LUA_LMDB_TXN : string := "LMDB.Txn".
Definition LUA_LMDB_DBI : string := "LMDB.Dbi".
Definition LUA_LMDB_CURSOR : string := "LMDB.Cursor".

Definition LUA_NOREF : Z := -2.
Definition LUA_REFNIL : Z := -1.

(** Constants of [liblmdb/lmdb.h] and [errno.h] used by the wrappers. *)
Definition MDB_SUCCESS : Z := 0.
Definition MDB_NOTFOUND : Z := -30798.
Definition MDB_FIXEDMAP : Z := 1.
Definition MDB_CREATE : Z := 262144.
Definition MDB_NEXT : Z := 8.
Definition EINVAL : Z := 22.
Definition ENOMEM : Z := 12.

Record lmdb_env := { env_env : ptr }.
Record lmdb_txn := { txn_txn : ptr; txn_env_ref : Z }.
Record lmdb_dbi := { dbi_dbi : Z; dbi_txn : ptr; dbi_txn_ref : Z }.
Record lmdb_cursor := { cursor_cursor : ptr; cursor_dbi_ref : Z }.

Inductive block :=
| BEnv (e : lmdb_env)
| BTxn (t : lmdb_txn)
| BDbi (d : lmdb_dbi)
| BCursor (c : lmdb_cursor).

(** A userdata block: the name of the metatable installed on it, if any,
    and the struct it holds. *)
Record udata := { meta : option string; body : block }.

(** ** The storage engine

    The engine is not part of [lmdb.c].  A call into it is described by a
    constructor of [call], carrying the arguments the wrapper passes; the
    engine maps a call and its own state to a new state and a [reply],
    which holds the status code and whatever the call writes through its
    out-parameters. *)

Inductive call :=
| Mdb_env_create
| Mdb_env_set_maxreaders (env : ptr) (readers : Z)
| Mdb_env_set_mapsize (env : ptr) (size : Z)
| Mdb_env_set_maxdbs (env : ptr) (dbs : Z)
| Mdb_env_set_flags (env : ptr) (flags : Z) (onoff : Z)
| Mdb_env_open (env : ptr) (path : string) (flags mode : Z)
| Mdb_env_close (env : ptr)
| Mdb_env_get_userctx (env : ptr)
| Mdb_env_set_userctx (env : ptr) (ctx : Z)
| Mdb_env_get_flags (env : ptr)
| Mdb_env_get_path (env : ptr)
| Mdb_env_get_fd (env : ptr)
| Mdb_env_get_maxreaders (env : ptr)
| Mdb_env_get_maxkeysize (env : ptr)
| Mdb_env_copy (env : ptr) (path : string)
| Mdb_env_sync (env : ptr) (force : Z)
| Mdb_env_stat (env : ptr)
| Mdb_env_info (env : ptr)
| Mdb_reader_check (env : ptr)
| Mdb_txn_begin (env parent : ptr) (flags : Z)
| Mdb_txn_id (txn : ptr)
| Mdb_txn_commit (txn : ptr)
| Mdb_txn_abort (txn : ptr)
| Mdb_txn_reset (txn : ptr)
| Mdb_txn_renew (txn : ptr)
| Mdb_dbi_open (txn : ptr) (name : option string) (flags : Z)
| Mdb_dbi_close (env : ptr) (dbi : Z)
| Mdb_stat (txn : ptr) (dbi : Z)
| Mdb_dbi_flags (txn : ptr) (dbi : Z)
| Mdb_drop (txn : ptr) (dbi : Z) (del : Z)
| Mdb_get (txn : ptr) (dbi : Z) (key : MDB_val)
| Mdb_put (txn : ptr) (dbi : Z) (key data : MDB_val) (flags : Z)
| Mdb_del (txn : ptr) (dbi : Z) (key : MDB_val)
| Mdb_cmp (txn : ptr) (dbi : Z) (a b : MDB_val)
| Mdb_dcmp (txn : ptr) (dbi : Z) (a b : MDB_val)
| Mdb_cursor_open (txn : ptr) (dbi : Z)
| Mdb_cursor_close (cursor : ptr)
| Mdb_cursor_renew (txn : ptr) (cursor : ptr)
| Mdb_cursor_get (cursor : ptr) (op : Z)
| Mdb_cursor_put (cursor : ptr) (key data : MDB_val) (flags : Z)
| Mdb_cursor_del (cursor : ptr) (flags : Z)
| Mdb_cursor_count (cursor : ptr).

Record MDB_stat := {
  ms_psize : Z;
  ms_depth : Z;
  ms_branch_pages : Z;
  ms_leaf_pages : Z;
  ms_overflow_pages : Z;
  ms_entries : Z
}.

Record MDB_envinfo := {
  me_mapsize : Z;
  me_last_pgno : Z;
  me_last_txnid : Z;
  me_maxreaders : Z;
  me_numreaders : Z
}.

(** What a call hands back.  [status] is the value the C function returns
    when that value is an [int]; [out_int] is the returned value of the
    functions that return something else ([mdb_txn_id],
    [mdb_env_get_userctx] read as an integer) and the integer written
    through an out-parameter; the other fields are the remaining
    out-parameters. *)
Record reply := {
  status : Z;
  out_ptr : ptr;
  out_int : Z;
  out_key : MDB_val;
  out_val : MDB_val;
  out_str : string;
  out_stat : MDB_stat;
  out_info : MDB_envinfo
}.

(** [mdb_reader_list] calls its message function once per line it wants
    to print and looks at what the function returns; when it stops it
    returns a status.  A [reader_run] is that behaviour with the message
    function left open. *)
Inductive reader_run :=
| RDone (rc : Z)
| REmit (msg : string) (k : Z -> reader_run).

Record Engine := {
  estate : Type;
  native : call -> estate -> estate * reply;
  mdb_strerror : Z -> string;
  mdb_version : string * (Z * Z * Z);
  mdb_reader_list : estate -> ptr -> reader_run
}.

(** ** The Lua side that is not modelled in detail

    Lua closures run in a world of their own: calling one changes that
    world and either returns values or raises an error value.  Closures do
    not call back into this module.  The remaining fields are the
    conversions of the Lua API between strings and integers, the contents
    of freshly allocated (uninitialised) memory, and the [%p] format. *)
Record Runtime := {
  world : Type;
  lua_call : fid -> list lval -> world -> world * (lval + list lval);
  str2int : string -> option Z;
  int2str : Z -> string;
  junk_ptr : ptr;
  junk_int : Z;
  fmt_ptr : loc -> string
}.

(** ** Interpreter state and the computation monad *)

(** What the log records: an engine call together with the reply it got;
    [mdb_reader_list] being entered for an environment, and returning a
    status; a registry reference taken by [luaL_ref] or dropped by
    [luaL_unref]; a line written to [stderr]. *)
Inductive event :=
| EvNative (c : call) (r : reply)
| EvReaderList (env : ptr)
| EvReaderListEnd (rc : Z)
| EvRef (r : Z)
| EvUnref (r : Z)
| EvStderr (e : lval).

Record lua_State {eng : Engine} {rt : Runtime} := {
  heap : list udata;
  registry : gmap Z lval;
  engine : estate eng;
  script : world rt;
  trace : list event
}.
Global Arguments lua_State : clear implicits.

Inductive result {eng : Engine} {rt : Runtime} (A : Type) :=
| Done (a : A) (st : lua_State eng rt)
| Raise (e : lval) (st : lua_State eng rt)
| Fault (st : lua_State eng rt).
Global Arguments result : clear implicits.
Global Arguments Done {eng rt A} a st.
Global Arguments Raise {eng rt A} e st.
Global Arguments Fault {eng rt A} st.

Definition M (eng : Engine) (rt : Runtime) (A : Type) : Type :=
  lua_State eng rt -> result eng rt A.

Declare Scope lua_scope.
Delimit Scope lua_scope with lua.

Section Monad.

Context {eng : Engine} {rt : Runtime}.

Definition ret {A} (a : A) : M eng rt A := fun st => Done a st.

Definition bind {A B} (m : M eng rt A) (k : A -> M eng rt B) : M eng rt B :=
  fun st =>
    match m st with
    | Done a st' => k a st'
    | Raise e st' => Raise e st'
    | Fault st' => Fault st'
    end.

Definition raise {A} (msg : string) : M eng rt A := fun st => Raise (LStr msg) st.

Definition fault {A} : M eng rt A := fun st => Fault st.

Definition final_state {A} (r : result eng rt A) : lua_State eng rt :=
  match r with Done _ st | Raise _ st | Fault st => st end.

Definition returned {A} (r : result eng rt A) : option A :=
  match r with Done a _ => Some a | _ => None end.

End Monad.

Notation "x <- m ;; k" := (bind m (fun x => k))
  (at level 100, m at next level, right associativity) : lua_scope.
Notation "m ;;; k" := (bind m (fun _ => k))
  (at level 100, right associativity) : lua_scope.

Local Open Scope lua_scope.

(** ** The part of the Lua C API the wrappers use *)

Section LuaAPI.

Context {eng : Engine} {rt : Runtime}.

Local Abbreviation State := (lua_State eng rt).
Local Abbreviation M := (M eng rt).

Definition set_heap (h : list udata) (st : State) : State :=
  {| heap := h; registry := registry st; engine := engine st;
     script := script st; trace := trace st |}.

Definition set_registry (g : gmap Z lval) (st : State) : State :=
  {| heap := heap st; registry := g; engine := engine st;
     script := script st; trace := trace st |}.

Definition set_engine (e : estate eng) (st : State) : State :=
  {| heap := heap st; registry := registry st; engine := e;
     script := script st; trace := trace st |}.

Definition set_script (w : world rt) (st : State) : State :=
  {| heap := heap st; registry := registry st; engine := engine st;
     script := w; trace := trace st |}.

Definition log (e : event) (st : State) : State :=
  {| heap := heap st; registry := registry st; engine := engine st;
     script := script st; trace := trace st ++ [e] |}.

(** A call into the engine: logged, answered by the engine. *)
Definition call_native (c : call) : M reply :=
  fun st =>
    let '(es, r) := native eng c (engine st) in
    Done r (set_engine es (log (EvNative c r) st)).

(** *** Userdata *)

(** [lua_newuserdata]: a new block without a metatable.  The memory is
    not initialised; [b] says which struct the block is meant for and
    holds the indeterminate field contents. *)
Definition lua_newuserdata (b : block) : M loc :=
  fun st =>
    Done (length (heap st))
         (set_heap (heap st ++ [{| meta := None; body := b |}]) st).

Definition read_block (l : loc) : M udata :=
  fun st =>
    match heap st !! l with
    | Some u => Done u st
    | None => Fault st
    end.

Definition write_body (l : loc) (b : block) : M unit :=
  fun st =>
    match heap st !! l with
    | Some u => Done tt (set_heap (<[l := {| meta := meta u; body := b |}]> (heap st)) st)
    | None => Fault st
    end.

(** [luaL_getmetatable(L, tname); lua_setmetatable(L, -2)] on block [l]. *)
Definition lua_setmetatable (l : loc) (tname : string) : M unit :=
  fun st =>
    match heap st !! l with
    | Some u => Done tt (set_heap (<[l := {| meta := Some tname; body := body u |}]> (heap st)) st)
    | None => Fault st
    end.

(** *** The registry *)

Definition max_key (g : gmap Z lval) : Z :=
  map_fold (fun k _ acc => Z.max k acc) 0 g.

(** The reference [luaL_ref] hands out.  Which free reference the Lua
    library picks depends on its free list; here it is the one above
    every reference in use.  The properties below use only that it is
    positive and not in use. *)
Definition fresh_ref (g : gmap Z lval) : Z := Z.succ (max_key g).

Definition luaL_ref (v : lval) : M Z :=
  fun st =>
    match v with
    | LNil => Done LUA_REFNIL st
    | _ =>
        let r := fresh_ref (registry st) in
        Done r (log (EvRef r) (set_registry (<[r := v]> (registry st)) st))
    end.

Definition luaL_unref (r : Z) : M unit :=
  fun st =>
    if (0 <=? r)%Z
    then Done tt (log (EvUnref r) (set_registry (delete r (registry st)) st))
    else Done tt st.

Definition lua_rawgeti (r : Z) : M lval :=
  fun st => Done (default LNil (registry st !! r)) st.

(** *** Arguments on the stack *)

(** Stack index [i] (1-based) of a C function called with [args]. *)
Definition arg (args : list lval) (i : nat) : option lval :=
  match i with
  | O => None
  | S j => args !! j
  end.

Definition lua_isnoneornil (args : list lval) (i : nat) : bool :=
  match arg args i with
  | None | Some LNil => true
  | _ => false
  end.

Definition lua_isuserdata (args : list lval) (i : nat) : bool :=
  match arg args i with
  | Some (LUserdata _) => true
  | _ => false
  end.

Definition lua_toboolean (args : list lval) (i : nat) : Z :=
  match arg args i with
  | None | Some LNil | Some (LBool false) => 0
  | _ => 1
  end.

(** [lua_pushvalue(L, i)] for an index that holds a value. *)
Definition lua_pushvalue (args : list lval) (i : nat) : lval :=
  default LNil (arg args i).

Definition lua_pushstring (s : string) : lval := LStr (c_str s).

Definition lua_pushlstring (data : string) (size : nat) : lval :=
  LStr (take_bytes size data).

Definition bad_argument {A} (i : nat) (what : string) : M A :=
  raise ("bad argument (" ++ what ++ " expected)").

(** [luaL_checkudata] applied to a value: the value must be a userdata
    whose metatable is the one registered under [tname]. *)
Definition check_udata (v : option lval) (i : nat) (tname : string) : M loc :=
  match v with
  | Some (LUserdata l) =>
      u <- read_block l ;;
      if decide (meta u = Some tname) then ret l else bad_argument i tname
  | _ => bad_argument i tname
  end.

Definition luaL_checkudata (args : list lval) (i : nat) (tname : string) : M loc :=
  check_udata (arg args i) i tname.

(** The pointer casts of a block address to [lmdb_env], [lmdb_txn],
    [lmdb_dbi] or [lmdb_cursor].  The metatable of a block tells which
    struct it holds; reading a block as another struct does not happen and
    is a fault here. *)
Definition as_env (b : block) : M lmdb_env :=
  match b with BEnv e => ret e | _ => fault end.
Definition as_txn (b : block) : M lmdb_txn :=
  match b with BTxn t => ret t | _ => fault end.
Definition as_dbi (b : block) : M lmdb_dbi :=
  match b with BDbi d => ret d | _ => fault end.
Definition as_cursor (b : block) : M lmdb_cursor :=
  match b with BCursor c => ret c | _ => fault end.

Definition load_env (l : loc) : M lmdb_env := u <- read_block l ;; as_env (body u).
Definition load_txn (l : loc) : M lmdb_txn := u <- read_block l ;; as_txn (body u).
Definition load_dbi (l : loc) : M lmdb_dbi := u <- read_block l ;; as_dbi (body u).
Definition load_cursor (l : loc) : M lmdb_cursor := u <- read_block l ;; as_cursor (body u).

(** [lua_touserdata] followed by a dereference as [lmdb_dbi]: the null
    pointer it returns for anything but a userdata is dereferenced. *)
Definition deref_dbi (v : lval) : M lmdb_dbi :=
  match v with
  | LUserdata l => load_dbi l
  | _ => fault
  end.

Definition luaL_checkany (args : list lval) (i : nat) : M unit :=
  match arg args i with
  | Some _ => ret tt
  | None => bad_argument i "value"
  end.

Definition luaL_checkfunction (args : list lval) (i : nat) : M lval :=
  match arg args i with
  | Some (LFunction f) => ret (LFunction f)
  | _ => bad_argument i "function"
  end.

Definition luaL_checktable (v : option lval) (i : nat) : M (list (string * lval)) :=
  match v with
  | Some (LTable fs) => ret fs
  | _ => bad_argument i "table"
  end.

Fixpoint lua_getfield (fs : list (string * lval)) (k : string) : lval :=
  match fs with
  | [] => LNil
  | (k', v) :: fs' => if String.eqb k' k then v else lua_getfield fs' k
  end.

(** [luaL_checkinteger] on a value: integers, and strings that convert. *)
Definition check_integer (v : option lval) (i : nat) : M Z :=
  match v with
  | Some (LInt n) => ret n
  | Some (LStr s) =>
      match str2int rt s with
      | Some n => ret n
      | None => bad_argument i "number"
      end
  | _ => bad_argument i "number"
  end.

Definition opt_integer (v : option lval) (i : nat) (def : Z) : M Z :=
  match v with
  | None | Some LNil => ret def
  | _ => check_integer v i
  end.

Definition luaL_checkinteger (args : list lval) (i : nat) : M Z :=
  check_integer (arg args i) i.

Definition luaL_optinteger (args : list lval) (i : nat) (def : Z) : M Z :=
  opt_integer (arg args i) i def.

(** [luaL_checklstring]: strings, and numbers converted to strings; the
    result keeps its length. *)
Definition luaL_checklstring (args : list lval) (i : nat) : M string :=
  match arg args i with
  | Some (LStr s) => ret s
  | Some (LInt n) => ret (int2str rt n)
  | _ => bad_argument i "string"
  end.

(** [luaL_checkstring]: the same value used as a C string. *)
Definition luaL_checkstring (args : list lval) (i : nat) : M string :=
  s <- luaL_checklstring args i ;; ret (c_str s).

(** [luaL_optstring(L, i, NULL)]. *)
Definition luaL_optstring (args : list lval) (i : nat) : M (option string) :=
  if lua_isnoneornil args i then ret None
  else s <- luaL_checkstring args i ;; ret (Some s).

(** [lua_pcall(L, nargs, 1, 0)] of value [f]. *)
Definition lua_pcall (f : lval) (args : list lval) : M (lval + list lval) :=
  fun st =>
    match f with
    | LFunction id =>
        let '(w, out) := lua_call rt id args (script st) in
        Done out (set_script w st)
    | _ => Done (inl (LStr "attempt to call a non-function value")) st
    end.

End LuaAPI.

(** ** The C functions of [lmdb.c]

    Each function takes the values on its stack ([args], index 1 first)
    and returns the values it leaves as results. *)

Section Wrappers.

Context {eng : Engine} {rt : Runtime}.

Local Abbreviation State := (lua_State eng rt).
Local Abbreviation M := (M eng rt).

Definition lmdb_pushstat (stat : MDB_stat) : list lval :=
  [LTable [("psize", LInt (ms_psize stat));
           ("depth", LInt (ms_depth stat));
           ("branch_pages", LInt (ms_branch_pages stat));
           ("leaf_pages", LInt (ms_leaf_pages stat));
           ("overflow_pages", LInt (ms_overflow_pages stat));
           ("entries", LInt (ms_entries stat))]].

Definition lmdb_pusherror (err : Z) : M (list lval) :=
  let msg := mdb_strerror eng err in
  ret [LNil; lua_pushstring msg; LInt err].

Definition lmdb_checkvalue (args : list lval) (idx : nat) : M MDB_val :=
  s <- luaL_checklstring args idx ;;
  ret {| mv_size := String.length s; mv_data := s |}.

Definition lmdb_version (args : list lval) : M (list lval) :=
  let '(version, (major, minor, patch)) := mdb_version eng in
  ret [lua_pushstring version; LInt major; LInt minor; LInt patch].

Definition lmdb_strerror (args : list lval) : M (list lval) :=
  n <- luaL_checkinteger args 1 ;;
  let err := CInt.to_int n in
  ret [lua_pushstring (mdb_strerror eng err)].

(** *** Environment *)

(** [lua_newuserdata] does not return a null pointer (it raises on
    exhaustion), so the [ENOMEM] branch is never taken.  A failure after
    [mdb_env_create] returns the failure result and leaves the block
    without metatable. *)
Definition lmdb_open (args : list lval) : M (list lval) :=
  path <- luaL_checkstring args 1 ;;
  let opts := if (length args =? 1)%nat then Some (LTable []) else arg args 2 in
  fs <- luaL_checktable opts 2 ;;
  n <- opt_integer (Some (lua_getfield fs "flags")) 3 (Z.lor MDB_FIXEDMAP MDB_CREATE) ;;
  let flags := CInt.to_uint n in
  n <- opt_integer (Some (lua_getfield fs "mode")) 3 436 ;;
  let mode := CInt.to_uint n in
  n <- opt_integer (Some (lua_getfield fs "mapsize")) 3 (4 * 1024 * 1024) ;;
  let size := CInt.to_size_t n in
  n <- opt_integer (Some (lua_getfield fs "maxreaders")) 3 1 ;;
  let maxreaders := CInt.to_int n in
  l <- lua_newuserdata (BEnv {| env_env := junk_ptr rt |}) ;;
  r <- call_native Mdb_env_create ;;
  let p := out_ptr r in
  write_body l (BEnv {| env_env := p |}) ;;;
  if negb (status r =? MDB_SUCCESS)%Z then lmdb_pusherror (status r) else
  r <- call_native (Mdb_env_set_maxreaders p (CInt.to_uint maxreaders)) ;;
  if negb (status r =? MDB_SUCCESS)%Z then lmdb_pusherror (status r) else
  r <- call_native (Mdb_env_set_mapsize p size) ;;
  if negb (status r =? MDB_SUCCESS)%Z then lmdb_pusherror (status r) else
  r <- call_native (Mdb_env_open p path flags mode) ;;
  if negb (status r =? MDB_SUCCESS)%Z then lmdb_pusherror (status r) else
  lua_setmetatable l LUA_LMDB_ENV ;;;
  ret [LUserdata l].

Definition lmdb_close (args : list lval) : M (list lval) :=
  l <- luaL_checkudata args 1 LUA_LMDB_ENV ;;
  env <- load_env l ;;
  if is_null (env_env env) then ret [] else
  r <- call_native (Mdb_env_get_userctx (env_env env)) ;;
  let ctx := out_int r in
  (if (ctx =? 0)%Z then ret tt else luaL_unref (CInt.to_int ctx)) ;;;
  call_native (Mdb_env_close (env_env env)) ;;;
  write_body l (BEnv {| env_env := NULL |}) ;;;
  ret [].

(** The message function handed to [mdb_reader_list]; [ref] is the field
    of the [msg_ctx] it receives.  When the closure returns, the value it
    returned stays on the Lua stack; the results of [lmdb_reader_list] are
    taken from the top of the stack, so that value is not among them. *)
Definition lmdb_msg (ref : Z) (msg : string) : M Z :=
  f <- lua_rawgeti ref ;;
  out <- lua_pcall f [lua_pushstring msg] ;;
  match out with
  | inr _ => ret 0
  | inl e => (fun st => Done (-1) (log (EvStderr e) st))
  end.

(** The engine running its reader dump against a message function. *)
Fixpoint run_reader (run : reader_run) (func : string -> M Z) : M Z :=
  match run with
  | RDone rc => ret rc
  | REmit msg k => rc <- func msg ;; run_reader (k rc) func
  end.

Definition lmdb_reader_list (args : list lval) : M (list lval) :=
  l <- luaL_checkudata args 1 LUA_LMDB_ENV ;;
  env <- load_env l ;;
  f <- luaL_checkfunction args 2 ;;
  ref <- luaL_ref f ;;
  run <- (fun st => Done (mdb_reader_list eng (engine st) (env_env env))
                         (log (EvReaderList (env_env env)) st)) ;;
  rc <- run_reader run (lmdb_msg ref) ;;
  (fun st => Done tt (log (EvReaderListEnd rc) st)) ;;;
  luaL_unref ref ;;;
  if (rc =? MDB_SUCCESS)%Z then ret [lua_pushvalue args 1] else lmdb_pusherror rc.

Definition lmdb_reader_check (args : list lval) : M (list lval) :=
  l <- luaL_checkudata args 1 LUA_LMDB_ENV ;;
  env <- load_env l ;;
  r <- call_native (Mdb_reader_check (env_env env)) ;;
  if (status r =? MDB_SUCCESS)%Z then ret [LInt (out_int r)] else lmdb_pusherror (status r).

Definition lmdb_copy (args : list lval) : M (list lval) :=
  l <- luaL_checkudata args 1 LUA_LMDB_ENV ;;
  env <- load_env l ;;
  path <- luaL_checkstring args 2 ;;
  if is_null (env_env env) then lmdb_pusherror EINVAL else
  call_native (Mdb_env_copy (env_env env) path) ;;;
  ret [lua_pushvalue args 1].

Definition lmdb_sync (args : list lval) : M (list lval) :=
  l <- luaL_checkudata args 1 LUA_LMDB_ENV ;;
  env <- load_env l ;;
  let force := lua_toboolean args 2 in
  if is_null (env_env env) then lmdb_pusherror EINVAL else
  call_native (Mdb_env_sync (env_env env) force) ;;;
  ret [lua_pushvalue args 1].

Definition lmdb_get_property (args : list lval) : M (list lval) :=
  l <- luaL_checkudata args 1 LUA_LMDB_ENV ;;
  env <- load_env l ;;
  item <- luaL_checkstring args 2 ;;
  let p := env_env env in
  if is_null p then lmdb_pusherror EINVAL else
  if String.eqb item "flags" then
    r <- call_native (Mdb_env_get_flags p) ;;
    if (status r =? MDB_SUCCESS)%Z then ret [LInt (out_int r)] else lmdb_pusherror (status r)
  else if String.eqb item "path" then
    r <- call_native (Mdb_env_get_path p) ;;
    if (status r =? MDB_SUCCESS)%Z then ret [lua_pushstring (out_str r)] else lmdb_pusherror (status r)
  else if String.eqb item "fd" then
    r <- call_native (Mdb_env_get_fd p) ;;
    if (status r =? MDB_SUCCESS)%Z then ret [LInt (out_int r)] else lmdb_pusherror (status r)
  else if String.eqb item "maxreaders" then
    r <- call_native (Mdb_env_get_maxreaders p) ;;
    if (status r =? MDB_SUCCESS)%Z then ret [LInt (out_int r)] else lmdb_pusherror (status r)
  else if String.eqb item "maxkeysize" then
    r <- call_native (Mdb_env_get_maxkeysize p) ;;
    ret [LInt (status r)]
  else if String.eqb item "userctx" then
    r <- call_native (Mdb_env_get_userctx p) ;;
    if (out_int r =? 0)%Z then ret [LNil] else
    v <- lua_rawgeti (CInt.to_int (out_int r)) ;;
    ret [v]
  else raise ("unknown property: " ++ item).

Definition lmdb_set_property (args : list lval) : M (list lval) :=
  l <- luaL_checkudata args 1 LUA_LMDB_ENV ;;
  env <- load_env l ;;
  item <- luaL_checkstring args 2 ;;
  let p := env_env env in
  let self := lua_pushvalue args 1 in
  luaL_checkany args 3 ;;;
  if String.eqb item "flags" then
    n <- luaL_checkinteger args 3 ;;
    luaL_checkany args 4 ;;;
    let onoff := lua_toboolean args 4 in
    r <- call_native (Mdb_env_set_flags p (CInt.to_uint n) onoff) ;;
    if (status r =? MDB_SUCCESS)%Z then ret [self] else lmdb_pusherror (status r)
  else if String.eqb item "mapsize" then
    n <- luaL_checkinteger args 3 ;;
    r <- call_native (Mdb_env_set_mapsize p (CInt.to_size_t n)) ;;
    if (status r =? MDB_SUCCESS)%Z then ret [self] else lmdb_pusherror (status r)
  else if String.eqb item "maxreaders" then
    n <- luaL_checkinteger args 3 ;;
    r <- call_native (Mdb_env_set_maxreaders p (CInt.to_uint n)) ;;
    if (status r =? MDB_SUCCESS)%Z then ret [self] else lmdb_pusherror (status r)
  else if String.eqb item "maxdbs" then
    n <- luaL_checkinteger args 3 ;;
    r <- call_native (Mdb_env_set_maxdbs p (CInt.to_uint n)) ;;
    if (status r =? MDB_SUCCESS)%Z then ret [self] else lmdb_pusherror (status r)
  else if String.eqb item "userctx" then
    ref <- luaL_ref (lua_pushvalue args 3) ;;
    r <- call_native (Mdb_env_set_userctx p ref) ;;
    if (status r =? MDB_SUCCESS)%Z then ret [self] else
    luaL_unref ref ;;;
    lmdb_pusherror (status r)
  else raise ("unknown property: " ++ item).

Definition lmdb_stat (args : list lval) : M (list lval) :=
  l <- luaL_checkudata args 1 LUA_LMDB_ENV ;;
  env <- load_env l ;;
  if is_null (env_env env) then lmdb_pusherror EINVAL else
  r <- call_native (Mdb_env_stat (env_env env)) ;;
  if (status r =? MDB_SUCCESS)%Z then ret (lmdb_pushstat (out_stat r)) else lmdb_pusherror (status r).

Definition lmdb_info (args : list lval) : M (list lval) :=
  l <- luaL_checkudata args 1 LUA_LMDB_ENV ;;
  env <- load_env l ;;
  if is_null (env_env env) then lmdb_pusherror EINVAL else
  r <- call_native (Mdb_env_info (env_env env)) ;;
  if (status r =? MDB_SUCCESS)%Z then
    let info := out_info r in
    ret [LTable [("mapsize", LInt (me_mapsize info));
                 ("last_pgno", LInt (me_last_pgno info));
                 ("last_txnid", LInt (me_last_txnid info));
                 ("maxreaders", LInt (me_maxreaders info));
                 ("numreaders", LInt (me_numreaders info))]]
  else lmdb_pusherror (status r).

(** *** Transaction *)

(** The parent passed to [mdb_txn_begin] is the address of the parent's
    userdata block cast to [MDB_txn*], not the [txn] field stored in it. *)
Definition lmdb_txn_begin (args : list lval) : M (list lval) :=
  l <- luaL_checkudata args 1 LUA_LMDB_ENV ;;
  env <- load_env l ;;
  parent <- (if lua_isuserdata args 2
             then lp <- luaL_checkudata args 2 LUA_LMDB_TXN ;; ret (Block lp)
             else ret NULL) ;;
  n <- (if is_null parent then luaL_optinteger args 2 0 else luaL_optinteger args 3 0) ;;
  let flags := CInt.to_uint n in
  lt <- lua_newuserdata (BTxn {| txn_txn := junk_ptr rt; txn_env_ref := junk_int rt |}) ;;
  r <- call_native (Mdb_txn_begin (env_env env) parent flags) ;;
  write_body lt (BTxn {| txn_txn := out_ptr r; txn_env_ref := junk_int rt |}) ;;;
  if negb (status r =? MDB_SUCCESS)%Z then lmdb_pusherror (status r) else
  lua_setmetatable lt LUA_LMDB_TXN ;;;
  ref <- luaL_ref (lua_pushvalue args 1) ;;
  write_body lt (BTxn {| txn_txn := out_ptr r; txn_env_ref := ref |}) ;;;
  ret [LUserdata lt].

Definition lmdb_txn_id (args : list lval) : M (list lval) :=
  l <- luaL_checkudata args 1 LUA_LMDB_TXN ;;
  txn <- load_txn l ;;
  r <- call_native (Mdb_txn_id (txn_txn txn)) ;;
  ret [LInt (CInt.to_lua_Integer (out_int r))].

Definition lmdb_txn_close (l : loc) : M unit :=
  txn <- load_txn l ;;
  if is_null (txn_txn txn) then ret tt else
  write_body l (BTxn {| txn_txn := NULL; txn_env_ref := txn_env_ref txn |}) ;;;
  luaL_unref (txn_env_ref txn) ;;;
  write_body l (BTxn {| txn_txn := NULL; txn_env_ref := LUA_NOREF |}).

Definition lmdb_txn_commit (args : list lval) : M (list lval) :=
  l <- luaL_checkudata args 1 LUA_LMDB_TXN ;;
  txn <- load_txn l ;;
  r <- call_native (Mdb_txn_commit (txn_txn txn)) ;;
  if (status r =? MDB_SUCCESS)%Z then
    lmdb_txn_close l ;;;
    ret [LBool true]
  else lmdb_pusherror (status r).

Definition lmdb_txn_abort (args : list lval) : M (list lval) :=
  l <- luaL_checkudata args 1 LUA_LMDB_TXN ;;
  txn <- load_txn l ;;
  call_native (Mdb_txn_abort (txn_txn txn)) ;;;
  lmdb_txn_close l ;;;
  ret [].

Definition lmdb_txn_reset (args : list lval) : M (list lval) :=
  l <- luaL_checkudata args 1 LUA_LMDB_TXN ;;
  txn <- load_txn l ;;
  call_native (Mdb_txn_reset (txn_txn txn)) ;;;
  ret [lua_pushvalue args 1].

Definition lmdb_txn_renew (args : list lval) : M (list lval) :=
  l <- luaL_checkudata args 1 LUA_LMDB_TXN ;;
  txn <- load_txn l ;;
  r <- call_native (Mdb_txn_renew (txn_txn txn)) ;;
  if (status r =? MDB_SUCCESS)%Z then ret [lua_pushvalue args 1] else lmdb_pusherror (status r).

Definition lmdb_dbi_open (args : list lval) : M (list lval) :=
  l <- luaL_checkudata args 1 LUA_LMDB_TXN ;;
  txn <- load_txn l ;;
  name <- luaL_optstring args 2 ;;
  n <- luaL_optinteger args 3 0 ;;
  let flags := CInt.to_uint n in
  ld <- lua_newuserdata (BDbi {| dbi_dbi := junk_int rt; dbi_txn := junk_ptr rt;
                                 dbi_txn_ref := junk_int rt |}) ;;
  r <- call_native (Mdb_dbi_open (txn_txn txn) name flags) ;;
  write_body ld (BDbi {| dbi_dbi := out_int r; dbi_txn := junk_ptr rt;
                         dbi_txn_ref := junk_int rt |}) ;;;
  if negb (status r =? MDB_SUCCESS)%Z then lmdb_pusherror (status r) else
  lua_setmetatable ld LUA_LMDB_DBI ;;;
  ref <- luaL_ref (lua_pushvalue args 1) ;;
  write_body ld (BDbi {| dbi_dbi := out_int r; dbi_txn := txn_txn txn;
                         dbi_txn_ref := ref |}) ;;;
  ret [LUserdata ld].

(** *** Table *)

Definition lmdb_dbi_stat (args : list lval) : M (list lval) :=
  l <- luaL_checkudata args 1 LUA_LMDB_DBI ;;
  dbi <- load_dbi l ;;
  r <- call_native (Mdb_stat (dbi_txn dbi) (dbi_dbi dbi)) ;;
  if (status r =? MDB_SUCCESS)%Z then ret (lmdb_pushstat (out_stat r)) else lmdb_pusherror (status r).

Definition lmdb_dbi_flags (args : list lval) : M (list lval) :=
  l <- luaL_checkudata args 1 LUA_LMDB_DBI ;;
  dbi <- load_dbi l ;;
  r <- call_native (Mdb_dbi_flags (dbi_txn dbi) (dbi_dbi dbi)) ;;
  if (status r =? MDB_SUCCESS)%Z then ret [LInt (out_int r)] else lmdb_pusherror (status r).

Definition lmdb_dbi_drop (args : list lval) : M (list lval) :=
  l <- luaL_checkudata args 1 LUA_LMDB_DBI ;;
  dbi <- load_dbi l ;;
  n <- luaL_optinteger args 2 0 ;;
  let del := CInt.to_int n in
  r <- call_native (Mdb_drop (dbi_txn dbi) (dbi_dbi dbi) del) ;;
  if (status r =? MDB_SUCCESS)%Z then ret [lua_pushvalue args 1] else lmdb_pusherror (status r).

Definition lmdb_dbi_close (args : list lval) : M (list lval) :=
  l <- luaL_checkudata args 1 LUA_LMDB_DBI ;;
  dbi <- load_dbi l ;;
  if (dbi_dbi dbi =? 0)%Z then ret [] else
  v <- lua_rawgeti (dbi_txn_ref dbi) ;;
  lt <- check_udata (Some v) 0 LUA_LMDB_TXN ;;
  txn <- load_txn lt ;;
  (if is_null (txn_txn txn) then ret tt else
     v <- lua_rawgeti (txn_env_ref txn) ;;
     le <- check_udata (Some v) 0 LUA_LMDB_ENV ;;
     env <- load_env le ;;
     call_native (Mdb_dbi_close (env_env env) (dbi_dbi dbi)) ;;;
     ret tt) ;;;
  write_body l (BDbi {| dbi_dbi := 0; dbi_txn := dbi_txn dbi; dbi_txn_ref := dbi_txn_ref dbi |}) ;;;
  luaL_unref (dbi_txn_ref dbi) ;;;
  write_body l (BDbi {| dbi_dbi := 0; dbi_txn := dbi_txn dbi; dbi_txn_ref := LUA_NOREF |}) ;;;
  ret [].

Definition lmdb_get (args : list lval) : M (list lval) :=
  l <- luaL_checkudata args 1 LUA_LMDB_DBI ;;
  dbi <- load_dbi l ;;
  key <- lmdb_checkvalue args 2 ;;
  r <- call_native (Mdb_get (dbi_txn dbi) (dbi_dbi dbi) key) ;;
  let rc := status r in
  if (rc =? MDB_SUCCESS)%Z
  then ret [lua_pushlstring (mv_data (out_val r)) (mv_size (out_val r))]
  else lmdb_pusherror rc.

Definition lmdb_put (args : list lval) : M (list lval) :=
  l <- luaL_checkudata args 1 LUA_LMDB_DBI ;;
  dbi <- load_dbi l ;;
  key <- lmdb_checkvalue args 2 ;;
  val <- lmdb_checkvalue args 3 ;;
  n <- luaL_optinteger args 4 0 ;;
  let flags := CInt.to_uint n in
  r <- call_native (Mdb_put (dbi_txn dbi) (dbi_dbi dbi) key val flags) ;;
  let rc := status r in
  if (rc =? MDB_SUCCESS)%Z then ret [lua_pushvalue args 1] else lmdb_pusherror rc.

Definition lmdb_del (args : list lval) : M (list lval) :=
  l <- luaL_checkudata args 1 LUA_LMDB_DBI ;;
  dbi <- load_dbi l ;;
  key <- lmdb_checkvalue args 2 ;;
  r <- call_native (Mdb_del (dbi_txn dbi) (dbi_dbi dbi) key) ;;
  let rc := status r in
  if (rc =? MDB_SUCCESS)%Z then ret [lua_pushvalue args 1] else lmdb_pusherror rc.

Definition lmdb_cmp (args : list lval) : M (list lval) :=
  l <- luaL_checkudata args 1 LUA_LMDB_DBI ;;
  dbi <- load_dbi l ;;
  a <- lmdb_checkvalue args 2 ;;
  b <- lmdb_checkvalue args 3 ;;
  r <- call_native (Mdb_cmp (dbi_txn dbi) (dbi_dbi dbi) a b) ;;
  ret [LInt (status r)].

Definition lmdb_dcmp (args : list lval) : M (list lval) :=
  l <- luaL_checkudata args 1 LUA_LMDB_DBI ;;
  dbi <- load_dbi l ;;
  a <- lmdb_checkvalue args 2 ;;
  b <- lmdb_checkvalue args 3 ;;
  r <- call_native (Mdb_dcmp (dbi_txn dbi) (dbi_dbi dbi) a b) ;;
  ret [LInt (status r)].

Definition lmdb_cursor_open (args : list lval) : M (list lval) :=
  l <- luaL_checkudata args 1 LUA_LMDB_DBI ;;
  dbi <- load_dbi l ;;
  lc <- lua_newuserdata (BCursor {| cursor_cursor := junk_ptr rt; cursor_dbi_ref := junk_int rt |}) ;;
  r <- call_native (Mdb_cursor_open (dbi_txn dbi) (dbi_dbi dbi)) ;;
  write_body lc (BCursor {| cursor_cursor := out_ptr r; cursor_dbi_ref := junk_int rt |}) ;;;
  if (status r =? MDB_SUCCESS)%Z then
    ref <- luaL_ref (lua_pushvalue args 1) ;;
    write_body lc (BCursor {| cursor_cursor := out_ptr r; cursor_dbi_ref := ref |}) ;;;
    lua_setmetatable lc LUA_LMDB_CURSOR ;;;
    ret [LUserdata lc]
  else lmdb_pusherror (status r).

(** *** Cursor *)

Definition lmdb_cursor_close (args : list lval) : M (list lval) :=
  l <- luaL_checkudata args 1 LUA_LMDB_CURSOR ;;
  cursor <- load_cursor l ;;
  if is_null (cursor_cursor cursor) then ret [] else
  call_native (Mdb_cursor_close (cursor_cursor cursor)) ;;;
  luaL_unref (cursor_dbi_ref cursor) ;;;
  write_body l (BCursor {| cursor_cursor := NULL; cursor_dbi_ref := LUA_NOREF |}) ;;;
  ret [].

Definition lmdb_cursor_renew (args : list lval) : M (list lval) :=
  l <- luaL_checkudata args 1 LUA_LMDB_CURSOR ;;
  cursor <- load_cursor l ;;
  if is_null (cursor_cursor cursor) then ret [] else
  v <- lua_rawgeti (cursor_dbi_ref cursor) ;;
  dbi <- deref_dbi v ;;
  r <- call_native (Mdb_cursor_renew (dbi_txn dbi) (cursor_cursor cursor)) ;;
  if (status r =? MDB_SUCCESS)%Z then ret [lua_pushvalue args 1] else lmdb_pusherror (status r).

Definition lmdb_cursor_txn (args : list lval) : M (list lval) :=
  l <- luaL_checkudata args 1 LUA_LMDB_CURSOR ;;
  cursor <- load_cursor l ;;
  v <- lua_rawgeti (cursor_dbi_ref cursor) ;;
  dbi <- deref_dbi v ;;
  t <- lua_rawgeti (dbi_txn_ref dbi) ;;
  ret [t].

Definition lmdb_cursor_dbi (args : list lval) : M (list lval) :=
  l <- luaL_checkudata args 1 LUA_LMDB_CURSOR ;;
  cursor <- load_cursor l ;;
  if is_null (cursor_cursor cursor) then ret [] else
  v <- lua_rawgeti (cursor_dbi_ref cursor) ;;
  ret [v].

(** The locals [key] and [val] are passed uninitialised; what the engine
    writes into them comes back in the reply. *)
Definition lmdb_cursor_get (args : list lval) : M (list lval) :=
  l <- luaL_checkudata args 1 LUA_LMDB_CURSOR ;;
  cursor <- load_cursor l ;;
  n <- luaL_optinteger args 2 MDB_NEXT ;;
  let op := CInt.to_uint n in
  r <- call_native (Mdb_cursor_get (cursor_cursor cursor) op) ;;
  let rc := status r in
  if (rc =? MDB_SUCCESS)%Z
  then ret [lua_pushlstring (mv_data (out_key r)) (mv_size (out_key r));
            lua_pushlstring (mv_data (out_val r)) (mv_size (out_val r))]
  else lmdb_pusherror rc.

Definition lmdb_cursor_put (args : list lval) : M (list lval) :=
  l <- luaL_checkudata args 1 LUA_LMDB_CURSOR ;;
  cursor <- load_cursor l ;;
  va <- lmdb_checkvalue args 2 ;;
  vb <- lmdb_checkvalue args 3 ;;
  n <- luaL_optinteger args 4 0 ;;
  let flags := CInt.to_uint n in
  r <- call_native (Mdb_cursor_put (cursor_cursor cursor) va vb flags) ;;
  let rc := status r in
  if (rc =? MDB_SUCCESS)%Z then ret [lua_pushvalue args 1] else lmdb_pusherror rc.

Definition lmdb_cursor_del (args : list lval) : M (list lval) :=
  l <- luaL_checkudata args 1 LUA_LMDB_CURSOR ;;
  cursor <- load_cursor l ;;
  n <- luaL_optinteger args 2 0 ;;
  let flags := CInt.to_uint n in
  r <- call_native (Mdb_cursor_del (cursor_cursor cursor) flags) ;;
  let rc := status r in
  if (rc =? MDB_SUCCESS)%Z then ret [lua_pushvalue args 1] else lmdb_pusherror rc.

Definition lmdb_cursor_count (args : list lval) : M (list lval) :=
  l <- luaL_checkudata args 1 LUA_LMDB_CURSOR ;;
  cursor <- load_cursor l ;;
  r <- call_native (Mdb_cursor_count (cursor_cursor cursor)) ;;
  let rc := status r in
  if (rc =? MDB_SUCCESS)%Z then ret [LInt (CInt.to_lua_Integer (out_int r))] else lmdb_pusherror rc.

End Wrappers.

(** ** Registration of the classes *)

(** The C functions that appear in the [luaL_Reg] arrays. *)
Inductive cfunction :=
| c_lmdb_version | c_lmdb_strerror | c_lmdb_open
| c_lmdb_txn_begin | c_lmdb_close | c_lmdb_copy | c_lmdb_sync
| c_lmdb_get_property | c_lmdb_set_property | c_lmdb_stat | c_lmdb_info
| c_lmdb_reader_list | c_lmdb_reader_check
| c_lmdb_txn_commit | c_lmdb_txn_abort | c_lmdb_txn_reset | c_lmdb_txn_renew
| c_lmdb_txn_id | c_lmdb_dbi_open
| c_lmdb_cmp | c_lmdb_dcmp | c_lmdb_put | c_lmdb_del | c_lmdb_get
| c_lmdb_dbi_stat | c_lmdb_dbi_flags | c_lmdb_dbi_drop | c_lmdb_dbi_close
| c_lmdb_cursor_open
| c_lmdb_cursor_renew | c_lmdb_cursor_close | c_lmdb_cursor_dbi | c_lmdb_cursor_txn
| c_lmdb_cursor_get | c_lmdb_cursor_put | c_lmdb_cursor_del | c_lmdb_cursor_count
| c_auxiliar_tostring.

Global Instance cfunction_eq_dec : EqDecision cfunction.
Proof. solve_decision. Defined.

(** One [luaL_Reg] entry; the arrays are given without their sentinel. *)
Record luaL_Reg := { name : string; func : cfunction }.

Definition env_methods : list luaL_Reg :=
  [ {| name := "txn_begin"; func := c_lmdb_txn_begin |};
    {| name := "close"; func := c_lmdb_close |};
    {| name := "copy"; func := c_lmdb_copy |};
    {| name := "sync"; func := c_lmdb_sync |};
    {| name := "get"; func := c_lmdb_get_property |};
    {| name := "set"; func := c_lmdb_set_property |};
    {| name := "stat"; func := c_lmdb_stat |};
    {| name := "info"; func := c_lmdb_info |};
    {| name := "reader_list"; func := c_lmdb_reader_list |};
    {| name := "reader_check"; func := c_lmdb_reader_check |};
    {| name := "__tostring"; func := c_auxiliar_tostring |} ].

Definition txn_methods : list luaL_Reg :=
  [ {| name := "commit"; func := c_lmdb_txn_commit |};
    {| name := "abort"; func := c_lmdb_txn_abort |};
    {| name := "reset"; func := c_lmdb_txn_reset |};
    {| name := "renew"; func := c_lmdb_txn_renew |};
    {| name := "id"; func := c_lmdb_txn_id |};
    {| name := "dbi_open"; func := c_lmdb_dbi_open |};
    {| name := "__tostring"; func := c_auxiliar_tostring |} ].

Definition dbi_methods : list luaL_Reg :=
  [ {| name := "cmp"; func := c_lmdb_cmp |};
    {| name := "dcmp"; func := c_lmdb_dcmp |};
    {| name := "put"; func := c_lmdb_put |};
    {| name := "del"; func := c_lmdb_del |};
    {| name := "get"; func := c_lmdb_get |};
    {| name := "stat"; func := c_lmdb_dbi_stat |};
    {| name := "flags"; func := c_lmdb_dbi_flags |};
    {| name := "flags"; func := c_lmdb_dbi_drop |};
    {| name := "close"; func := c_lmdb_dbi_close |};
    {| name := "cursor_open"; func := c_lmdb_cursor_open |};
    {| name := "__gc"; func := c_lmdb_dbi_close |};
    {| name := "__tostring"; func := c_auxiliar_tostring |} ].

Definition cursor_methods : list luaL_Reg :=
  [ {| name := "renew"; func := c_lmdb_cursor_renew |};
    {| name := "close"; func := c_lmdb_cursor_close |};
    {| name := "dbi"; func := c_lmdb_cursor_dbi |};
    {| name := "txn"; func := c_lmdb_cursor_txn |};
    {| name := "get"; func := c_lmdb_cursor_get |};
    {| name := "put"; func := c_lmdb_cursor_put |};
    {| name := "del"; func := c_lmdb_cursor_del |};
    {| name := "count"; func := c_lmdb_cursor_count |};
    {| name := "__gc"; func := c_lmdb_cursor_close |};
    {| name := "__tostring"; func := c_auxiliar_tostring |} ].

Definition funcs : list luaL_Reg :=
  [ {| name := "version"; func := c_lmdb_version |};
    {| name := "strerror"; func := c_lmdb_strerror |};
    {| name := "open"; func := c_lmdb_open |} ].

(** What a slot of a class table holds: a string, a C function, or (for
    the [__index] slot of the metatable) the index table of the class. *)
Inductive slot :=
| SString (s : string)
| SFunction (f : cfunction)
| SIndex.

Global Instance slot_eq_dec : EqDecision slot.
Proof. solve_decision. Defined.

(** The two tables [auxiliar_newclass] builds: the metatable [mt] and
    the index table [it], which is stored under [mt.__index]. *)
Record class_tables := { mt : gmap string slot; it : gmap string slot }.

Definition starts_with_underscore (s : string) : bool :=
  match s with
  | String c _ => Ascii.eqb c "_"%char
  | EmptyString => false
  end.

(** One turn of the registration loop: [lua_rawset] into the metatable
    (stack index -5) when the name starts with an underscore, into the
    index table (index -3) otherwise. *)
Definition register_method (t : class_tables) (r : luaL_Reg) : class_tables :=
  if starts_with_underscore (name r)
  then {| mt := <[name r := SFunction (func r)]> (mt t); it := it t |}
  else {| mt := mt t; it := <[name r := SFunction (func r)]> (it t) |}.

Definition auxiliar_newclass (classname : string) (fs : list luaL_Reg) : class_tables :=
  let t0 := {| mt := ∅; it := {[ "class" := SString classname ]} |} in
  let t := fold_left register_method fs t0 in
  {| mt := <["__index" := SIndex]> (mt t); it := it t |}.

(** The metatables [luaopen_lmdb] leaves in the registry, by name.  (It
    also builds the module table with [funcs] and the tables of enum
    constants, which play no part below.) *)
Definition luaopen_lmdb : gmap string class_tables :=
  <[LUA_LMDB_CURSOR := auxiliar_newclass LUA_LMDB_CURSOR cursor_methods]>
  (<[LUA_LMDB_DBI := auxiliar_newclass LUA_LMDB_DBI dbi_methods]>
  (<[LUA_LMDB_TXN := auxiliar_newclass LUA_LMDB_TXN txn_methods]>
  (<[LUA_LMDB_ENV := auxiliar_newclass LUA_LMDB_ENV env_methods]> ∅))).

(** Indexing a userdata whose metatable is [t] with a method name: the
    [__index] slot of the metatable is a table, so the name is looked up
    in that table. *)
Definition index_method (t : class_tables) (key : string) : option slot :=
  match mt t !! "__index" with
  | Some SIndex => it t !! key
  | _ => None
  end.

Section Dispatch.

Context {eng : Engine} {rt : Runtime}.

Local Abbreviation M := (M eng rt).

Definition auxiliar_tostring (args : list lval) : M (list lval) :=
  let invalid := raise "invalid object passed to 'auxiliar.c:__tostring'" in
  match arg args 1 with
  | Some (LUserdata l) =>
      u <- read_block l ;;
      match meta u with
      | Some tname =>
          match luaopen_lmdb !! tname with
          | Some t =>
              match index_method t "class" with
              | Some (SString cls) => ret [LStr (cls ++ ": " ++ fmt_ptr rt l)]
              | _ => invalid
              end
          | None => invalid
          end
      | None => invalid
      end
  | _ => invalid
  end.

(** The body behind each registered function pointer. *)
Definition run_cfunction (f : cfunction) : list lval -> M (list lval) :=
  match f with
  | c_lmdb_version => lmdb_version
  | c_lmdb_strerror => lmdb_strerror
  | c_lmdb_open => lmdb_open
  | c_lmdb_txn_begin => lmdb_txn_begin
  | c_lmdb_close => lmdb_close
  | c_lmdb_copy => lmdb_copy
  | c_lmdb_sync => lmdb_sync
  | c_lmdb_get_property => lmdb_get_property
  | c_lmdb_set_property => lmdb_set_property
  | c_lmdb_stat => lmdb_stat
  | c_lmdb_info => lmdb_info
  | c_lmdb_reader_list => lmdb_reader_list
  | c_lmdb_reader_check => lmdb_reader_check
  | c_lmdb_txn_commit => lmdb_txn_commit
  | c_lmdb_txn_abort => lmdb_txn_abort
  | c_lmdb_txn_reset => lmdb_txn_reset
  | c_lmdb_txn_renew => lmdb_txn_renew
  | c_lmdb_txn_id => lmdb_txn_id
  | c_lmdb_dbi_open => lmdb_dbi_open
  | c_lmdb_cmp => lmdb_cmp
  | c_lmdb_dcmp => lmdb_dcmp
  | c_lmdb_put => lmdb_put
  | c_lmdb_del => lmdb_del
  | c_lmdb_get => lmdb_get
  | c_lmdb_dbi_stat => lmdb_dbi_stat
  | c_lmdb_dbi_flags => lmdb_dbi_flags
  | c_lmdb_dbi_drop => lmdb_dbi_drop
  | c_lmdb_dbi_close => lmdb_dbi_close
  | c_lmdb_cursor_open => lmdb_cursor_open
  | c_lmdb_cursor_renew => lmdb_cursor_renew
  | c_lmdb_cursor_close => lmdb_cursor_close
  | c_lmdb_cursor_dbi => lmdb_cursor_dbi
  | c_lmdb_cursor_txn => lmdb_cursor_txn
  | c_lmdb_cursor_get => lmdb_cursor_get
  | c_lmdb_cursor_put => lmdb_cursor_put
  | c_lmdb_cursor_del => lmdb_cursor_del
  | c_lmdb_cursor_count => lmdb_cursor_count
  | c_auxiliar_tostring => auxiliar_tostring
  end.

(** The Lua method call [obj:key(...)] on a userdata: the method is found
    through the metatable of [obj] and called with [obj] as first
    argument. *)
Definition method_call (obj : loc) (key : string) (rest : list lval) : M (list lval) :=
  u <- read_block obj ;;
  match meta u with
  | None => raise "attempt to index a userdata value"
  | Some tname =>
      match luaopen_lmdb !! tname with
      | None => raise "attempt to index a userdata value"
      | Some t =>
          match index_method t key with
          | Some (SFunction f) => run_cfunction f (LUserdata obj :: rest)
          | _ => raise "attempt to call a non-function value"
          end
      end
  end.

End Dispatch.

(** ** A reference engine and runtime

    A small in-memory engine that follows the conventions of LMDB that
    matter to the wrappers: a call on a handle it does not know (the null
    pointer, a handle already released) is answered [EINVAL], a missing
    key is answered [MDB_NOTFOUND], and the reader dump stops as soon as
    the message function returns a negative value.  It gives the
    statements below concrete instances to run on. *)

Module Ref.

Definition ENOENT : Z := 2.

Record ref_state := {
  next_addr : nat;
  envs : list nat;
  txns : list nat;
  cursors : list (nat * nat);
  userctx : Z;
  store : list (string * string)
}.

Definition init_engine : ref_state :=
  {| next_addr := 1; envs := []; txns := []; cursors := []; userctx := 0; store := [] |}.

Definition empty_val : MDB_val := {| mv_size := 0; mv_data := "" |}.

Definition zero_stat : MDB_stat :=
  {| ms_psize := 4096; ms_depth := 0; ms_branch_pages := 0; ms_leaf_pages := 0;
     ms_overflow_pages := 0; ms_entries := 0 |}.

Definition zero_info : MDB_envinfo :=
  {| me_mapsize := 0; me_last_pgno := 0; me_last_txnid := 0; me_maxreaders := 0;
     me_numreaders := 0 |}.

Definition answer (rc : Z) : reply :=
  {| status := rc; out_ptr := NULL; out_int := 0; out_key := empty_val;
     out_val := empty_val; out_str := ""; out_stat := zero_stat; out_info := zero_info |}.

Definition answer_ptr (p : ptr) : reply :=
  {| status := 0; out_ptr := p; out_int := 0; out_key := empty_val;
     out_val := empty_val; out_str := ""; out_stat := zero_stat; out_info := zero_info |}.

Definition answer_int (n : Z) : reply :=
  {| status := 0; out_ptr := NULL; out_int := n; out_key := empty_val;
     out_val := empty_val; out_str := ""; out_stat := zero_stat; out_info := zero_info |}.

Definition as_val (s : string) : MDB_val := {| mv_size := String.length s; mv_data := s |}.

Definition answer_pair (k v : string) : reply :=
  {| status := 0; out_ptr := NULL; out_int := 0; out_key := as_val k;
     out_val := as_val v; out_str := ""; out_stat := zero_stat; out_info := zero_info |}.

Definition known (l : list nat) (p : ptr) : bool :=
  match p with
  | Native a => bool_decide (a ∈ l)
  | _ => false
  end.

Definition forget (l : list nat) (p : ptr) : list nat :=
  match p with
  | Native a => filter (fun b => b ≠ a) l
  | _ => l
  end.

Fixpoint lookup_key (k : string) (kvs : list (string * string)) : option string :=
  match kvs with
  | [] => None
  | (k', v) :: rest => if String.eqb k' k then Some v else lookup_key k rest
  end.

(** Entries are kept in the order of their first insertion; the ordering
    of keys is not modelled. *)
Fixpoint insert_key (k v : string) (kvs : list (string * string)) : list (string * string) :=
  match kvs with
  | [] => [(k, v)]
  | (k', v') :: rest =>
      if String.eqb k' k then (k, v) :: rest else (k', v') :: insert_key k v rest
  end.

Definition remove_key (k : string) (kvs : list (string * string)) : list (string * string) :=
  filter (fun kv => kv.1 ≠ k) kvs.

Definition with_store (es : ref_state) (kvs : list (string * string)) : ref_state :=
  {| next_addr := next_addr es; envs := envs es; txns := txns es;
     cursors := cursors es; userctx := userctx es; store := kvs |}.

Fixpoint find_cursor (a : nat) (cs : list (nat * nat)) : option nat :=
  match cs with
  | [] => None
  | (b, pos) :: rest => if (a =? b)%nat then Some pos else find_cursor a rest
  end.

Definition cursor_known (es : ref_state) (p : ptr) : option nat :=
  match p with
  | Native a => find_cursor a (cursors es)
  | _ => None
  end.

Definition set_cursor (es : ref_state) (a pos : nat) : ref_state :=
  {| next_addr := next_addr es; envs := envs es; txns := txns es;
     cursors := (a, pos) :: filter (fun c => c.1 ≠ a) (cursors es);
     userctx := userctx es; store := store es |}.

Definition step (c : call) (es : ref_state) : ref_state * reply :=
  let guard (l : list nat) (p : ptr) (ok : ref_state * reply) :=
    if known l p then ok else (es, answer EINVAL) in
  match c with
  | Mdb_env_create =>
      ({| next_addr := S (next_addr es); envs := next_addr es :: envs es; txns := txns es;
          cursors := cursors es; userctx := userctx es; store := store es |},
       answer_ptr (Native (next_addr es)))
  | Mdb_env_open p path _ _ =>
      guard (envs es) p (if String.eqb path "" then (es, answer ENOENT) else (es, answer 0))
  | Mdb_env_copy p path =>
      guard (envs es) p (if String.eqb path "" then (es, answer ENOENT) else (es, answer 0))
  | Mdb_env_close p =>
      ({| next_addr := next_addr es; envs := forget (envs es) p; txns := txns es;
          cursors := cursors es; userctx := 0; store := store es |}, answer 0)
  | Mdb_env_get_userctx p =>
      (es, if known (envs es) p then answer_int (userctx es) else answer_int 0)
  | Mdb_env_set_userctx p ctx =>
      guard (envs es) p
        ({| next_addr := next_addr es; envs := envs es; txns := txns es;
            cursors := cursors es; userctx := ctx; store := store es |}, answer 0)
  | Mdb_env_set_maxreaders p _ | Mdb_env_set_mapsize p _ | Mdb_env_set_maxdbs p _
  | Mdb_env_set_flags p _ _ | Mdb_env_sync p _ | Mdb_env_get_flags p | Mdb_env_get_path p
  | Mdb_env_get_fd p | Mdb_env_get_maxreaders p | Mdb_env_stat p | Mdb_env_info p
  | Mdb_reader_check p =>
      guard (envs es) p (es, answer 0)
  | Mdb_env_get_maxkeysize _ => (es, answer 511)
  | Mdb_txn_begin e _ _ =>
      guard (envs es) e
        ({| next_addr := S (next_addr es); envs := envs es; txns := next_addr es :: txns es;
            cursors := cursors es; userctx := userctx es; store := store es |},
         answer_ptr (Native (next_addr es)))
  | Mdb_txn_id p =>
      (es, match p with
           | Native a => if known (txns es) p then answer_int (Z.of_nat a) else answer_int 0
           | _ => answer_int 0
           end)
  | Mdb_txn_commit p =>
      guard (txns es) p
        ({| next_addr := next_addr es; envs := envs es; txns := forget (txns es) p;
            cursors := cursors es; userctx := userctx es; store := store es |}, answer 0)
  | Mdb_txn_abort p =>
      ({| next_addr := next_addr es; envs := envs es; txns := forget (txns es) p;
          cursors := cursors es; userctx := userctx es; store := store es |}, answer 0)
  | Mdb_txn_reset _ => (es, answer 0)
  | Mdb_txn_renew p => guard (txns es) p (es, answer 0)
  | Mdb_dbi_open t _ _ => guard (txns es) t (es, answer_int 1)
  | Mdb_dbi_close _ _ => (es, answer 0)
  | Mdb_stat t _ | Mdb_dbi_flags t _ => guard (txns es) t (es, answer 0)
  | Mdb_drop t _ _ => guard (txns es) t (with_store es [], answer 0)
  | Mdb_get t _ key =>
      guard (txns es) t
        (match lookup_key (val_bytes key) (store es) with
         | Some v => (es, answer_pair (val_bytes key) v)
         | None => (es, answer MDB_NOTFOUND)
         end)
  | Mdb_put t _ key data _ =>
      guard (txns es) t
        (with_store es (insert_key (val_bytes key) (val_bytes data) (store es)), answer 0)
  | Mdb_del t _ key =>
      guard (txns es) t
        (match lookup_key (val_bytes key) (store es) with
         | Some _ => (with_store es (remove_key (val_bytes key) (store es)), answer 0)
         | None => (es, answer MDB_NOTFOUND)
         end)
  | Mdb_cmp _ _ a b | Mdb_dcmp _ _ a b =>
      (es, answer (match String.compare (val_bytes a) (val_bytes b) with
                   | Lt => -1 | Eq => 0 | Gt => 1
                   end))
  | Mdb_cursor_open t _ =>
      guard (txns es) t
        ({| next_addr := S (next_addr es); envs := envs es; txns := txns es;
            cursors := (next_addr es, O) :: cursors es; userctx := userctx es;
            store := store es |},
         answer_ptr (Native (next_addr es)))
  | Mdb_cursor_close p =>
      (match p with
       | Native a =>
           {| next_addr := next_addr es; envs := envs es; txns := txns es;
              cursors := filter (fun c => c.1 ≠ a) (cursors es); userctx := userctx es;
              store := store es |}
       | _ => es
       end, answer 0)
  | Mdb_cursor_renew t p =>
      guard (txns es) t
        (match cursor_known es p with
         | Some _ => (es, answer 0)
         | None => (es, answer EINVAL)
         end)
  | Mdb_cursor_get p op =>
      match p, cursor_known es p with
      | Native a, Some pos =>
          let pos' := if (op =? 0)%Z then O else pos in
          if (op =? 0)%Z || (op =? MDB_NEXT)%Z then
            match store es !! pos' with
            | Some (k, v) => (set_cursor es a (S pos'), answer_pair k v)
            | None => (es, answer MDB_NOTFOUND)
            end
          else (es, answer EINVAL)
      | _, _ => (es, answer EINVAL)
      end
  | Mdb_cursor_put p key data _ =>
      match cursor_known es p with
      | Some _ =>
          (with_store es (insert_key (val_bytes key) (val_bytes data) (store es)), answer 0)
      | None => (es, answer EINVAL)
      end
  | Mdb_cursor_del p _ | Mdb_cursor_count p =>
      match cursor_known es p with
      | Some _ => (es, answer_int 1)
      | None => (es, answer EINVAL)
      end
  end.

Definition strerror (err : Z) : string :=
  if (err =? 0)%Z then "Successful return: 0"
  else if (err =? MDB_NOTFOUND)%Z then "MDB_NOTFOUND: No matching key/data pair found"
  else if (err =? EINVAL)%Z then "Invalid argument"
  else if (err =? ENOENT)%Z then "No such file or directory"
  else if (err =? ENOMEM)%Z then "Cannot allocate memory"
  else "Unknown error " ++ pretty err.

(** The reader dump: a header and one line per open transaction, or a
    single line when there is none; a negative answer of the message
    function ends it. *)
Fixpoint emit (lines : list string) (rc : Z) : reader_run :=
  match lines with
  | [] => RDone rc
  | m :: rest => REmit m (fun rc' => if (rc' <? 0)%Z then RDone rc' else emit rest rc')
  end.

Definition reader_lines (es : ref_state) : list string :=
  match txns es with
  | [] => ["(no active readers)"]
  | ts => "    pid     thread     txnid" :: map (fun t => "reader " ++ pretty t) ts
  end.

Definition reader_list (es : ref_state) (p : ptr) : reader_run :=
  if known (envs es) p then emit (reader_lines es) 0 else RDone (-1).

Definition lmdb : Engine :=
  {| estate := ref_state;
     native := step;
     mdb_strerror := strerror;
     mdb_version := ("LMDB 0.9.70: (December 19, 2015)", (0, 9, 70));
     mdb_reader_list := reader_list |}.

(** Three Lua closures: 0 always returns, 1 always raises, 2 returns the
    first time it is called and raises from then on.  The script world
    counts the calls made. *)
Definition call_closure (f : fid) (args : list lval) (w : nat) : nat * (lval + list lval) :=
  (S w,
   match f with
   | O => inr []
   | S O => inl (LStr "boom")
   | _ => if (w =? 0)%nat then inr [] else inl (LStr "boom")
   end).

Fixpoint digits (s : string) (acc : Z) : option Z :=
  match s with
  | EmptyString => Some acc
  | String c rest =>
      let n := Z.of_nat (nat_of_ascii c) - 48 in
      if (0 <=? n)%Z && (n <=? 9)%Z then digits rest (10 * acc + n) else None
  end.

Definition parse_int (s : string) : option Z :=
  match s with
  | EmptyString => None
  | String "-" (String c rest) => Z.opp <$> digits (String c rest) 0
  | _ => digits s 0
  end.

Definition lua : Runtime :=
  {| world := nat;
     lua_call := call_closure;
     str2int := parse_int;
     int2str := pretty;
     junk_ptr := Native 0;
     junk_int := 1431655765;
     fmt_ptr := fun l => "0x" ++ pretty l |}.

Definition init : lua_State lmdb lua :=
  @Build_lua_State lmdb lua [] ∅ init_engine O [].

End Ref.


(** ** Vocabulary of the statements *)

(** The [MDB_val] [lmdb_checkvalue] builds for the Lua string [s]. *)
Definition whole (s : string) : MDB_val := {| mv_size := String.length s; mv_data := s |}.

(** In engine state [es], table [d] of transaction [t] holds one value
    per key: a [mdb_put] (without flags) that succeeds there is read back
    by a [mdb_get] of the same key right after it, which succeeds and
    yields the bytes that were put.  A table opened for duplicate keys
    ([MDB_DUPSORT]) is not of this kind: there [mdb_get] yields the first
    of the values stored under the key. *)
Definition one_value_per_key (eng : Engine) (es : estate eng) (t : ptr) (d : Z) : Prop :=
  forall key data : MDB_val,
    let put := native eng (Mdb_put t d key data 0) es in
    status put.2 = 0%Z ->
    let get := native eng (Mdb_get t d key) put.1 in
    status get.2 = 0%Z /\ val_bytes (out_val get.2) = val_bytes data.

Section Vocabulary.

Context {eng : Engine} {rt : Runtime}.

Local Abbreviation State := (lua_State eng rt).

(** Block [l] carries the metatable [tname] and holds [b]. *)
Definition holds (st : State) (l : loc) (tname : string) (b : block) : Prop :=
  heap st !! l = Some {| meta := Some tname; body := b |}.

(** The failure result: [nil], the message of the engine's translator for
    the code, the code. *)
Definition failure (rc : Z) : list lval :=
  [LNil; LStr (c_str (mdb_strerror eng rc)); LInt rc].

(** The reply the engine gives to call [c] in state [st], and the state
    the call leaves: the engine has moved and the call is in the log. *)
Definition answer_of (c : call) (st : State) : reply :=
  (native eng c (engine st)).2.

Definition called (c : call) (st : State) : State :=
  set_engine (native eng c (engine st)).1 (log (EvNative c (answer_of c st)) st).

(** What a status-returning operation leaves as results: [ok] when the
    status is [MDB_SUCCESS], the failure result for the status otherwise. *)
Definition by_status (rc : Z) (ok : list lval) : list lval :=
  if (rc =? MDB_SUCCESS)%Z then ok else failure rc.

(** Which engine call opens a handle of which class. *)
Definition opens (tname : string) (c : call) : Prop :=
  match c with
  | Mdb_txn_begin _ _ _ => tname = LUA_LMDB_TXN
  | Mdb_dbi_open _ _ _ => tname = LUA_LMDB_DBI
  | Mdb_cursor_open _ _ => tname = LUA_LMDB_CURSOR
  | _ => False
  end.

(** The state a constructor leaves behind when it started in [st] and
    made the engine call [c]: one new block [u] at the end of the heap,
    the call in the log, and, when [anchor] is given, that value stored in
    the registry under a reference not in use before. *)
Definition built (st : State) (c : call) (u : udata) (anchor : option lval) : State :=
  let ref := fresh_ref (registry st) in
  {| heap := heap st ++ [u];
     registry := match anchor with
                 | Some v => <[ref := v]> (registry st)
                 | None => registry st
                 end;
     engine := (native eng c (engine st)).1;
     script := script st;
     trace := match anchor with
              | Some _ => (trace st ++ [EvNative c (answer_of c st)]) ++ [EvRef ref]
              | None => trace st ++ [EvNative c (answer_of c st)]
              end |}.

(** A constructor of class [tname], called with [args] in [st], returned
    [res] in [st']: it allocated one block and made one engine call that
    opens a handle of the class.  Either the call succeeded, the block
    carries the metatable of the class and argument 1 (the parent) is
    anchored under a reference that was free; or the call failed, the
    block carries no metatable, the registry is as before and no reference
    was taken. *)
Definition constructed (tname : string) (args : list lval) (st st' : State)
    (res : list lval) : Prop :=
  exists c u,
    let r := answer_of c st in
    opens tname c /\
    heap st' = (heap st ++ [u])%list /\
    ((status r = 0%Z /\ res = [LUserdata (length (heap st))] /\ meta u = Some tname /\
      exists ref, registry st !! ref = None /\
                  registry st' = <[ref := lua_pushvalue args 1]> (registry st) /\
                  trace st' = (trace st ++ [EvNative c r; EvRef ref])%list)
     \/ (status r <> 0%Z /\ res = failure (status r) /\ meta u = None /\
         registry st' = registry st /\
         trace st' = (trace st ++ [EvNative c r])%list)).

(** The class a struct belongs to, whether its handle is closed (the
    field each teardown function tests), and the teardown operation of its
    class: [close] for an environment, a table and a cursor, [abort] for a
    transaction. *)
Definition class_of (b : block) : string :=
  match b with
  | BEnv _ => LUA_LMDB_ENV
  | BTxn _ => LUA_LMDB_TXN
  | BDbi _ => LUA_LMDB_DBI
  | BCursor _ => LUA_LMDB_CURSOR
  end.

Definition closed (b : block) : bool :=
  match b with
  | BEnv e => is_null (env_env e)
  | BTxn t => is_null (txn_txn t)
  | BDbi d => (dbi_dbi d =? 0)%Z
  | BCursor c => is_null (cursor_cursor c)
  end.

Definition teardown (b : block) : list lval -> M eng rt (list lval) :=
  match b with
  | BEnv _ => lmdb_close
  | BTxn _ => lmdb_txn_abort
  | BDbi _ => lmdb_dbi_close
  | BCursor _ => lmdb_cursor_close
  end.

(** The state [lmdb_txn_close] leaves when the transaction in block [l]
    was live and held the reference [ref]: the pointer is cleared, the
    reference field is [LUA_NOREF], the reference is dropped. *)
Definition released (l : loc) (ref : Z) (st : State) : State :=
  {| heap := <[l := {| meta := Some LUA_LMDB_TXN;
                       body := BTxn {| txn_txn := NULL; txn_env_ref := LUA_NOREF |} |}]> (heap st);
     registry := delete ref (registry st);
     engine := engine st;
     script := script st;
     trace := trace st ++ [EvUnref ref] |}.

(** The reader dump and its callback.  [callback_never_raises run f w]:
    closure [f], started in world [w], returns normally on every line
    [run] hands it when each of its answers is taken as "go on".
    [completes run]: the engine ends the dump with status 0 when every
    answer was 0.  [stops_on_abort run]: at every line, the answer -1
    makes the engine stop at once with a non-zero status. *)
Fixpoint callback_never_raises (run : reader_run) (f : fid) (w : world rt) : bool :=
  match run with
  | RDone _ => true
  | REmit msg k =>
      match lua_call rt f [lua_pushstring msg] w with
      | (w', inr _) => callback_never_raises (k 0%Z) f w'
      | (_, inl _) => false
      end
  end.

Fixpoint completes (run : reader_run) : bool :=
  match run with
  | RDone rc => (rc =? 0)%Z
  | REmit _ k => completes (k 0%Z)
  end.

Fixpoint stops_on_abort (run : reader_run) : bool :=
  match run with
  | RDone _ => true
  | REmit _ k =>
      match k (-1)%Z with
      | RDone rc => negb (rc =? 0)%Z
      | REmit _ _ => false
      end && stops_on_abort (k 0%Z)
  end.

Definition is_stderr (ev : event) : Prop :=
  match ev with EvStderr _ => True | _ => False end.

(** State [st] after closures have run and lines went to [stderr]: only
    the script world and the log differ. *)
Definition moved (w : world rt) (mid : list event) (st : State) : State :=
  {| heap := heap st; registry := registry st; engine := engine st;
     script := w; trace := trace st ++ mid |}.

End Vocabulary.

Global Arguments failure : clear implicits.
Global Arguments by_status : clear implicits.

(** ** Sample runs on the reference engine

    [env = lmdb.open("/tmp/db")] is block 0, [txn = env:txn_begin()]
    block 1, [dbi = txn:dbi_open()] block 2, [cur = dbi:cursor_open()]
    block 3. *)

Module Sample.

Definition env : lval := LUserdata 0%nat.
Definition txn : lval := LUserdata 1%nat.
Definition dbi : lval := LUserdata 2%nat.
Definition cur : lval := LUserdata 3%nat.

Definition opened : lua_State Ref.lmdb Ref.lua :=
  final_state (lmdb_open [LStr "/tmp/db"] Ref.init).

Definition begun : lua_State Ref.lmdb Ref.lua :=
  final_state (lmdb_txn_begin [env] opened).

Definition with_dbi : lua_State Ref.lmdb Ref.lua :=
  final_state (lmdb_dbi_open [txn] begun).

Definition with_cursor : lua_State Ref.lmdb Ref.lua :=
  final_state (lmdb_cursor_open [dbi] with_dbi).

(** [txn:commit()] right after [env:txn_begin()]. *)
Definition committed : lua_State Ref.lmdb Ref.lua :=
  final_state (lmdb_txn_commit [txn] begun).

(** [cur:close(); dbi:close(); txn:commit(); env:close()]. *)
Definition cursor_closed : lua_State Ref.lmdb Ref.lua :=
  final_state (lmdb_cursor_close [cur] with_cursor).

Definition dbi_closed : lua_State Ref.lmdb Ref.lua :=
  final_state (lmdb_dbi_close [dbi] cursor_closed).

Definition txn_closed : lua_State Ref.lmdb Ref.lua :=
  final_state (lmdb_txn_commit [txn] dbi_closed).

Definition all_closed : lua_State Ref.lmdb Ref.lua :=
  final_state (lmdb_close [env] txn_closed).

(** A key and a value with zero bytes inside. *)
Definition key0 : string := String "k" (String Ascii.zero (String "1" EmptyString)).
Definition value0 : string := String Ascii.zero (String "v" (String Ascii.zero EmptyString)).

End Sample.

(** ** Vocabulary of the further statements *)

(** Argument [i] is missing or is neither a string nor a number: what
    [luaL_checklstring] rejects. *)
Definition no_string_at (args : list lval) (i : nat) : Prop :=
  match arg args i with
  | Some (LStr _) | Some (LInt _) => False
  | _ => True
  end.

(** The property names [lmdb_get_property] knows. *)
Definition gettable : list string :=
  ["flags"; "path"; "fd"; "maxreaders"; "maxkeysize"; "userctx"].

(** The engine hands back through [mdb_env_get_userctx] what a successful
    [mdb_env_set_userctx] stored. *)
Definition engine_keeps_userctx (eng : Engine) : Prop :=
  forall (es : estate eng) (p : ptr) (ctx : Z),
    let set := native eng (Mdb_env_set_userctx p ctx) es in
    status set.2 = 0%Z ->
    out_int (native eng (Mdb_env_get_userctx p) set.1).2 = ctx.

(** Events of the log: a call of [mdb_env_close], and the status an
    engine call returned. *)
Definition is_env_close (ev : event) : Prop :=
  match ev with
  | EvNative (Mdb_env_close _) _ => True
  | _ => False
  end.

Definition event_status (ev : event) : option Z :=
  match ev with
  | EvNative _ r => Some (status r)
  | _ => None
  end.

Definition is_unref (ev : event) : Prop :=
  match ev with EvUnref _ => True | _ => False end.

(** The property names [lmdb_set_property] knows. *)
Definition settable : list string :=
  ["flags"; "mapsize"; "maxreaders"; "maxdbs"; "userctx"].

(** The four classes [luaopen_lmdb] registers, each with its array of
    methods. *)
Definition registered_classes : list (string * list luaL_Reg) :=
  [(LUA_LMDB_ENV, env_methods); (LUA_LMDB_TXN, txn_methods);
   (LUA_LMDB_DBI, dbi_methods); (LUA_LMDB_CURSOR, cursor_methods)].

Section Outcomes.

Context {eng : Engine} {rt : Runtime}.

(** Ways a computation can behave towards the state.  [quiet]
    computations (the argument checks and loads) leave it as it is,
    however they end; [never_raises] computations do not raise a Lua
    error; [raises_clean] computations may change the state and may raise,
    but when they raise the state is as it was at the start;
    [takes_no_reference] computations end with a registry that holds
    nothing it did not hold at the start. *)
Definition quiet {A} (m : M eng rt A) : Prop :=
  forall st, final_state (m st) = st.

Definition never_raises {A} (m : M eng rt A) : Prop :=
  forall st e st', m st <> Raise e st'.

Definition raises_clean {A} (m : M eng rt A) : Prop :=
  forall st e st', m st = Raise e st' -> st' = st.

Definition takes_no_reference {A} (m : M eng rt A) : Prop :=
  forall st, registry (final_state (m st)) ⊆ registry st.

End Outcomes.

(** The functions that leave a new reference in the registry when they
    succeed: the three constructors that anchor their parent, and
    [env:set], which anchors the user context. *)
Definition anchors (f : cfunction) : bool :=
  match f with
  | c_lmdb_txn_begin | c_lmdb_dbi_open | c_lmdb_cursor_open | c_lmdb_set_property => true
  | _ => false
  end.

(** Every block that carries the metatable of a class holds the struct
    of that class. *)
Definition well_typed (h : list udata) : Prop :=
  forall l tname b, h !! l = Some {| meta := Some tname; body := b |} -> tname = class_of b.

(** Block [l], if there is one, holds a struct of class [tname] and
    carries the metatable of that class or none. *)
Definition slot_ok (h : list udata) (l : loc) (tname : string) : Prop :=
  forall u, h !! l = Some u ->
    class_of (body u) = tname /\ (meta u = None \/ meta u = Some tname).

Section HeapOutcomes.

Context {eng : Engine} {rt : Runtime}.

(** [keeps_heap]: the heap ends as it began.  [retypes]: a well-typed
    heap ends well typed.  [typed l tname]: the same, for computations
    that write to block [l] or set its metatable, given that the block is
    one of class [tname]. *)
Definition keeps_heap {A} (m : M eng rt A) : Prop :=
  forall st, heap (final_state (m st)) = heap st.

Definition retypes {A} (m : M eng rt A) : Prop :=
  forall st, well_typed (heap st) -> well_typed (heap (final_state (m st))).

Definition typed (l : loc) (tname : string) {A} (m : M eng rt A) : Prop :=
  forall st,
    slot_ok (heap st) l tname -> well_typed (heap st) ->
    slot_ok (heap (final_state (m st))) l tname /\ well_typed (heap (final_state (m st))).

End HeapOutcomes.

(** ** Further sample runs on the reference engine *)

Module Scenes.

(** [env:set("userctx", "ctx")] on the open environment. *)
Definition with_ctx : lua_State Ref.lmdb Ref.lua :=
  final_state (lmdb_set_property [Sample.env; LStr "userctx"; LStr "ctx"] Sample.opened).

(** The state of [Sample.begun] with the engine started afresh: the
    transaction handle holds a pointer the engine does not know. *)
Definition orphaned : lua_State Ref.lmdb Ref.lua :=
  @set_engine Ref.lmdb Ref.lua Ref.init_engine Sample.begun.

End Scenes.

(** ** An engine with a table of duplicate keys

    The reference engine extended by one table kind of LMDB: a table
    opened with [MDB_DUPSORT] keeps, under each key, the set of values put
    there in sorted order, and [mdb_get] yields the first of them.  Such a
    table has identifier 2; everything else is answered as by the
    reference engine. *)

Module Dup.

(** The table flag for duplicate keys, [0x04] in [lmdb.h]; [luaopen_lmdb]
    exports it as [DBI_FLAG.DUPSORT]. *)
Definition MDB_DUPSORT : Z := 4.

Record dup_state := {
  base : Ref.ref_state;
  dupstore : list (string * list string)
}.

Fixpoint insert_dup (v : string) (vs : list string) : list string :=
  match vs with
  | [] => [v]
  | w :: rest =>
      match String.compare v w with
      | Lt => v :: w :: rest
      | Eq => w :: rest
      | Gt => w :: insert_dup v rest
      end
  end.

Fixpoint put_dup (k v : string) (kvs : list (string * list string)) :
    list (string * list string) :=
  match kvs with
  | [] => [(k, [v])]
  | (k', vs) :: rest =>
      if String.eqb k' k then (k, insert_dup v vs) :: rest else (k', vs) :: put_dup k v rest
  end.

Fixpoint get_dup (k : string) (kvs : list (string * list string)) : option string :=
  match kvs with
  | [] => None
  | (k', vs) :: rest => if String.eqb k' k then head vs else get_dup k rest
  end.

Definition step (c : call) (es : dup_state) : dup_state * reply :=
  let plain :=
    let out := Ref.step c (base es) in
    ({| base := out.1; dupstore := dupstore es |}, out.2) in
  let guard (t : ptr) (ok : dup_state * reply) :=
    if Ref.known (Ref.txns (base es)) t then ok else (es, Ref.answer EINVAL) in
  match c with
  | Mdb_dbi_open t _ flags =>
      if (Z.land flags MDB_DUPSORT =? 0)%Z then plain else guard t (es, Ref.answer_int 2)
  | Mdb_put t d key data _ =>
      if (d =? 2)%Z
      then guard t ({| base := base es;
                       dupstore := put_dup (val_bytes key) (val_bytes data) (dupstore es) |},
                    Ref.answer 0)
      else plain
  | Mdb_get t d key =>
      if (d =? 2)%Z
      then guard t (match get_dup (val_bytes key) (dupstore es) with
                    | Some v => (es, Ref.answer_pair (val_bytes key) v)
                    | None => (es, Ref.answer MDB_NOTFOUND)
                    end)
      else plain
  | _ => plain
  end.

Definition lmdb : Engine :=
  {| estate := dup_state;
     native := step;
     mdb_strerror := Ref.strerror;
     mdb_version := ("LMDB 0.9.70: (December 19, 2015)", (0, 9, 70));
     mdb_reader_list := fun es p => Ref.reader_list (base es) p |}.

Definition init : lua_State lmdb Ref.lua :=
  @Build_lua_State lmdb Ref.lua [] ∅ {| base := Ref.init_engine; dupstore := [] |} O [].

(** [env = lmdb.open("/tmp/db"); txn = env:txn_begin();
    dbi = txn:dbi_open(nil, DUPSORT)], then [dbi:put("k", "a")] and
    [dbi:put("k", "b")] in that transaction. *)
Definition with_dbi : lua_State lmdb Ref.lua :=
  let opened := final_state (lmdb_open [LStr "/tmp/db"] init) in
  let begun := final_state (lmdb_txn_begin [Sample.env] opened) in
  final_state (lmdb_dbi_open [Sample.txn; LNil; LInt MDB_DUPSORT] begun).

Definition after_a : lua_State lmdb Ref.lua :=
  final_state (lmdb_put [Sample.dbi; LStr "k"; LStr "a"] with_dbi).

Definition after_b : lua_State lmdb Ref.lua :=
  final_state (lmdb_put [Sample.dbi; LStr "k"; LStr "b"] after_a).

End Dup.

(** * Properties *)

(** ** C integers *)

(** Values in range are left alone by the conversions. *)
Lemma to_uint_small z : (0 <= z < 2 ^ 32)%Z -> CInt.to_uint z = z.
Proof. intros H. unfold CInt.to_uint, CInt.to_unsigned. by apply Z.mod_small. Qed.

Lemma to_int_small z : (- 2 ^ 31 <= z < 2 ^ 31)%Z -> CInt.to_int z = z.
Proof.
  intros H. unfold CInt.to_int, CInt.to_signed.
  rewrite Z.mod_small; simpl in *; lia.
Qed.

Lemma to_lua_Integer_small z : (- 2 ^ 63 <= z < 2 ^ 63)%Z -> CInt.to_lua_Integer z = z.
Proof.
  intros H. unfold CInt.to_lua_Integer, CInt.to_signed.
  rewrite Z.mod_small; simpl in *; lia.
Qed.

(** The default operator of [cursor:get] survives the cast to the enum. *)
Lemma to_uint_MDB_NEXT : CInt.to_uint MDB_NEXT = MDB_NEXT.
Proof. reflexivity. Qed.

(** ** The registry *)

Lemma max_key_bound (g : gmap Z lval) :
  (0 <= max_key g)%Z /\ forall k v, g !! k = Some v -> (k <= max_key g)%Z.
Proof.
  unfold max_key.
  apply (map_fold_weak_ind
           (fun b (m : gmap Z lval) => (0 <= b)%Z /\ forall k v, m !! k = Some v -> (k <= b)%Z)).
  - split; [lia | intros k v H; rewrite lookup_empty in H; discriminate].
  - intros i x m r Hi [Hr Hm]. split; [lia |].
    intros k v Hk. destruct (decide (i = k)) as [-> | Hne].
    + lia.
    + rewrite lookup_insert_ne in Hk by done. specialize (Hm k v Hk). lia.
Qed.

Lemma fresh_ref_pos (g : gmap Z lval) : (0 < fresh_ref g)%Z.
Proof. unfold fresh_ref. pose proof (max_key_bound g) as [H _]. lia. Qed.

(** A reference handed out by [luaL_ref] is not in use. *)
Lemma fresh_ref_unused (g : gmap Z lval) : g !! fresh_ref g = None.
Proof.
  destruct (g !! fresh_ref g) as [v |] eqn:E; [| done].
  pose proof (max_key_bound g) as [_ H]. specialize (H _ _ E).
  unfold fresh_ref in H. lia.
Qed.

Lemma fresh_ref_leb (g : gmap Z lval) : (0 <=? fresh_ref g)%Z = true.
Proof. pose proof (fresh_ref_pos g). apply Z.leb_le. lia. Qed.

(** Taking a reference and dropping it leaves the registry as it was. *)
Lemma delete_fresh_insert (g : gmap Z lval) (v : lval) :
  delete (fresh_ref g) (<[fresh_ref g := v]> g) = g.
Proof. rewrite delete_insert_eq. apply delete_id, fresh_ref_unused. Qed.

(** ** Byte strings *)

Lemma take_bytes_length (s : string) : take_bytes (String.length s) s = s.
Proof. induction s as [| c s IH]; simpl; [done | by rewrite IH]. Qed.

(** A value built by [lmdb_checkvalue] stands for the whole Lua string,
    whatever bytes it contains. *)
Lemma val_bytes_whole (s : string) :
  val_bytes {| mv_size := String.length s; mv_data := s |} = s.
Proof. apply take_bytes_length. Qed.

(** A C string, by contrast, ends at the first zero byte. *)
Example c_str_stops_at_zero : c_str (String "a" (String Ascii.zero "b")) = "a".
Proof. reflexivity. Qed.

Example take_bytes_keeps_zero :
  take_bytes 3 (String "a" (String Ascii.zero "b")) = String "a" (String Ascii.zero "b").
Proof. reflexivity. Qed.

(** ** Running the wrappers on a given heap *)

Section Exec.

Context {eng : Engine} {rt : Runtime}.

Local Abbreviation State := (lua_State eng rt).
Local Abbreviation M := (M eng rt).

Lemma lmdb_pusherror_failure (rc : Z) (st : State) :
  lmdb_pusherror rc st = Done (failure eng rc) st.
Proof. reflexivity. Qed.

Lemma bind_Done {A B} (m : M A) (k : A -> M B) (st st' : State) (a : A) :
  m st = Done a st' -> bind m k st = k a st'.
Proof. intros H. unfold bind. by rewrite H. Qed.

Lemma checkudata_self (st : State) (l : loc) (tname : string) (b : block) (rest : list lval) :
  holds st l tname b ->
  luaL_checkudata (LUserdata l :: rest) 1 tname st = Done l st.
Proof.
  intros H. unfold luaL_checkudata, check_udata, read_block, bind, arg. simpl.
  unfold holds in H. rewrite H. simpl. by rewrite decide_True.
Qed.

Lemma load_env_holds (st : State) l tname e : holds st l tname (BEnv e) -> load_env l st = Done e st.
Proof. intros H. unfold load_env, read_block, bind. unfold holds in H. by rewrite H. Qed.

Lemma load_txn_holds (st : State) l tname t : holds st l tname (BTxn t) -> load_txn l st = Done t st.
Proof. intros H. unfold load_txn, read_block, bind. unfold holds in H. by rewrite H. Qed.

Lemma load_dbi_holds (st : State) l tname d : holds st l tname (BDbi d) -> load_dbi l st = Done d st.
Proof. intros H. unfold load_dbi, read_block, bind. unfold holds in H. by rewrite H. Qed.

Lemma load_cursor_holds (st : State) l tname c :
  holds st l tname (BCursor c) -> load_cursor l st = Done c st.
Proof. intros H. unfold load_cursor, read_block, bind. unfold holds in H. by rewrite H. Qed.

Lemma call_native_run (c : call) (st : State) :
  call_native c st = Done (answer_of c st) (called c st).
Proof.
  unfold call_native, called, answer_of.
  destruct (native eng c (engine st)) as [es r]. reflexivity.
Qed.

Lemma heap_called c (st : State) : heap (called c st) = heap st.
Proof. reflexivity. Qed.

Lemma registry_called c (st : State) : registry (called c st) = registry st.
Proof. reflexivity. Qed.

Lemma trace_called c (st : State) :
  trace (called c st) = (trace st ++ [EvNative c (answer_of c st)])%list.
Proof. reflexivity. Qed.

Lemma holds_called c (st : State) l tname b : holds st l tname b -> holds (called c st) l tname b.
Proof. done. Qed.

End Exec.

(** Entering a method on its own handle: the check of argument 1 and the
    load of the struct succeed and leave the state alone; an engine call
    is answered by the engine. *)
Ltac enter H :=
  cbv beta iota;
  first
    [ rewrite (checkudata_self _ _ _ _ _ H)
    | rewrite (load_env_holds _ _ _ _ H)
    | rewrite (load_txn_holds _ _ _ _ H)
    | rewrite (load_dbi_holds _ _ _ _ H)
    | rewrite (load_cursor_holds _ _ _ _ H) ].

Ltac native_step := cbv beta iota; rewrite call_native_run.

(** ** What each data operation does on a handle, live or not *)

Section Runs.

Context {eng : Engine} {rt : Runtime}.

Local Abbreviation State := (lua_State eng rt).

Lemma by_status_nonzero rc ok : rc <> 0%Z -> by_status eng rc ok = failure eng rc.
Proof. intros H. unfold by_status, MDB_SUCCESS. by destruct (Z.eqb_spec rc 0). Qed.

Lemma by_status_zero ok : by_status eng 0 ok = ok.
Proof. reflexivity. Qed.

Ltac finish_by_status :=
  cbv beta iota zeta; unfold by_status, whole;
  try change (CInt.to_uint 0) with 0%Z;
  match goal with
  | |- context [(?rc =? MDB_SUCCESS)%Z] => destruct (rc =? MDB_SUCCESS)%Z
  end; reflexivity.

Lemma txn_id_run (st : State) l t :
  holds st l LUA_LMDB_TXN (BTxn t) ->
  let c := Mdb_txn_id (txn_txn t) in
  lmdb_txn_id [LUserdata l] st =
    Done [LInt (CInt.to_lua_Integer (out_int (answer_of c st)))] (called c st).
Proof.
  intros H. unfold lmdb_txn_id, bind. enter H. enter H. native_step. reflexivity.
Qed.

Lemma get_run (st : State) l d k :
  holds st l LUA_LMDB_DBI (BDbi d) ->
  let c := Mdb_get (dbi_txn d) (dbi_dbi d) (whole k) in
  let r := answer_of c st in
  lmdb_get [LUserdata l; LStr k] st =
    Done (by_status eng (status r) [LStr (val_bytes (out_val r))]) (called c st).
Proof.
  intros H. unfold lmdb_get, bind. enter H. enter H.
  unfold lmdb_checkvalue, luaL_checklstring, bind. simpl.
  native_step. finish_by_status.
Qed.

Lemma put_run (st : State) l d k v :
  holds st l LUA_LMDB_DBI (BDbi d) ->
  let c := Mdb_put (dbi_txn d) (dbi_dbi d) (whole k) (whole v) 0 in
  let r := answer_of c st in
  lmdb_put [LUserdata l; LStr k; LStr v] st =
    Done (by_status eng (status r) [LUserdata l]) (called c st).
Proof.
  intros H. unfold lmdb_put, bind. enter H. enter H.
  unfold lmdb_checkvalue, luaL_checklstring, bind. simpl.
  native_step. finish_by_status.
Qed.

Lemma del_run (st : State) l d k :
  holds st l LUA_LMDB_DBI (BDbi d) ->
  let c := Mdb_del (dbi_txn d) (dbi_dbi d) (whole k) in
  let r := answer_of c st in
  lmdb_del [LUserdata l; LStr k] st =
    Done (by_status eng (status r) [LUserdata l]) (called c st).
Proof.
  intros H. unfold lmdb_del, bind. enter H. enter H.
  unfold lmdb_checkvalue, luaL_checklstring, bind. simpl.
  native_step. finish_by_status.
Qed.

(** [cursor:get] with the positioning operator left out or given. *)
Lemma cursor_get_run (st : State) l cur (op : option Z) :
  holds st l LUA_LMDB_CURSOR (BCursor cur) ->
  let c := Mdb_cursor_get (cursor_cursor cur) (CInt.to_uint (default MDB_NEXT op)) in
  let r := answer_of c st in
  lmdb_cursor_get (LUserdata l :: match op with Some n => [LInt n] | None => [] end) st =
    Done (by_status eng (status r) [LStr (val_bytes (out_key r)); LStr (val_bytes (out_val r))])
         (called c st).
Proof.
  intros H. unfold lmdb_cursor_get, bind. enter H. enter H.
  destruct op as [n |]; simpl; native_step; finish_by_status.
Qed.

Lemma cursor_put_run (st : State) l cur k v :
  holds st l LUA_LMDB_CURSOR (BCursor cur) ->
  let c := Mdb_cursor_put (cursor_cursor cur) (whole k) (whole v) 0 in
  let r := answer_of c st in
  lmdb_cursor_put [LUserdata l; LStr k; LStr v] st =
    Done (by_status eng (status r) [LUserdata l]) (called c st).
Proof.
  intros H. unfold lmdb_cursor_put, bind. enter H. enter H.
  unfold lmdb_checkvalue, luaL_checklstring, bind. simpl.
  native_step. finish_by_status.
Qed.

Lemma cursor_del_run (st : State) l cur :
  holds st l LUA_LMDB_CURSOR (BCursor cur) ->
  let c := Mdb_cursor_del (cursor_cursor cur) 0 in
  let r := answer_of c st in
  lmdb_cursor_del [LUserdata l] st =
    Done (by_status eng (status r) [LUserdata l]) (called c st).
Proof.
  intros H. unfold lmdb_cursor_del, bind. enter H. enter H. simpl.
  native_step. finish_by_status.
Qed.

Lemma cursor_count_run (st : State) l cur :
  holds st l LUA_LMDB_CURSOR (BCursor cur) ->
  let c := Mdb_cursor_count (cursor_cursor cur) in
  let r := answer_of c st in
  lmdb_cursor_count [LUserdata l] st =
    Done (by_status eng (status r) [LInt (CInt.to_lua_Integer (out_int r))]) (called c st).
Proof.
  intros H. unfold lmdb_cursor_count, bind. enter H. enter H.
  native_step. finish_by_status.
Qed.

End Runs.

(** ** Operations on handles that are no longer live *)

Section DeadHandles.

Context {eng : Engine} {rt : Runtime}.

Local Abbreviation State := (lua_State eng rt).

(** C1. The claim asks every operation on a dead handle to return the
    failure result without calling the engine.  The wrappers of
    [txn:id], [dbi:get/put/del] and [cursor:get/put/del/count] have no
    such check: on a transaction whose pointer was cleared, on a table
    whose identifier was cleared and on a cursor whose pointer was
    cleared, each of them makes its engine call, with the null pointer
    (for a table: with the pointer [p] the table copied from its
    transaction when it was opened, and identifier 0), and returns
    whatever follows from the reply; [txn:id] returns one integer in all
    cases. *)
Theorem dead_handles_reach_engine (st : State) lt ld lc ref p dref cref k v :
  holds st lt LUA_LMDB_TXN (BTxn {| txn_txn := NULL; txn_env_ref := ref |}) ->
  holds st ld LUA_LMDB_DBI (BDbi {| dbi_dbi := 0; dbi_txn := p; dbi_txn_ref := dref |}) ->
  holds st lc LUA_LMDB_CURSOR (BCursor {| cursor_cursor := NULL; cursor_dbi_ref := cref |}) ->
  (let c := Mdb_txn_id NULL in
   lmdb_txn_id [LUserdata lt] st =
     Done [LInt (CInt.to_lua_Integer (out_int (answer_of c st)))] (called c st))
  /\ (let c := Mdb_get p 0 (whole k) in
      lmdb_get [LUserdata ld; LStr k] st =
        Done (by_status eng (status (answer_of c st))
                [LStr (val_bytes (out_val (answer_of c st)))]) (called c st))
  /\ (let c := Mdb_put p 0 (whole k) (whole v) 0 in
      lmdb_put [LUserdata ld; LStr k; LStr v] st =
        Done (by_status eng (status (answer_of c st)) [LUserdata ld]) (called c st))
  /\ (let c := Mdb_del p 0 (whole k) in
      lmdb_del [LUserdata ld; LStr k] st =
        Done (by_status eng (status (answer_of c st)) [LUserdata ld]) (called c st))
  /\ (let c := Mdb_cursor_get NULL MDB_NEXT in
      lmdb_cursor_get [LUserdata lc] st =
        Done (by_status eng (status (answer_of c st))
                [LStr (val_bytes (out_key (answer_of c st)));
                 LStr (val_bytes (out_val (answer_of c st)))]) (called c st))
  /\ (let c := Mdb_cursor_put NULL (whole k) (whole v) 0 in
      lmdb_cursor_put [LUserdata lc; LStr k; LStr v] st =
        Done (by_status eng (status (answer_of c st)) [LUserdata lc]) (called c st))
  /\ (let c := Mdb_cursor_del NULL 0 in
      lmdb_cursor_del [LUserdata lc] st =
        Done (by_status eng (status (answer_of c st)) [LUserdata lc]) (called c st))
  /\ (let c := Mdb_cursor_count NULL in
      lmdb_cursor_count [LUserdata lc] st =
        Done (by_status eng (status (answer_of c st))
                [LInt (CInt.to_lua_Integer (out_int (answer_of c st)))]) (called c st)).
Proof.
  intros Ht Hd Hc.
  split; [exact (txn_id_run st lt _ Ht) |].
  split; [exact (get_run st ld _ k Hd) |].
  split; [exact (put_run st ld _ k v Hd) |].
  split; [exact (del_run st ld _ k Hd) |].
  split; [exact (cursor_get_run st lc _ None Hc) |].
  split; [exact (cursor_put_run st lc _ k v Hc) |].
  split; [exact (cursor_del_run st lc _ Hc) |].
  exact (cursor_count_run st lc _ Hc).
Qed.

End DeadHandles.

(** After [cur:close(); dbi:close(); txn:commit()] on the reference engine
    the three handles are in the state the theorem speaks of; the table
    still holds the pointer of the committed transaction. *)
Lemma dead_handles_reach_engine_witness :
  holds Sample.txn_closed 1%nat LUA_LMDB_TXN (BTxn {| txn_txn := NULL; txn_env_ref := LUA_NOREF |})
  /\ lmdb_txn_id [Sample.txn] Sample.txn_closed =
       Done [LInt 0] (called (Mdb_txn_id NULL) Sample.txn_closed)
  /\ lmdb_get [Sample.dbi; LStr "k"] Sample.txn_closed =
       Done (failure Ref.lmdb EINVAL)
            (called (Mdb_get (Native 2) 0 (whole "k")) Sample.txn_closed).
Proof.
  pose proof (dead_handles_reach_engine Sample.txn_closed 1%nat 2%nat 3%nat LUA_NOREF (Native 2)
                LUA_NOREF LUA_NOREF "k" "v" eq_refl eq_refl eq_refl) as (H1 & H2 & _).
  split; [reflexivity |]. split; [exact H1 | exact H2].
Defined.

(** ** Status codes and results *)

Section Status.

Context {eng : Engine} {rt : Runtime}.

Local Abbreviation State := (lua_State eng rt).

Lemma copy_run (st : State) l e path :
  holds st l LUA_LMDB_ENV (BEnv e) ->
  lmdb_copy [LUserdata l; LStr path] st =
    if is_null (env_env e) then Done (failure eng EINVAL) st
    else Done [LUserdata l] (called (Mdb_env_copy (env_env e) (c_str path)) st).
Proof.
  intros H. unfold lmdb_copy, bind. enter H. enter H.
  unfold luaL_checkstring, luaL_checklstring, bind. simpl.
  destruct (is_null (env_env e)); [reflexivity |]. native_step. reflexivity.
Qed.

Lemma sync_run (st : State) l e (force : list lval) :
  holds st l LUA_LMDB_ENV (BEnv e) ->
  lmdb_sync (LUserdata l :: force) st =
    if is_null (env_env e) then Done (failure eng EINVAL) st
    else Done [LUserdata l]
           (called (Mdb_env_sync (env_env e) (lua_toboolean (LUserdata l :: force) 2)) st).
Proof.
  intros H. unfold lmdb_sync, bind. enter H. enter H.
  destruct (is_null (env_env e)); [reflexivity |]. native_step. reflexivity.
Qed.

(** On a closed environment [lmdb_copy] and [lmdb_sync] do test the
    pointer: they return the failure result for [EINVAL] and leave the
    engine alone. *)
Lemma copy_sync_on_closed_env (st : State) l e path force :
  holds st l LUA_LMDB_ENV (BEnv e) ->
  is_null (env_env e) = true ->
  lmdb_copy [LUserdata l; LStr path] st = Done (failure eng EINVAL) st
  /\ lmdb_sync (LUserdata l :: force) st = Done (failure eng EINVAL) st.
Proof.
  intros H Hn. rewrite (copy_run st l e path H), (sync_run st l e force H), Hn. by split.
Qed.

(** C7. The claim wants every non-zero status an operation receives
    turned into the failure result.  [lmdb_copy] stores the status of
    [mdb_env_copy] and never looks at it: on a live environment it returns
    the environment handle whatever the status, a failed copy included. *)
Theorem copy_ignores_status (st : State) l e path :
  holds st l LUA_LMDB_ENV (BEnv e) ->
  is_null (env_env e) = false ->
  let c := Mdb_env_copy (env_env e) (c_str path) in
  status (answer_of c st) <> 0%Z ->
  lmdb_copy [LUserdata l; LStr path] st = Done [LUserdata l] (called c st).
Proof.
  intros H Hlive c _. rewrite (copy_run st l e path H), Hlive. reflexivity.
Qed.

(** [lmdb_sync] does the same with the status of [mdb_env_sync]. *)
Lemma sync_ignores_status (st : State) l e force :
  holds st l LUA_LMDB_ENV (BEnv e) ->
  is_null (env_env e) = false ->
  let c := Mdb_env_sync (env_env e) (lua_toboolean (LUserdata l :: force) 2) in
  status (answer_of c st) <> 0%Z ->
  lmdb_sync (LUserdata l :: force) st = Done [LUserdata l] (called c st).
Proof.
  intros H Hlive c _. rewrite (sync_run st l e force H), Hlive. reflexivity.
Qed.

(** C3, as amended.  [lmdb_get] treats every non-zero status alike,
    [MDB_NOTFOUND] included: the result is the failure result for that
    status. *)
Theorem get_failure_for_every_status (st : State) l d k :
  holds st l LUA_LMDB_DBI (BDbi d) ->
  let c := Mdb_get (dbi_txn d) (dbi_dbi d) (whole k) in
  status (answer_of c st) <> 0%Z ->
  lmdb_get [LUserdata l; LStr k] st = Done (failure eng (status (answer_of c st))) (called c st).
Proof.
  intros H c Hrc. unfold c in *. rewrite (get_run st l d k H).
  cbv zeta. by rewrite by_status_nonzero.
Qed.

(** C10. [cursor:get()] and [cursor:get(MDB_NEXT)] are the same
    computation, and on a cursor the engine is asked for [MDB_NEXT]. *)
Theorem cursor_get_defaults_to_next (st : State) l cur :
  holds st l LUA_LMDB_CURSOR (BCursor cur) ->
  lmdb_cursor_get [LUserdata l] st = lmdb_cursor_get [LUserdata l; LInt MDB_NEXT] st
  /\ (let c := Mdb_cursor_get (cursor_cursor cur) MDB_NEXT in
      let r := answer_of c st in
      lmdb_cursor_get [LUserdata l] st =
        Done (by_status eng (status r)
                [LStr (val_bytes (out_key r)); LStr (val_bytes (out_val r))])
             (called c st)).
Proof.
  intros H. split.
  - rewrite (cursor_get_run st l cur None H), (cursor_get_run st l cur (Some MDB_NEXT) H).
    reflexivity.
  - exact (cursor_get_run st l cur None H).
Qed.

(** The same holds with an explicit [nil], and it does not depend on the
    first argument being a cursor. *)
Lemma cursor_get_nil_is_next (st : State) (self : lval) :
  lmdb_cursor_get [self] st = lmdb_cursor_get [self; LInt MDB_NEXT] st
  /\ lmdb_cursor_get [self; LNil] st = lmdb_cursor_get [self; LInt MDB_NEXT] st.
Proof. split; reflexivity. Qed.

(** C8, as amended.  On a table that holds one value per key,
    [dbi:put(key, value)] that succeeds followed by [dbi:get(key)] in the
    same transaction returns exactly the bytes of [value].  Key and value
    reach the engine with their full length, zero bytes included; [get]
    asks for the same key and pushes the bytes the engine hands back with
    the length the engine reports. *)
Theorem put_get_roundtrip (st st1 : State) l d k v :
  holds st l LUA_LMDB_DBI (BDbi d) ->
  one_value_per_key eng (engine st) (dbi_txn d) (dbi_dbi d) ->
  lmdb_put [LUserdata l; LStr k; LStr v] st = Done [LUserdata l] st1 ->
  let cput := Mdb_put (dbi_txn d) (dbi_dbi d) (whole k) (whole v) 0 in
  let cget := Mdb_get (dbi_txn d) (dbi_dbi d) (whole k) in
  st1 = called cput st
  /\ val_bytes (whole k) = k /\ val_bytes (whole v) = v
  /\ lmdb_get [LUserdata l; LStr k] st1 = Done [LStr v] (called cget st1).
Proof.
  intros H Hlaw Hput cput cget.
  rewrite (put_run st l d k v H) in Hput. cbv zeta in Hput.
  injection Hput as Hres Hst. subst st1. fold cput in Hres |- *.
  assert (Hrc : status (answer_of cput st) = 0%Z).
  { unfold by_status, MDB_SUCCESS in Hres.
    destruct (Z.eqb_spec (status (answer_of cput st)) 0); [done | discriminate Hres]. }
  destruct (Hlaw (whole k) (whole v) Hrc) as [Hget Hbytes].
  split; [reflexivity |]. split; [apply val_bytes_whole |]. split; [apply val_bytes_whole |].
  rewrite (get_run (called cput st) l d k (holds_called cput st l _ _ H)).
  cbv zeta. fold cget. unfold answer_of at 1 2. simpl engine.
  fold cput in Hget, Hbytes |- *. unfold cget. rewrite Hget, Hbytes. rewrite by_status_zero.
  unfold whole. rewrite val_bytes_whole. reflexivity.
Qed.

End Status.

(** ** The statements on the reference engine *)

Lemma lookup_insert_key (k v : string) (kvs : list (string * string)) :
  Ref.lookup_key k (Ref.insert_key k v kvs) = Some v.
Proof.
  induction kvs as [| [k' v'] rest IH]; simpl.
  - by rewrite String.eqb_refl.
  - destruct (String.eqb k' k) eqn:E; simpl.
    + by rewrite String.eqb_refl.
    + by rewrite E.
Qed.

(** Every table of the reference engine holds one value per key. *)
Lemma ref_one_value_per_key (es : Ref.ref_state) (t : ptr) (d : Z) :
  one_value_per_key Ref.lmdb es t d.
Proof.
  intros key data. simpl.
  destruct (Ref.known (Ref.txns es) t) eqn:Hk; simpl; [| discriminate].
  intros _. rewrite Hk. rewrite lookup_insert_key. simpl.
  split; [reflexivity |]. apply take_bytes_length.
Qed.

(** Copying to the empty path fails with [ENOENT]; [env:copy("")] returns
    the environment all the same. *)
Lemma copy_ignores_status_witness :
  status (answer_of (Mdb_env_copy (Native 1) "") Sample.opened) = Ref.ENOENT
  /\ lmdb_copy [Sample.env; LStr ""] Sample.opened =
       Done [Sample.env] (called (Mdb_env_copy (Native 1) "") Sample.opened).
Proof.
  split; [reflexivity |].
  apply (copy_ignores_status Sample.opened 0%nat {| env_env := Native 1 |} "");
    [reflexivity | reflexivity | vm_compute; discriminate].
Defined.

(** C3, as stated, fails: the key ["missing"] is not in the table, the
    engine answers [MDB_NOTFOUND], and [dbi:get("missing")] returns the
    failure result of three values, not a single not-found value. *)
Lemma get_missing_key_returns_failure :
  status (answer_of (Mdb_get (Native 2) 1 (whole "missing")) Sample.with_dbi) = MDB_NOTFOUND
  /\ returned (lmdb_get [Sample.dbi; LStr "missing"] Sample.with_dbi) =
       Some [LNil; LStr "MDB_NOTFOUND: No matching key/data pair found"; LInt (-30798)].
Proof. split; reflexivity. Qed.

Lemma get_failure_for_every_status_witness :
  holds Sample.with_dbi 2%nat LUA_LMDB_DBI
    (BDbi {| dbi_dbi := 1; dbi_txn := Native 2; dbi_txn_ref := 2 |})
  /\ lmdb_get [Sample.dbi; LStr "missing"] Sample.with_dbi =
       Done (failure Ref.lmdb MDB_NOTFOUND)
            (called (Mdb_get (Native 2) 1 (whole "missing")) Sample.with_dbi).
Proof.
  split; [reflexivity |].
  apply (get_failure_for_every_status Sample.with_dbi 2%nat
           {| dbi_dbi := 1; dbi_txn := Native 2; dbi_txn_ref := 2 |} "missing");
    [reflexivity | vm_compute; discriminate].
Defined.

Lemma cursor_get_defaults_to_next_witness :
  holds Sample.with_cursor 3%nat LUA_LMDB_CURSOR
    (BCursor {| cursor_cursor := Native 3; cursor_dbi_ref := 3 |})
  /\ lmdb_cursor_get [Sample.cur] Sample.with_cursor =
       lmdb_cursor_get [Sample.cur; LInt MDB_NEXT] Sample.with_cursor.
Proof.
  split; [reflexivity |].
  apply (cursor_get_defaults_to_next Sample.with_cursor 3%nat
           {| cursor_cursor := Native 3; cursor_dbi_ref := 3 |}).
  reflexivity.
Defined.

(** A key and a value with zero bytes inside, on the one table of the
    reference engine. *)
Lemma put_get_roundtrip_witness :
  let cput := Mdb_put (Native 2) 1 (whole Sample.key0) (whole Sample.value0) 0 in
  let cget := Mdb_get (Native 2) 1 (whole Sample.key0) in
  lmdb_put [Sample.dbi; LStr Sample.key0; LStr Sample.value0] Sample.with_dbi =
    Done [Sample.dbi] (called cput Sample.with_dbi)
  /\ lmdb_get [Sample.dbi; LStr Sample.key0] (called cput Sample.with_dbi) =
       Done [LStr Sample.value0] (called cget (called cput Sample.with_dbi)).
Proof.
  intros cput cget.
  assert (Hput : lmdb_put [Sample.dbi; LStr Sample.key0; LStr Sample.value0] Sample.with_dbi =
                   Done [Sample.dbi] (called cput Sample.with_dbi)) by reflexivity.
  split; [exact Hput |].
  pose proof (put_get_roundtrip Sample.with_dbi (called cput Sample.with_dbi) 2%nat
                {| dbi_dbi := 1; dbi_txn := Native 2; dbi_txn_ref := 2 |}
                Sample.key0 Sample.value0 eq_refl
                (ref_one_value_per_key _ _ _) Hput) as W.
  cbv zeta in W. exact (proj2 (proj2 (proj2 W))).
Defined.

(** C8, as stated, fails on a table opened for duplicate keys: in one
    transaction [dbi:put("k", "a")] and [dbi:put("k", "b")] both succeed,
    and [dbi:get("k")] then returns ["a"], the first of the two values
    under the key, not the value just put. *)
Lemma put_then_get_on_duplicate_table :
  holds Dup.with_dbi 2%nat LUA_LMDB_DBI
    (BDbi {| dbi_dbi := 2; dbi_txn := Native 2; dbi_txn_ref := 2 |})
  /\ returned (lmdb_put [Sample.dbi; LStr "k"; LStr "a"] Dup.with_dbi) = Some [Sample.dbi]
  /\ returned (lmdb_put [Sample.dbi; LStr "k"; LStr "b"] Dup.after_a) = Some [Sample.dbi]
  /\ returned (lmdb_get [Sample.dbi; LStr "k"] Dup.after_b) = Some [LStr "a"].
Proof. repeat split; reflexivity. Qed.

(** That table does not hold one value per key. *)
Lemma duplicate_table_is_not_single_valued :
  ~ one_value_per_key Dup.lmdb (engine Dup.after_a) (Native 2) 2.
Proof.
  intros Hlaw.
  assert (Hput : status (native Dup.lmdb (Mdb_put (Native 2) 2 (whole "k") (whole "b") 0)
                           (engine Dup.after_a)).2 = 0%Z) by reflexivity.
  destruct (Hlaw (whole "k") (whole "b") Hput) as [_ Hbytes].
  assert (Hget : val_bytes (out_val (native Dup.lmdb (Mdb_get (Native 2) 2 (whole "k"))
                   (native Dup.lmdb (Mdb_put (Native 2) 2 (whole "k") (whole "b") 0)
                      (engine Dup.after_a)).1).2) = "a") by reflexivity.
  rewrite Hget in Hbytes. discriminate Hbytes.
Qed.

(** Two entries, then three argument-free [cur:get()] calls: the first
    entry, the second, and [MDB_NOTFOUND]. *)
Example argument_free_get_iterates :
  let st0 := final_state (lmdb_put [Sample.dbi; LStr "a"; LStr "1"] Sample.with_cursor) in
  let st1 := final_state (lmdb_put [Sample.dbi; LStr "b"; LStr "2"] st0) in
  let r1 := lmdb_cursor_get [Sample.cur] st1 in
  let r2 := lmdb_cursor_get [Sample.cur] (final_state r1) in
  let r3 := lmdb_cursor_get [Sample.cur] (final_state r2) in
  returned r1 = Some [LStr "a"; LStr "1"]
  /\ returned r2 = Some [LStr "b"; LStr "2"]
  /\ returned r3 = Some (failure Ref.lmdb MDB_NOTFOUND).
Proof. repeat split; reflexivity. Qed.

(** ** Inversion of the argument checks *)

Section Inversion.

Context {eng : Engine} {rt : Runtime}.

Local Abbreviation State := (lua_State eng rt).
Local Abbreviation M := (M eng rt).

Lemma bind_inv {A B} (m : M A) (k : A -> M B) (st st' : State) (b : B) :
  bind m k st = Done b st' ->
  exists a st1, m st = Done a st1 /\ k a st1 = Done b st'.
Proof.
  unfold bind. destruct (m st) as [a st1 | |] eqn:E; [| discriminate ..].
  intros H. by exists a, st1.
Qed.

Lemma check_udata_inv (v : option lval) i tname (st st' : State) l :
  check_udata v i tname st = Done l st' ->
  st' = st /\ v = Some (LUserdata l) /\ exists b, holds st l tname b.
Proof.
  unfold check_udata, bad_argument, raise.
  destruct v as [[| | | | | l' |] |]; try discriminate.
  unfold bind, read_block. destruct (heap st !! l') as [[m b] |] eqn:E; [| discriminate].
  simpl. destruct (decide (m = Some tname)) as [-> |]; [| discriminate].
  unfold ret. intros [= <- <-]. repeat split. by exists b.
Qed.

Lemma checkudata_inv args i tname (st st' : State) l :
  luaL_checkudata args i tname st = Done l st' ->
  st' = st /\ arg args i = Some (LUserdata l) /\ exists b, holds st l tname b.
Proof. apply check_udata_inv. Qed.

Lemma load_env_inv l (st st' : State) e tname b :
  holds st l tname b -> load_env l st = Done e st' -> st' = st /\ b = BEnv e.
Proof.
  unfold holds, load_env, bind, read_block. intros ->. simpl.
  destruct b; try discriminate. unfold ret. by intros [= <- <-].
Qed.

Lemma load_txn_inv l (st st' : State) t tname b :
  holds st l tname b -> load_txn l st = Done t st' -> st' = st /\ b = BTxn t.
Proof.
  unfold holds, load_txn, bind, read_block. intros ->. simpl.
  destruct b; try discriminate. unfold ret. by intros [= <- <-].
Qed.

Lemma load_dbi_inv l (st st' : State) d tname b :
  holds st l tname b -> load_dbi l st = Done d st' -> st' = st /\ b = BDbi d.
Proof.
  unfold holds, load_dbi, bind, read_block. intros ->. simpl.
  destruct b; try discriminate. unfold ret. by intros [= <- <-].
Qed.

Lemma check_integer_inv v i (st st' : State) n :
  check_integer v i st = Done n st' -> st' = st.
Proof.
  unfold check_integer, bad_argument, raise, ret.
  destruct v as [[| | | s | | |] |]; try discriminate.
  - by intros [= _ <-].
  - destruct (str2int rt s); [| discriminate]. by intros [= _ <-].
Qed.

Lemma opt_integer_inv v i def (st st' : State) n :
  opt_integer v i def st = Done n st' -> st' = st.
Proof.
  unfold opt_integer.
  destruct v as [[| | | | | |] |];
    first [ by intros [= _ <-] | apply check_integer_inv ].
Qed.

Lemma checklstring_inv args i (st st' : State) s :
  luaL_checklstring args i st = Done s st' -> st' = st.
Proof.
  unfold luaL_checklstring, bad_argument, raise, ret.
  destruct (arg args i) as [[| | | | | |] |]; try discriminate; by intros [= _ <-].
Qed.

Lemma optstring_inv args i (st st' : State) s :
  luaL_optstring args i st = Done s st' -> st' = st.
Proof.
  unfold luaL_optstring, luaL_checkstring.
  destruct (lua_isnoneornil args i); [by intros [= _ <-] |].
  intros H. apply bind_inv in H as (a & st1 & H1 & H2).
  apply bind_inv in H1 as (a' & st2 & H1 & H3).
  apply checklstring_inv in H1 as ->. injection H3 as _ <-. by injection H2 as _ <-.
Qed.

(** The heap right after [lua_newuserdata]. *)
Lemma lookup_new_block (h : list udata) (u : udata) :
  ((h ++ [u])%list) !! length h = Some u.
Proof. by apply list_lookup_middle. Qed.

Lemma insert_new_block (h : list udata) (u u' : udata) :
  <[length h := u']> ((h ++ [u])%list) = (h ++ [u'])%list.
Proof.
  induction h as [| x h IH]; simpl; [done | by rewrite IH].
Qed.

End Inversion.

(** ** Construction of handles *)

Section Construction.

Context {eng : Engine} {rt : Runtime}.

Local Abbreviation State := (lua_State eng rt).

Lemma txn_begin_inv (st st' : State) args res :
  lmdb_txn_begin args st = Done res st' ->
  exists le e parent flags,
    arg args 1 = Some (LUserdata le) /\ holds st le LUA_LMDB_ENV (BEnv e) /\
    let c := Mdb_txn_begin (env_env e) parent flags in
    let r := answer_of c st in
    if (status r =? 0)%Z
    then res = [LUserdata (length (heap st))] /\
         st' = built st c {| meta := Some LUA_LMDB_TXN;
                             body := BTxn {| txn_txn := out_ptr r;
                                             txn_env_ref := fresh_ref (registry st) |} |}
                     (Some (LUserdata le))
    else res = failure eng (status r) /\
         st' = built st c {| meta := None;
                             body := BTxn {| txn_txn := out_ptr r;
                                             txn_env_ref := junk_int rt |} |} None.
Proof.
  unfold lmdb_txn_begin. intros H.
  apply bind_inv in H as (le & s1 & H1 & H).
  apply checkudata_inv in H1 as (-> & Harg & b & Hb).
  apply bind_inv in H as (e & s1 & H1 & H).
  apply (load_env_inv _ _ _ _ _ _ Hb) in H1 as [-> ->].
  apply bind_inv in H as (parent & s1 & H1 & H).
  assert (s1 = st) as ->.
  { destruct (lua_isuserdata args 2); [| by injection H1 as _ <-].
    apply bind_inv in H1 as (lp & s2 & H1 & H2).
    apply checkudata_inv in H1 as (-> & _). by injection H2 as _ <-. }
  apply bind_inv in H as (n & s1 & H2 & H).
  assert (s1 = st) as ->.
  { destruct (is_null parent); by apply opt_integer_inv in H2. }
  exists le, e, parent, (CInt.to_uint n). split; [done |]. split; [done |].
  cbv zeta. revert H. unfold bind, lua_newuserdata. rewrite call_native_run.
  unfold write_body, lua_setmetatable, luaL_ref, lmdb_pusherror, ret, called, answer_of, MDB_SUCCESS.
  unfold lua_pushvalue. rewrite Harg. simpl.
  repeat (first [rewrite insert_new_block | rewrite lookup_new_block]; simpl).
  destruct (status _ =? 0)%Z eqn:Hrc; simpl.
  - repeat (first [rewrite insert_new_block | rewrite lookup_new_block]; simpl).
    intros [= <- <-]. split; reflexivity.
  - intros [= <- <-]. split; reflexivity.
Qed.

Lemma dbi_open_inv (st st' : State) args res :
  lmdb_dbi_open args st = Done res st' ->
  exists lt t name flags,
    arg args 1 = Some (LUserdata lt) /\ holds st lt LUA_LMDB_TXN (BTxn t) /\
    let c := Mdb_dbi_open (txn_txn t) name flags in
    let r := answer_of c st in
    if (status r =? 0)%Z
    then res = [LUserdata (length (heap st))] /\
         st' = built st c {| meta := Some LUA_LMDB_DBI;
                             body := BDbi {| dbi_dbi := out_int r; dbi_txn := txn_txn t;
                                             dbi_txn_ref := fresh_ref (registry st) |} |}
                     (Some (LUserdata lt))
    else res = failure eng (status r) /\
         st' = built st c {| meta := None;
                             body := BDbi {| dbi_dbi := out_int r; dbi_txn := junk_ptr rt;
                                             dbi_txn_ref := junk_int rt |} |} None.
Proof.
  unfold lmdb_dbi_open. intros H.
  apply bind_inv in H as (lt & s1 & H1 & H).
  apply checkudata_inv in H1 as (-> & Harg & b & Hb).
  apply bind_inv in H as (t & s1 & H1 & H).
  apply (load_txn_inv _ _ _ _ _ _ Hb) in H1 as [-> ->].
  apply bind_inv in H as (name & s1 & H1 & H).
  apply optstring_inv in H1 as ->.
  apply bind_inv in H as (n & s1 & H1 & H).
  apply opt_integer_inv in H1 as ->.
  exists lt, t, name, (CInt.to_uint n). split; [done |]. split; [done |].
  cbv zeta. revert H. unfold bind, lua_newuserdata. rewrite call_native_run.
  unfold write_body, lua_setmetatable, luaL_ref, lmdb_pusherror, ret, called, answer_of, MDB_SUCCESS.
  unfold lua_pushvalue. rewrite Harg. simpl.
  repeat (first [rewrite insert_new_block | rewrite lookup_new_block]; simpl).
  destruct (status _ =? 0)%Z eqn:Hrc; simpl.
  - repeat (first [rewrite insert_new_block | rewrite lookup_new_block]; simpl).
    intros [= <- <-]. split; reflexivity.
  - intros [= <- <-]. split; reflexivity.
Qed.

Lemma cursor_open_inv (st st' : State) args res :
  lmdb_cursor_open args st = Done res st' ->
  exists ld d,
    arg args 1 = Some (LUserdata ld) /\ holds st ld LUA_LMDB_DBI (BDbi d) /\
    let c := Mdb_cursor_open (dbi_txn d) (dbi_dbi d) in
    let r := answer_of c st in
    if (status r =? 0)%Z
    then res = [LUserdata (length (heap st))] /\
         st' = built st c {| meta := Some LUA_LMDB_CURSOR;
                             body := BCursor {| cursor_cursor := out_ptr r;
                                                cursor_dbi_ref := fresh_ref (registry st) |} |}
                     (Some (LUserdata ld))
    else res = failure eng (status r) /\
         st' = built st c {| meta := None;
                             body := BCursor {| cursor_cursor := out_ptr r;
                                                cursor_dbi_ref := junk_int rt |} |} None.
Proof.
  unfold lmdb_cursor_open. intros H.
  apply bind_inv in H as (ld & s1 & H1 & H).
  apply checkudata_inv in H1 as (-> & Harg & b & Hb).
  apply bind_inv in H as (d & s1 & H1 & H).
  apply (load_dbi_inv _ _ _ _ _ _ Hb) in H1 as [-> ->].
  exists ld, d. split; [done |]. split; [done |].
  cbv zeta. revert H. unfold bind, lua_newuserdata. rewrite call_native_run.
  unfold write_body, lua_setmetatable, luaL_ref, lmdb_pusherror, ret, called, answer_of, MDB_SUCCESS.
  unfold lua_pushvalue. rewrite Harg. simpl.
  repeat (first [rewrite insert_new_block | rewrite lookup_new_block]; simpl).
  destruct (status _ =? 0)%Z eqn:Hrc; simpl.
  - repeat (first [rewrite insert_new_block | rewrite lookup_new_block]; simpl).
    intros [= <- <-]. split; reflexivity.
  - intros [= <- <-]. split; reflexivity.
Qed.

(** What [built] amounts to in the vocabulary of [constructed]. *)
Lemma built_constructed (tname : string) (args : list lval) (st : State) (c : call)
    (b b' : block) (parent : loc) (res : list lval) (st' : State) :
  opens tname c ->
  arg args 1 = Some (LUserdata parent) ->
  (if (status (answer_of c st) =? 0)%Z
   then res = [LUserdata (length (heap st))] /\
        st' = built st c {| meta := Some tname; body := b |} (Some (LUserdata parent))
   else res = failure eng (status (answer_of c st)) /\
        st' = built st c {| meta := None; body := b' |} None) ->
  constructed tname args st st' res.
Proof.
  intros Hc Harg H. exists c.
  destruct (Z.eqb_spec (status (answer_of c st)) 0) as [Hrc | Hrc]; destruct H as [-> ->].
  - eexists. split; [done |]. split; [reflexivity |]. left.
    split; [done |]. split; [done |]. split; [done |].
    exists (fresh_ref (registry st)). split; [apply fresh_ref_unused |].
    unfold lua_pushvalue. rewrite Harg. split; [reflexivity |].
    simpl. by rewrite <- app_assoc.
  - eexists. split; [done |]. split; [reflexivity |]. right.
    by repeat split.
Qed.

(** C5. Whenever [env:txn_begin], [txn:dbi_open] or [dbi:cursor_open]
    returns, it has allocated one block and made one engine call of the
    opening kind.  If that call returned a non-zero status, the registry is
    unchanged, no reference was taken and the new block has no metatable;
    the metatable of the class and the anchor of the parent are there
    exactly when the status was zero. *)
Theorem failed_open_leaves_no_anchor (sa sa' sb sb' sc sc' : State) aa ab ac ra rb rc :
  lmdb_txn_begin aa sa = Done ra sa' ->
  lmdb_dbi_open ab sb = Done rb sb' ->
  lmdb_cursor_open ac sc = Done rc sc' ->
  constructed LUA_LMDB_TXN aa sa sa' ra
  /\ constructed LUA_LMDB_DBI ab sb sb' rb
  /\ constructed LUA_LMDB_CURSOR ac sc sc' rc.
Proof.
  intros Ha Hb Hc.
  apply txn_begin_inv in Ha as (le & e & parent & flags & Harg & _ & Ha).
  apply dbi_open_inv in Hb as (lt & t & name & dflags & Harg' & _ & Hb).
  apply cursor_open_inv in Hc as (ld & d & Harg'' & _ & Hc).
  split; [| split].
  - eapply built_constructed; [| exact Harg | exact Ha]. reflexivity.
  - eapply built_constructed; [| exact Harg' | exact Hb]. reflexivity.
  - eapply built_constructed; [| exact Harg'' | exact Hc]. reflexivity.
Qed.

End Construction.

(** ** Teardown *)

Section Teardown.

Context {eng : Engine} {rt : Runtime}.

Local Abbreviation State := (lua_State eng rt).

Lemma is_null_true (p : ptr) : is_null p = true -> p = NULL.
Proof. by destruct p. Qed.

Lemma txn_close_dead (st : State) l t :
  holds st l LUA_LMDB_TXN (BTxn t) -> is_null (txn_txn t) = true ->
  lmdb_txn_close l st = Done tt st.
Proof.
  intros H Hn. unfold lmdb_txn_close, bind. enter H. by rewrite Hn.
Qed.

Lemma txn_commit_dead (st : State) l t :
  holds st l LUA_LMDB_TXN (BTxn t) -> is_null (txn_txn t) = true ->
  let c := Mdb_txn_commit NULL in
  lmdb_txn_commit [LUserdata l] st =
    Done (by_status eng (status (answer_of c st)) [LBool true]) (called c st).
Proof.
  intros H Hn. unfold lmdb_txn_commit, bind. enter H. enter H.
  rewrite (is_null_true _ Hn). native_step.
  cbv beta iota zeta. unfold by_status.
  destruct (status _ =? MDB_SUCCESS)%Z; [| reflexivity].
  by rewrite (txn_close_dead _ l t (holds_called _ st l _ _ H) Hn).
Qed.

Lemma txn_abort_dead (st : State) l t :
  holds st l LUA_LMDB_TXN (BTxn t) -> is_null (txn_txn t) = true ->
  lmdb_txn_abort [LUserdata l] st = Done [] (called (Mdb_txn_abort NULL) st).
Proof.
  intros H Hn. unfold lmdb_txn_abort, bind. enter H. enter H.
  rewrite (is_null_true _ Hn). native_step.
  by rewrite (txn_close_dead _ l t (holds_called _ st l _ _ H) Hn).
Qed.

Lemma txn_reset_run (st : State) l t :
  holds st l LUA_LMDB_TXN (BTxn t) ->
  lmdb_txn_reset [LUserdata l] st =
    Done [LUserdata l] (called (Mdb_txn_reset (txn_txn t)) st).
Proof.
  intros H. unfold lmdb_txn_reset, bind. enter H. enter H. native_step. reflexivity.
Qed.

Lemma close_dead (st : State) l e :
  holds st l LUA_LMDB_ENV (BEnv e) -> is_null (env_env e) = true ->
  lmdb_close [LUserdata l] st = Done [] st.
Proof.
  intros H Hn. unfold lmdb_close, bind. enter H. enter H. by rewrite Hn.
Qed.

Lemma dbi_close_dead (st : State) l d :
  holds st l LUA_LMDB_DBI (BDbi d) -> (dbi_dbi d =? 0)%Z = true ->
  lmdb_dbi_close [LUserdata l] st = Done [] st.
Proof.
  intros H Hn. unfold lmdb_dbi_close, bind. enter H. enter H. by rewrite Hn.
Qed.

Lemma cursor_close_dead (st : State) l c :
  holds st l LUA_LMDB_CURSOR (BCursor c) -> is_null (cursor_cursor c) = true ->
  lmdb_cursor_close [LUserdata l] st = Done [] st.
Proof.
  intros H Hn. unfold lmdb_cursor_close, bind. enter H. enter H. by rewrite Hn.
Qed.

(** C4, as amended.  Teardown of a handle that is already closed returns
    nothing and raises nothing.  For an environment, a table and a cursor
    the state is untouched: no engine call, no reference dropped.  For a
    transaction, [abort] still calls [mdb_txn_abort], with the null
    pointer the handle now holds; apart from that call the heap and the
    registry are as before and no reference is dropped. *)
Theorem teardown_of_closed_handle (st : State) l b :
  holds st l (class_of b) b ->
  closed b = true ->
  teardown b [LUserdata l] st =
    Done [] (match b with
             | BTxn _ => called (Mdb_txn_abort NULL) st
             | _ => st
             end).
Proof.
  intros H Hc. destruct b as [e | t | d | c]; simpl in *.
  - by apply (close_dead st l e).
  - by apply (txn_abort_dead st l t).
  - by apply (dbi_close_dead st l d).
  - by apply (cursor_close_dead st l c).
Qed.

Lemma txn_close_live (st : State) l p ref :
  holds st l LUA_LMDB_TXN (BTxn {| txn_txn := p; txn_env_ref := ref |}) ->
  is_null p = false -> (0 <= ref)%Z ->
  lmdb_txn_close l st = Done tt (released l ref st).
Proof.
  intros H Hn Href. unfold lmdb_txn_close, bind. enter H. simpl. rewrite Hn.
  pose proof (lookup_lt_Some _ _ _ H) as Hlt.
  unfold write_body, luaL_unref. rewrite H. simpl.
  apply Z.leb_le in Href. rewrite Href. simpl.
  rewrite list_lookup_insert_eq by done. simpl.
  rewrite list_insert_insert_eq. reflexivity.
Qed.

Lemma holds_released (st : State) l ref :
  (l < length (heap st))%nat ->
  holds (released l ref st) l LUA_LMDB_TXN (BTxn {| txn_txn := NULL; txn_env_ref := LUA_NOREF |}).
Proof. intros H. unfold holds, released. simpl. by rewrite list_lookup_insert_eq. Qed.

Lemma txn_commit_live (st : State) l p ref :
  holds st l LUA_LMDB_TXN (BTxn {| txn_txn := p; txn_env_ref := ref |}) ->
  is_null p = false -> (0 <= ref)%Z ->
  let c := Mdb_txn_commit p in
  lmdb_txn_commit [LUserdata l] st =
    if (status (answer_of c st) =? 0)%Z
    then Done [LBool true] (released l ref (called c st))
    else Done (failure eng (status (answer_of c st))) (called c st).
Proof.
  intros H Hn Href. unfold lmdb_txn_commit, bind. enter H. enter H. native_step.
  cbv beta iota zeta. unfold MDB_SUCCESS. simpl txn_txn.
  destruct (status _ =? 0)%Z; [| reflexivity].
  by rewrite (txn_close_live _ l p ref (holds_called _ st l _ _ H) Hn Href).
Qed.

(** C2, as amended.  After [open], [begin] and a successful [commit] (the
    engine having handed out a non-null transaction), one reference [ref]
    to the environment was taken by [begin] and dropped by [commit], the
    engine saw one [mdb_txn_commit] on the transaction pointer [p], the
    handle holds the null pointer and [LUA_NOREF], and the registry is
    what it was before [begin].  A further [commit], [abort] or [reset]
    passes the null pointer to the engine and changes nothing else: a
    second [commit] returns the failure result for whatever non-zero
    status the engine gives the null transaction, [abort] returns nothing. *)
Theorem commit_releases_once (st0 st1 st2 st3 : State) oargs bargs le lt :
  lmdb_open oargs st0 = Done [LUserdata le] st1 ->
  lmdb_txn_begin (LUserdata le :: bargs) st1 = Done [LUserdata lt] st2 ->
  (forall t, holds st2 lt LUA_LMDB_TXN (BTxn t) -> is_null (txn_txn t) = false) ->
  lmdb_txn_commit [LUserdata lt] st2 = Done [LBool true] st3 ->
  exists p ref cb,
    holds st2 lt LUA_LMDB_TXN (BTxn {| txn_txn := p; txn_env_ref := ref |})
    /\ registry st1 !! ref = None
    /\ registry st2 = <[ref := LUserdata le]> (registry st1)
    /\ trace st2 = (trace st1 ++ [EvNative cb (answer_of cb st1); EvRef ref])%list
    /\ holds st3 lt LUA_LMDB_TXN (BTxn {| txn_txn := NULL; txn_env_ref := LUA_NOREF |})
    /\ registry st3 = registry st1
    /\ trace st3 =
         (trace st2 ++ [EvNative (Mdb_txn_commit p) (answer_of (Mdb_txn_commit p) st2);
                        EvUnref ref])%list
    /\ (let c := Mdb_txn_commit NULL in
        lmdb_txn_commit [LUserdata lt] st3 =
          Done (by_status eng (status (answer_of c st3)) [LBool true]) (called c st3))
    /\ lmdb_txn_abort [LUserdata lt] st3 = Done [] (called (Mdb_txn_abort NULL) st3)
    /\ final_state (lmdb_txn_reset [LUserdata lt] st3) = called (Mdb_txn_reset NULL) st3.
Proof.
  intros _ Hbegin Hlive Hcommit.
  apply txn_begin_inv in Hbegin as (le' & e & parent & flags & Harg & He & Hb).
  cbv zeta in Hb. simpl in Harg. injection Harg as <-.
  set (cb := Mdb_txn_begin (env_env e) parent flags) in *.
  destruct (status (answer_of cb st1) =? 0)%Z; destruct Hb as [Hres ->]; [| discriminate Hres].
  injection Hres as ->.
  set (p := out_ptr (answer_of cb st1)) in *.
  set (ref := fresh_ref (registry st1)) in *.
  assert (H2 : holds (built st1 cb {| meta := Some LUA_LMDB_TXN;
                                      body := BTxn {| txn_txn := p; txn_env_ref := ref |} |}
                        (Some (LUserdata le)))
                 (length (heap st1)) LUA_LMDB_TXN
                 (BTxn {| txn_txn := p; txn_env_ref := ref |})).
  { unfold holds, built. simpl. apply lookup_new_block. }
  pose proof (Hlive _ H2) as Hp. simpl in Hp.
  assert (Href : (0 <= ref)%Z) by (pose proof (fresh_ref_pos (registry st1)); unfold ref; lia).
  rewrite (txn_commit_live _ _ p ref H2 Hp Href) in Hcommit. cbv zeta in Hcommit.
  destruct (status _ =? 0)%Z; [| discriminate Hcommit].
  injection Hcommit as <-.
  assert (H3 : holds (released (length (heap st1)) ref
                        (called (Mdb_txn_commit p)
                           (built st1 cb {| meta := Some LUA_LMDB_TXN;
                                            body := BTxn {| txn_txn := p; txn_env_ref := ref |} |}
                              (Some (LUserdata le)))))
                 (length (heap st1)) LUA_LMDB_TXN
                 (BTxn {| txn_txn := NULL; txn_env_ref := LUA_NOREF |})).
  { apply holds_released. simpl. rewrite length_app. simpl. lia. }
  exists p, ref, cb.
  split; [exact H2 |].
  split; [apply fresh_ref_unused |].
  split; [reflexivity |].
  split; [simpl; by rewrite <- app_assoc |].
  split; [exact H3 |].
  split; [simpl; apply delete_fresh_insert |].
  split; [simpl; by rewrite <- !app_assoc |].
  split; [exact (txn_commit_dead _ _ _ H3 eq_refl) |].
  split; [exact (txn_abort_dead _ _ _ H3 eq_refl) |].
  by rewrite (txn_reset_run _ _ _ H3).
Qed.

End Teardown.

(** ** The reader-list callback *)

Section ReaderList.

Context {eng : Engine} {rt : Runtime}.

Local Abbreviation State := (lua_State eng rt).

(** The message function answers 0 when the closure returns and -1, after
    a line on [stderr], when it raises. *)
Lemma lmdb_msg_run (st : State) ref f msg :
  registry st !! ref = Some (LFunction f) ->
  lmdb_msg ref msg st =
    match lua_call rt f [lua_pushstring msg] (script st) with
    | (w, inr _) => Done 0%Z (moved w [] st)
    | (w, inl e) => Done (-1)%Z (moved w [EvStderr e] st)
    end.
Proof.
  intros H. unfold lmdb_msg, bind, lua_rawgeti, lua_pcall. rewrite H. simpl.
  destruct (lua_call rt f _ (script st)) as [w [e | vs]]; simpl.
  - reflexivity.
  - unfold ret, moved, set_script. simpl. by rewrite app_nil_r.
Qed.

Lemma moved_moved (st : State) w w' mid mid' :
  moved w' mid' (moved w mid st) = moved w' (mid ++ mid') st.
Proof. unfold moved. simpl. by rewrite app_assoc. Qed.

Lemma run_reader_spec (run : reader_run) (st : State) ref f :
  registry st !! ref = Some (LFunction f) ->
  exists rc mid w,
    run_reader run (lmdb_msg ref) st = Done rc (moved w mid st)
    /\ Forall is_stderr mid
    /\ (callback_never_raises run f (script st) = true -> completes run = true -> rc = 0%Z)
    /\ (callback_never_raises run f (script st) = false -> stops_on_abort run = true ->
        rc <> 0%Z).
Proof.
  revert st. induction run as [rc | msg k IH]; intros st Href.
  - exists rc, [], (script st). simpl. split.
    + unfold ret, moved. destruct st; simpl. by rewrite app_nil_r.
    + split; [constructor |]. split; [| discriminate].
      intros _ H. by apply Z.eqb_eq.
  - simpl. unfold bind. rewrite (lmdb_msg_run st ref f msg Href).
    destruct (lua_call rt f _ (script st)) as [w [e | vs]].
    + destruct (IH (-1)%Z (moved w [EvStderr e] st) Href) as (rc & mid & w' & Hrun & Hmid & _).
      exists rc, (EvStderr e :: mid), w'. rewrite Hrun, moved_moved. split; [done |].
      split; [by constructor |]. split; [discriminate |].
      intros _ Hstop. apply andb_prop in Hstop as [Hstop _].
      destruct (k (-1)%Z) as [rc' |]; [| discriminate].
      simpl in Hrun. injection Hrun as <- _.
      apply negb_true_iff in Hstop. by apply Z.eqb_neq.
    + destruct (IH 0%Z (moved w [] st) Href) as (rc & mid & w' & Hrun & Hmid & Hok & Hbad).
      exists rc, mid, w'. rewrite Hrun, moved_moved. split; [done |].
      split; [done |]. split; [exact Hok |].
      intros Hnever Hstop. apply andb_prop in Hstop as [_ Hstop]. by apply Hbad.
Qed.

(** C6. [env:reader_list(f)] takes one reference for the closure before
    the dump and drops it after the dump has returned, whatever happened
    in between; between the two only lines to [stderr] are logged, and the
    registry ends as it began.  When the closure raises on some line and
    the engine stops on the abort signal, the result is the failure
    result of a non-zero status; when the closure never raises and the
    engine completes, the result is the environment handle. *)
Theorem reader_list_callback (st : State) le e f :
  holds st le LUA_LMDB_ENV (BEnv e) ->
  let run := mdb_reader_list eng (engine st) (env_env e) in
  let out := lmdb_reader_list [LUserdata le; LFunction f] st in
  (exists ref mid rc,
      registry st !! ref = None
      /\ trace (final_state out) =
           (trace st ++ [EvRef ref; EvReaderList (env_env e)] ++ mid ++
              [EvReaderListEnd rc; EvUnref ref])%list
      /\ Forall is_stderr mid
      /\ returned out = Some (by_status eng rc [LUserdata le]))
  /\ registry (final_state out) = registry st
  /\ (callback_never_raises run f (script st) = false -> stops_on_abort run = true ->
      exists rc, rc <> 0%Z /\ returned out = Some (failure eng rc))
  /\ (callback_never_raises run f (script st) = true -> completes run = true ->
      returned out = Some [LUserdata le]).
Proof.
  intros H run out.
  set (ref := fresh_ref (registry st)).
  set (st1 := log (EvReaderList (env_env e))
                (log (EvRef ref) (set_registry (<[ref := LFunction f]> (registry st)) st))).
  assert (Href : registry st1 !! ref = Some (LFunction f)) by apply lookup_insert_eq.
  destruct (run_reader_spec run st1 ref f Href) as (rc & mid & w & Hrun & Hmid & Hok & Hbad).
  assert (Hout : out =
            Done (by_status eng rc [LUserdata le])
              (log (EvUnref ref)
                 (set_registry (delete ref (registry st1))
                    (log (EvReaderListEnd rc) (moved w mid st1))))).
  { unfold out, lmdb_reader_list, bind. enter H. enter H. simpl.
    fold ref. fold st1. fold run. rewrite Hrun. simpl.
    unfold luaL_unref. simpl. unfold ref. rewrite fresh_ref_leb. fold ref.
    unfold by_status. destruct (rc =? MDB_SUCCESS)%Z; reflexivity. }
  rewrite Hout. simpl. split; [| split; [| split]].
  - exists ref, mid, rc. split; [apply fresh_ref_unused |]. split; [| done].
    rewrite <- !app_assoc. reflexivity.
  - apply delete_fresh_insert.
  - intros Hnever Hstop. exists rc. split; [by apply Hbad |].
    by rewrite by_status_nonzero by (by apply Hbad).
  - intros Hnever Hcomp. by rewrite (Hok Hnever Hcomp).
Qed.

End ReaderList.

(** ** The method tables *)

Lemma no_slot_holds_dbi_flags :
  map_Forall
    (fun _ t =>
       map_Forall (fun _ v => v <> SFunction c_lmdb_dbi_flags) (it t) /\
       map_Forall (fun _ v => v <> SFunction c_lmdb_dbi_flags) (mt t))
    luaopen_lmdb.
Proof. apply (bool_decide_unpack _). vm_compute. exact I. Qed.

(** C9. [dbi_methods] has two entries named ["flags"], first
    [lmdb_dbi_flags], then [lmdb_dbi_drop].  In the class built from it the
    name ["flags"] leads to [lmdb_dbi_drop], so [dbi:flags(...)] runs
    [lmdb_dbi_drop]; and no slot of any registered table, index table or
    metatable, holds [lmdb_dbi_flags]. *)
Theorem dbi_flags_calls_drop {eng : Engine} {rt : Runtime} (st : lua_State eng rt) l b rest :
  holds st l LUA_LMDB_DBI b ->
  func <$> filter (fun r => name r = "flags") dbi_methods = [c_lmdb_dbi_flags; c_lmdb_dbi_drop]
  /\ index_method (auxiliar_newclass LUA_LMDB_DBI dbi_methods) "flags" =
       Some (SFunction c_lmdb_dbi_drop)
  /\ method_call l "flags" rest st = lmdb_dbi_drop (LUserdata l :: rest) st
  /\ (forall tname t key,
        luaopen_lmdb !! tname = Some t ->
        index_method t key <> Some (SFunction c_lmdb_dbi_flags) /\
        mt t !! key <> Some (SFunction c_lmdb_dbi_flags)).
Proof.
  intros H. split; [reflexivity |]. split; [reflexivity |]. split.
  - unfold method_call, bind, read_block. unfold holds in H. rewrite H. reflexivity.
  - intros tname t key Ht.
    destruct (no_slot_holds_dbi_flags tname t Ht) as [Hit Hmt]. split.
    + unfold index_method. destruct (mt t !! "__index") as [[| |] |]; try discriminate.
      intros Hk. by apply (Hit key _ Hk).
    + intros Hk. by apply (Hmt key _ Hk).
Qed.

(** The name ["drop"] is not registered at all. *)
Lemma dbi_drop_has_no_name_of_its_own :
  index_method (auxiliar_newclass LUA_LMDB_DBI dbi_methods) "drop" = None.
Proof. reflexivity. Qed.

Lemma dbi_flags_calls_drop_witness :
  holds Sample.with_dbi 2%nat LUA_LMDB_DBI
    (BDbi {| dbi_dbi := 1; dbi_txn := Native 2; dbi_txn_ref := 2 |})
  /\ method_call 2%nat "flags" [] Sample.with_dbi = lmdb_dbi_drop [Sample.dbi] Sample.with_dbi
  /\ returned (method_call 2%nat "flags" [] Sample.with_dbi) = Some [Sample.dbi].
Proof.
  split; [reflexivity |]. split; [| vm_compute; reflexivity].
  apply (dbi_flags_calls_drop Sample.with_dbi 2%nat
           (BDbi {| dbi_dbi := 1; dbi_txn := Native 2; dbi_txn_ref := 2 |}) []).
  reflexivity.
Defined.

(** ** Teardown and construction on the reference engine *)

(** C4, as stated, fails for a transaction: [txn:abort()] after
    [txn:commit()] calls [mdb_txn_abort] once more, with the null pointer. *)
Lemma abort_after_commit_calls_engine :
  holds Sample.committed 1%nat LUA_LMDB_TXN
    (BTxn {| txn_txn := NULL; txn_env_ref := LUA_NOREF |})
  /\ trace (final_state (lmdb_txn_abort [Sample.txn] Sample.committed)) =
       (trace Sample.committed ++ [EvNative (Mdb_txn_abort NULL) (Ref.answer 0)])%list
  /\ lmdb_txn_abort [Sample.txn] Sample.committed <> Done [] Sample.committed.
Proof.
  split; [reflexivity |]. split; [reflexivity |].
  assert (Hne : length (trace (final_state (lmdb_txn_abort [Sample.txn] Sample.committed))) <>
                length (trace Sample.committed)) by (vm_compute; discriminate).
  intros H. apply Hne. by rewrite H.
Qed.

Lemma teardown_of_closed_handle_witness :
  holds Sample.all_closed 0%nat LUA_LMDB_ENV (BEnv {| env_env := NULL |})
  /\ teardown (BEnv {| env_env := NULL |}) [LUserdata 0%nat] Sample.all_closed =
       Done [] Sample.all_closed.
Proof.
  assert (H : holds Sample.all_closed 0%nat LUA_LMDB_ENV (BEnv {| env_env := NULL |}))
    by reflexivity.
  split; [exact H |].
  exact (teardown_of_closed_handle Sample.all_closed 0%nat (BEnv {| env_env := NULL |})
           H eq_refl).
Defined.

(** C2, as stated, fails: after [txn:commit()], [txn:abort()] returns
    nothing and [txn:reset()] returns the handle; neither is the failure
    result. *)
Lemma abort_and_reset_after_commit_do_not_fail :
  lmdb_txn_commit [Sample.txn] Sample.begun = Done [LBool true] Sample.committed
  /\ returned (lmdb_txn_abort [Sample.txn] Sample.committed) = Some []
  /\ returned (lmdb_txn_reset [Sample.txn] Sample.committed) = Some [Sample.txn].
Proof. repeat split; reflexivity. Qed.

Lemma commit_releases_once_witness :
  lmdb_txn_commit [Sample.txn] Sample.begun = Done [LBool true] Sample.committed
  /\ exists p ref cb,
       holds Sample.begun 1%nat LUA_LMDB_TXN (BTxn {| txn_txn := p; txn_env_ref := ref |})
       /\ registry Sample.opened !! ref = None
       /\ registry Sample.begun = <[ref := LUserdata 0%nat]> (registry Sample.opened)
       /\ trace Sample.begun =
            (trace Sample.opened ++ [EvNative cb (answer_of cb Sample.opened); EvRef ref])%list
       /\ holds Sample.committed 1%nat LUA_LMDB_TXN
            (BTxn {| txn_txn := NULL; txn_env_ref := LUA_NOREF |})
       /\ registry Sample.committed = registry Sample.opened
       /\ trace Sample.committed =
            (trace Sample.begun ++
               [EvNative (Mdb_txn_commit p) (answer_of (Mdb_txn_commit p) Sample.begun);
                EvUnref ref])%list
       /\ (let c := Mdb_txn_commit NULL in
           lmdb_txn_commit [LUserdata 1%nat] Sample.committed =
             Done (by_status Ref.lmdb (status (answer_of c Sample.committed)) [LBool true])
                  (called c Sample.committed))
       /\ lmdb_txn_abort [LUserdata 1%nat] Sample.committed =
            Done [] (called (Mdb_txn_abort NULL) Sample.committed)
       /\ final_state (lmdb_txn_reset [LUserdata 1%nat] Sample.committed) =
            called (Mdb_txn_reset NULL) Sample.committed.
Proof.
  split; [reflexivity |].
  refine (commit_releases_once Ref.init Sample.opened Sample.begun Sample.committed
            [LStr "/tmp/db"] [] 0%nat 1%nat _ _ _ _).
  - reflexivity.
  - reflexivity.
  - intros t Ht.
    assert (Hl : heap Sample.begun !! 1%nat =
                 Some {| meta := Some LUA_LMDB_TXN;
                         body := BTxn {| txn_txn := Native 2; txn_env_ref := 1 |} |})
      by reflexivity.
    unfold holds, loc in Ht. rewrite Hl in Ht. injection Ht as <-. exact eq_refl.
  - reflexivity.
Defined.

(** On the reference engine a second [commit] is answered [EINVAL]. *)
Example second_commit_fails :
  returned (lmdb_txn_commit [Sample.txn] Sample.committed) = Some (failure Ref.lmdb EINVAL).
Proof. reflexivity. Qed.

(** Three constructions that fail on the reference engine: a transaction
    on a closed environment, a table and a cursor on a committed
    transaction. *)
Lemma failed_open_leaves_no_anchor_witness :
  let ra := lmdb_txn_begin [Sample.env] Sample.all_closed in
  let rb := lmdb_dbi_open [Sample.txn] Sample.txn_closed in
  let rc := lmdb_cursor_open [Sample.dbi] Sample.txn_closed in
  (returned ra = Some (failure Ref.lmdb EINVAL)
   /\ returned rb = Some (failure Ref.lmdb EINVAL)
   /\ returned rc = Some (failure Ref.lmdb EINVAL))
  /\ constructed LUA_LMDB_TXN [Sample.env] Sample.all_closed (final_state ra)
       (failure Ref.lmdb EINVAL)
  /\ constructed LUA_LMDB_DBI [Sample.txn] Sample.txn_closed (final_state rb)
       (failure Ref.lmdb EINVAL)
  /\ constructed LUA_LMDB_CURSOR [Sample.dbi] Sample.txn_closed (final_state rc)
       (failure Ref.lmdb EINVAL).
Proof.
  intros ra rb rc. split; [repeat split; reflexivity |].
  refine (failed_open_leaves_no_anchor
            Sample.all_closed (final_state ra) Sample.txn_closed (final_state rb)
            Sample.txn_closed (final_state rc)
            [Sample.env] [Sample.txn] [Sample.dbi]
            (failure Ref.lmdb EINVAL) (failure Ref.lmdb EINVAL) (failure Ref.lmdb EINVAL)
            _ _ _); reflexivity.
Defined.

(** With a transaction open the reference engine emits two lines.  Closure
    2 returns on the first and raises on the second: the dump is aborted
    and [env:reader_list] fails.  Closure 0 never raises: it succeeds. *)
Lemma reader_list_callback_witness :
  holds Sample.begun 0%nat LUA_LMDB_ENV (BEnv {| env_env := Native 1 |})
  /\ (exists rc, rc <> 0%Z /\
        returned (lmdb_reader_list [LUserdata 0%nat; LFunction 2%nat] Sample.begun) =
          Some (failure Ref.lmdb rc))
  /\ returned (lmdb_reader_list [LUserdata 0%nat; LFunction 0%nat] Sample.begun) =
       Some [LUserdata 0%nat]
  /\ registry (final_state (lmdb_reader_list [LUserdata 0%nat; LFunction 2%nat] Sample.begun)) =
       registry Sample.begun.
Proof.
  assert (H : holds Sample.begun 0%nat LUA_LMDB_ENV (BEnv {| env_env := Native 1 |}))
    by (vm_compute; reflexivity).
  pose proof (reader_list_callback Sample.begun 0%nat {| env_env := Native 1 |} 2%nat H) as Hraise.
  pose proof (reader_list_callback Sample.begun 0%nat {| env_env := Native 1 |} 0%nat H) as Hok.
  cbv zeta in Hraise, Hok.
  destruct Hraise as (_ & Hreg & Hfail & _). destruct Hok as (_ & _ & _ & Hself).
  split; [exact H |].
  split; [apply Hfail; vm_compute; reflexivity |].
  split; [apply Hself; vm_compute; reflexivity |].
  exact Hreg.
Defined.

Example reader_list_trace :
  trace (final_state (lmdb_reader_list [Sample.env; LFunction 2%nat] Sample.begun)) =
    (trace Sample.begun ++
       [EvRef 2; EvReaderList (Native 1); EvStderr (LStr "boom"); EvReaderListEnd (-1);
        EvUnref 2])%list.
Proof. reflexivity. Qed.

(** * Further properties

    Properties of the functions read off the code: defaults and argument
    errors, what each teardown releases, what the accessors return, how the
    class tables are built, and three facts that hold of every registered
    function. *)

(** ** Opening an environment *)

Section ArgumentsAndDefaults.

Context {eng : Engine} {rt : Runtime}.

Local Abbreviation State := (lua_State eng rt).

(** X1. [lmdb.open(path)] with the options left out is the same
    computation as with an empty table and as with the defaults spelled
    out: flags [MDB_FIXEDMAP | MDB_CREATE], mode 0664, a map of 4 MiB and
    one reader.  An explicit [nil] in place of the table is an argument
    error that reaches neither the heap nor the engine. *)
Theorem open_defaults (st : State) (path : string) :
  lmdb_open [LStr path] st = lmdb_open [LStr path; LTable []] st
  /\ lmdb_open [LStr path] st =
       lmdb_open [LStr path;
                  LTable [("flags", LInt 262145); ("mode", LInt 436);
                          ("mapsize", LInt 4194304); ("maxreaders", LInt 1)]] st
  /\ exists e, lmdb_open [LStr path; LNil] st = Raise e st.
Proof.
  split; [reflexivity |]. split; [reflexivity |]. eexists. reflexivity.
Qed.

End ArgumentsAndDefaults.

Section Open.

Context {eng : Engine} {rt : Runtime}.

Local Abbreviation State := (lua_State eng rt).

Lemma checktable_inv (v : option lval) i (st st' : State) fs :
  luaL_checktable v i st = Done fs st' -> st' = st.
Proof.
  unfold luaL_checktable, bad_argument, raise, ret.
  destruct v as [[| | | | | |] |]; try discriminate. by intros [= _ <-].
Qed.

Lemma checkstring_inv args i (st st' : State) s :
  luaL_checkstring args i st = Done s st' -> st' = st.
Proof.
  unfold luaL_checkstring. intros H. apply bind_inv in H as (a & s1 & H1 & H2).
  apply checklstring_inv in H1 as ->. by injection H2 as _ <-.
Qed.

(** X2. Whenever [lmdb.open] returns, it has allocated one block and
    called the engine at most four times ([mdb_env_create],
    [mdb_env_set_maxreaders], [mdb_env_set_mapsize], [mdb_env_open]),
    stopping at the first non-zero status.  The block carries the
    metatable of the class, and the handle is returned, only when all four
    succeeded; otherwise the result is the failure result for the status
    that stopped it and the block has no metatable.  In neither case is
    [mdb_env_close] called or a registry reference touched. *)
Theorem open_outcome (st st' : State) args res :
  lmdb_open args st = Done res st' ->
  exists p evs,
    registry st' = registry st
    /\ trace st' = (trace st ++ evs)%list
    /\ Forall (fun ev => ~ is_env_close ev /\ ~ is_unref ev) evs
    /\ ((res = [LUserdata (length (heap st))]
         /\ heap st' = (heap st ++ [{| meta := Some LUA_LMDB_ENV; body := BEnv {| env_env := p |} |}])%list
         /\ length evs = 4%nat
         /\ Forall (fun ev => event_status ev = Some 0%Z) evs)
        \/ (exists rc, rc <> 0%Z /\ res = failure eng rc
            /\ heap st' = (heap st ++ [{| meta := None; body := BEnv {| env_env := p |} |}])%list
            /\ (length evs <= 4)%nat
            /\ event_status <$> last evs = Some (Some rc))).
Proof.
  unfold lmdb_open. intros H.
  apply bind_inv in H as (path & s1 & H1 & H). apply checkstring_inv in H1 as ->.
  apply bind_inv in H as (fs & s1 & H1 & H). apply checktable_inv in H1 as ->.
  apply bind_inv in H as (n1 & s1 & H1 & H). apply opt_integer_inv in H1 as ->.
  apply bind_inv in H as (n2 & s1 & H1 & H). apply opt_integer_inv in H1 as ->.
  apply bind_inv in H as (n3 & s1 & H1 & H). apply opt_integer_inv in H1 as ->.
  apply bind_inv in H as (n4 & s1 & H1 & H). apply opt_integer_inv in H1 as ->.
  unfold bind, lua_newuserdata in H. rewrite call_native_run in H.
  unfold write_body in H. rewrite heap_called in H. simpl heap in H.
  rewrite lookup_new_block in H.
  cbv beta iota in H. unfold MDB_SUCCESS in H. rewrite insert_new_block in H.
  set (r1 := answer_of Mdb_env_create _) in H. simpl meta in H.
  set (s1 := set_heap _ (called Mdb_env_create _)) in H.
  exists (out_ptr r1).
  assert (Hs1 : registry s1 = registry st /\
                trace s1 = (trace st ++ [EvNative Mdb_env_create r1])%list /\
                heap s1 = (heap st ++ [{| meta := None; body := BEnv {| env_env := out_ptr r1 |} |}])%list)
    by (by repeat split).
  destruct Hs1 as (Hreg & Htr & Hheap). clearbody s1.
  assert (Hfail : forall (s : State) (r : reply) evs,
             registry s = registry st ->
             trace s = (trace st ++ evs)%list ->
             heap s = heap s1 ->
             Forall (fun ev => ~ is_env_close ev /\ ~ is_unref ev) evs ->
             (length evs <= 4)%nat ->
             event_status <$> last evs = Some (Some (status r)) ->
             status r <> 0%Z ->
             lmdb_pusherror (status r) s = Done res st' ->
             exists evs0,
               registry st' = registry st
               /\ trace st' = (trace st ++ evs0)%list
               /\ Forall (fun ev => ~ is_env_close ev /\ ~ is_unref ev) evs0
               /\ ((res = [LUserdata (length (heap st))]
                    /\ heap st' = (heap st ++ [{| meta := Some LUA_LMDB_ENV;
                                                   body := BEnv {| env_env := out_ptr r1 |} |}])%list
                    /\ length evs0 = 4%nat
                    /\ Forall (fun ev => event_status ev = Some 0%Z) evs0)
                   \/ (exists rc, rc <> 0%Z /\ res = failure eng rc
                       /\ heap st' = (heap st ++ [{| meta := None;
                                                      body := BEnv {| env_env := out_ptr r1 |} |}])%list
                       /\ (length evs0 <= 4)%nat
                       /\ event_status <$> last evs0 = Some (Some rc)))).
  { intros s r evs H1 H2 H3 H4 H5 H6 H7 [= <- <-]. exists evs.
    split; [done |]. split; [done |]. split; [done |]. right.
    exists (status r). split; [done |]. split; [done |]. split; [by rewrite H3 |]. by split. }
  destruct (Z.eqb_spec (status r1) 0) as [E1 | E1]; cbv beta iota delta [negb] in H.
  2:{ apply (Hfail s1 r1 [EvNative Mdb_env_create r1]); try done.
      - repeat constructor; simpl; tauto.
      - simpl; lia. }
  rewrite call_native_run in H.
  set (c2 := Mdb_env_set_maxreaders _ _) in H. set (r2 := answer_of c2 s1) in H.
  destruct (Z.eqb_spec (status r2) 0) as [E2 | E2]; cbv beta iota delta [negb] in H.
  2:{ apply (Hfail (called c2 s1) r2 [EvNative Mdb_env_create r1; EvNative c2 r2]); try done.
      - rewrite trace_called, Htr. by rewrite <- app_assoc.
      - repeat constructor; simpl; tauto.
      - simpl; lia. }
  rewrite call_native_run in H.
  set (c3 := Mdb_env_set_mapsize _ _) in H. set (s2 := called c2 s1) in H.
  set (r3 := answer_of c3 s2) in H.
  destruct (Z.eqb_spec (status r3) 0) as [E3 | E3]; cbv beta iota delta [negb] in H.
  2:{ apply (Hfail (called c3 s2) r3
               [EvNative Mdb_env_create r1; EvNative c2 r2; EvNative c3 r3]); try done.
      - try unfold s3; try unfold s2; rewrite !trace_called, Htr. by rewrite <- !app_assoc.
      - repeat constructor; simpl; tauto.
      - simpl; lia. }
  rewrite call_native_run in H.
  set (c4 := Mdb_env_open _ _ _ _) in H. set (s3 := called c3 s2) in H.
  set (r4 := answer_of c4 s3) in H.
  destruct (Z.eqb_spec (status r4) 0) as [E4 | E4]; cbv beta iota delta [negb] in H.
  2:{ apply (Hfail (called c4 s3) r4
               [EvNative Mdb_env_create r1; EvNative c2 r2; EvNative c3 r3; EvNative c4 r4]);
        try done.
      - try unfold s3; try unfold s2; rewrite !trace_called, Htr. by rewrite <- !app_assoc.
      - repeat constructor; simpl; tauto. }
  unfold lua_setmetatable in H.
  unfold s3, s2 in H.
  rewrite !heap_called, Hheap, lookup_new_block, insert_new_block in H.
  unfold ret in H. injection H as <- <-.
  exists [EvNative Mdb_env_create r1; EvNative c2 r2; EvNative c3 r3; EvNative c4 r4].
  split; [done |]. split; [simpl; rewrite Htr; by rewrite <- !app_assoc |].
  split; [repeat constructor; simpl; tauto |]. left.
  split; [done |]. split; [done |]. split; [done |].
  repeat constructor; simpl; by f_equal.
Qed.

End Open.

(** ** Closing an environment *)

Section Environment.

Context {eng : Engine} {rt : Runtime}.

Local Abbreviation State := (lua_State eng rt).

Lemma close_live (st : State) l p :
  holds st l LUA_LMDB_ENV (BEnv {| env_env := p |}) ->
  is_null p = false ->
  let g := Mdb_env_get_userctx p in
  let ref := CInt.to_int (out_int (answer_of g st)) in
  let drops := negb (out_int (answer_of g st) =? 0)%Z && (0 <=? ref)%Z in
  lmdb_close [LUserdata l] st =
    Done []
      (set_heap (<[l := {| meta := Some LUA_LMDB_ENV; body := BEnv {| env_env := NULL |} |}]> (heap st))
         (called (Mdb_env_close p)
            (if drops
             then log (EvUnref ref) (set_registry (delete ref (registry st)) (called g st))
             else called g st))).
Proof.
  intros H Hn g ref drops.
  unfold lmdb_close, bind. enter H. enter H. cbn [env_env]. rewrite Hn. native_step.
  fold g. unfold drops, ref.
  destruct (out_int (answer_of g st) =? 0)%Z eqn:E; cbv beta iota delta [negb andb].
  - unfold ret. rewrite call_native_run. unfold write_body.
    rewrite !heap_called, H. reflexivity.
  - unfold luaL_unref.
    destruct (0 <=? CInt.to_int (out_int (answer_of g st)))%Z eqn:E'.
    + rewrite call_native_run. unfold write_body.
      rewrite heap_called. cbn [heap log set_registry]. rewrite heap_called, H. reflexivity.
    + rewrite call_native_run. unfold write_body.
      rewrite !heap_called, H. reflexivity.
Qed.

(** X3. [env:close()] on a live environment asks the engine for the user
    context; when that is non-null and, read as an [int], not negative,
    the registry reference it stands for is dropped.  Then
    [mdb_env_close] is called once and the pointer in the handle is
    cleared: no other block changes, and a second [close] does nothing
    at all. *)
Theorem close_releases_userctx (st : State) l p :
  holds st l LUA_LMDB_ENV (BEnv {| env_env := p |}) ->
  is_null p = false ->
  let g := Mdb_env_get_userctx p in
  let ctx := out_int (answer_of g st) in
  let ref := CInt.to_int ctx in
  let drops := negb (ctx =? 0)%Z && (0 <=? ref)%Z in
  exists st',
    lmdb_close [LUserdata l] st = Done [] st'
    /\ heap st' = <[l := {| meta := Some LUA_LMDB_ENV; body := BEnv {| env_env := NULL |} |}]> (heap st)
    /\ registry st' = (if drops then delete ref (registry st) else registry st)
    /\ (exists r,
          trace st' = (trace st ++ [EvNative g (answer_of g st)] ++
                         (if drops then [EvUnref ref] else []) ++
                         [EvNative (Mdb_env_close p) r])%list)
    /\ lmdb_close [LUserdata l] st' = Done [] st'.
Proof.
  intros H Hn g ctx ref drops.
  pose proof (lookup_lt_Some _ _ _ H) as Hlt.
  rewrite (close_live st l p H Hn). cbv zeta. fold g ctx ref drops.
  eexists. split; [reflexivity |].
  split; [reflexivity |].
  split; [by destruct drops |].
  split.
  - eexists. rewrite heap_called || idtac. cbn [trace set_heap]. rewrite trace_called.
    destruct drops; cbn [trace log set_registry]; rewrite ?trace_called, <- ?app_assoc; reflexivity.
  - apply (close_dead _ l {| env_env := NULL |}); [| reflexivity]. unfold holds. cbn [heap set_heap].
    by rewrite list_lookup_insert_eq.
Qed.

End Environment.

(** ** The user context *)

(** Comparing two string literals, as [strcmp] on constants. *)
Ltac literal_eqb :=
  repeat match goal with
         | |- context [String.eqb ?a ?b] =>
             let v := eval vm_compute in (String.eqb a b) in
             change (String.eqb a b) with v
         end;
  cbv beta iota.

Section UserContext.

Context {eng : Engine} {rt : Runtime}.

Local Abbreviation State := (lua_State eng rt).

Lemma set_userctx_run (st : State) l e v rest :
  holds st l LUA_LMDB_ENV (BEnv e) ->
  v <> LNil ->
  let ref := fresh_ref (registry st) in
  let st1 := log (EvRef ref) (set_registry (<[ref := v]> (registry st)) st) in
  let c := Mdb_env_set_userctx (env_env e) ref in
  lmdb_set_property (LUserdata l :: LStr "userctx" :: v :: rest) st =
    if (status (answer_of c st1) =? 0)%Z
    then Done [LUserdata l] (called c st1)
    else Done (failure eng (status (answer_of c st1)))
              (log (EvUnref ref) (set_registry (delete ref (registry st1)) (called c st1))).
Proof.
  intros H Hv ref st1 c.
  assert (Hc : c_str "userctx" = "userctx") by reflexivity.
  unfold lmdb_set_property, bind. enter H. enter H.
  unfold luaL_checkstring, luaL_checklstring, luaL_checkany, bind.
  cbn [arg lookup list_lookup ret]. rewrite Hc. literal_eqb.
  unfold lua_pushvalue. cbn [arg lookup list_lookup default].
  unfold luaL_ref. destruct v; try (by destruct Hv); cbv beta iota zeta delta [id]; fold ref; fold st1;
    rewrite call_native_run; fold c; unfold MDB_SUCCESS;
    (destruct (status (answer_of c st1) =? 0)%Z; [reflexivity |]);
    unfold luaL_unref; unfold ref; rewrite fresh_ref_leb; reflexivity.
Qed.

(** X4. After [env:set("userctx", v)] succeeded for a non-nil [v],
    [env:get("userctx")] returns [v], provided the engine hands back the
    context it was given and the reference fits an [int]. *)
Theorem userctx_roundtrip (st st1 : State) l p v rest :
  engine_keeps_userctx eng ->
  holds st l LUA_LMDB_ENV (BEnv {| env_env := p |}) ->
  is_null p = false ->
  v <> LNil ->
  (fresh_ref (registry st) < 2 ^ 31)%Z ->
  lmdb_set_property (LUserdata l :: LStr "userctx" :: v :: rest) st = Done [LUserdata l] st1 ->
  exists st2,
    lmdb_get_property [LUserdata l; LStr "userctx"] st1 = Done [v] st2
    /\ registry st2 = registry st1
    /\ heap st2 = heap st.
Proof.
  intros Hkeep H Hn Hv Hsmall Hset.
  rewrite (set_userctx_run st l _ v rest H Hv) in Hset. cbv zeta in Hset. cbn [env_env] in Hset.
  set (ref := fresh_ref (registry st)) in *.
  set (st0 := log (EvRef ref) (set_registry (<[ref := v]> (registry st)) st)) in *.
  set (c := Mdb_env_set_userctx p ref) in *.
  destruct (Z.eqb_spec (status (answer_of c st0)) 0) as [E | E]; [| discriminate Hset].
  injection Hset as <-.
  assert (H1 : holds (called c st0) l LUA_LMDB_ENV (BEnv {| env_env := p |})) by exact H.
  assert (Hc : c_str "userctx" = "userctx") by reflexivity.
  unfold lmdb_get_property, bind. enter H1. enter H1.
  unfold luaL_checkstring, luaL_checklstring, bind.
  cbn [arg lookup list_lookup ret env_env]. rewrite Hc, Hn. literal_eqb.
  rewrite call_native_run.
  assert (Hctx : out_int (answer_of (Mdb_env_get_userctx p) (called c st0)) = ref).
  { apply (Hkeep (engine st) p ref). exact E. }
  rewrite Hctx.
  pose proof (fresh_ref_pos (registry st)) as Hpos. fold ref in Hpos.
  destruct (Z.eqb_spec ref 0) as [E0 | _]; [lia |].
  rewrite to_int_small by lia.
  unfold lua_rawgeti. rewrite !registry_called.
  unfold st0. cbn [registry log set_registry]. rewrite lookup_insert_eq.
  eexists. split; [reflexivity |]. split; reflexivity.
Qed.

(** X5. [env:set("userctx", v)] takes a reference that was free.  When
    the engine accepts the context, the reference stays and nothing is
    dropped: whatever the registry held before, the reference of an
    earlier [set("userctx", ...)] included, it still holds.  When the
    engine refuses, the new reference is dropped again and the registry
    is as before. *)
Theorem set_userctx_references (st st1 : State) l e v rest res :
  holds st l LUA_LMDB_ENV (BEnv e) ->
  v <> LNil ->
  lmdb_set_property (LUserdata l :: LStr "userctx" :: v :: rest) st = Done res st1 ->
  let ref := fresh_ref (registry st) in
  let c := Mdb_env_set_userctx (env_env e) ref in
  registry st !! ref = None
  /\ exists r,
       (status r = 0%Z /\ res = [LUserdata l]
        /\ registry st1 = <[ref := v]> (registry st)
        /\ (forall k x, registry st !! k = Some x -> registry st1 !! k = Some x)
        /\ trace st1 = (trace st ++ [EvRef ref; EvNative c r])%list)
       \/ (status r <> 0%Z /\ res = failure eng (status r)
           /\ registry st1 = registry st
           /\ trace st1 = (trace st ++ [EvRef ref; EvNative c r; EvUnref ref])%list).
Proof.
  intros H Hv Hset ref c.
  rewrite (set_userctx_run st l e v rest H Hv) in Hset. cbv zeta in Hset.
  fold ref in Hset. fold c in Hset.
  set (st0 := log (EvRef ref) (set_registry (<[ref := v]> (registry st)) st)) in *.
  split; [apply fresh_ref_unused |].
  exists (answer_of c st0).
  destruct (Z.eqb_spec (status (answer_of c st0)) 0) as [E | E]; injection Hset as <- <-.
  - left. split; [done |]. split; [done |]. split; [reflexivity |]. split.
    + intros k x Hk. rewrite registry_called. unfold st0. cbn [registry log set_registry].
      rewrite lookup_insert_ne; [done |].
      intros <-. unfold ref in Hk. by rewrite fresh_ref_unused in Hk.
    + rewrite trace_called. unfold st0. cbn [trace log set_registry].
      by rewrite <- app_assoc.
  - right. split; [done |]. split; [done |]. split.
    + cbn [registry log set_registry]. rewrite ?registry_called. unfold st0.
      cbn [registry log set_registry]. apply delete_fresh_insert.
    + cbn [trace log set_registry]. rewrite ?trace_called. unfold st0.
      cbn [trace log set_registry]. by rewrite <- !app_assoc.
Qed.

End UserContext.

(** ** Property names and closed environments *)

Section Properties.

Context {eng : Engine} {rt : Runtime}.

Local Abbreviation State := (lua_State eng rt).

Lemma get_property_enter (st : State) l e item rest :
  holds st l LUA_LMDB_ENV (BEnv e) ->
  lmdb_get_property (LUserdata l :: LStr item :: rest) st =
    (let item := c_str item in
     let p := env_env e in
     if is_null p then lmdb_pusherror EINVAL else
     if String.eqb item "flags" then
       r <- call_native (Mdb_env_get_flags p) ;;
       if (status r =? MDB_SUCCESS)%Z then ret [LInt (out_int r)] else lmdb_pusherror (status r)
     else if String.eqb item "path" then
       r <- call_native (Mdb_env_get_path p) ;;
       if (status r =? MDB_SUCCESS)%Z then ret [lua_pushstring (out_str r)] else lmdb_pusherror (status r)
     else if String.eqb item "fd" then
       r <- call_native (Mdb_env_get_fd p) ;;
       if (status r =? MDB_SUCCESS)%Z then ret [LInt (out_int r)] else lmdb_pusherror (status r)
     else if String.eqb item "maxreaders" then
       r <- call_native (Mdb_env_get_maxreaders p) ;;
       if (status r =? MDB_SUCCESS)%Z then ret [LInt (out_int r)] else lmdb_pusherror (status r)
     else if String.eqb item "maxkeysize" then
       r <- call_native (Mdb_env_get_maxkeysize p) ;;
       ret [LInt (status r)]
     else if String.eqb item "userctx" then
       r <- call_native (Mdb_env_get_userctx p) ;;
       if (out_int r =? 0)%Z then ret [LNil] else
       v <- lua_rawgeti (CInt.to_int (out_int r)) ;;
       ret [v]
     else raise ("unknown property: " ++ item)) st.
Proof.
  intros H. unfold lmdb_get_property. unfold bind at 1. enter H. unfold bind at 1. enter H.
  reflexivity.
Qed.

(** X6. The names [env:get] answers are exactly [flags], [path], [fd],
    [maxreaders], [maxkeysize] and [userctx]: on a live environment any
    other name, [mapsize] and [maxdbs] included, raises
    [unknown property] without a call into the engine, and each of the six
    returns.  [env:set] raises in the same way for every name outside
    [flags], [mapsize], [maxreaders], [maxdbs] and [userctx], whether the
    environment is live or not. *)
Theorem unknown_property_raises (st : State) l e item v rest :
  holds st l LUA_LMDB_ENV (BEnv e) ->
  (is_null (env_env e) = false ->
   (c_str item ∉ gettable ->
    lmdb_get_property (LUserdata l :: LStr item :: rest) st =
      Raise (LStr ("unknown property: " ++ c_str item)) st)
   /\ (c_str item ∈ gettable ->
       exists res st', lmdb_get_property (LUserdata l :: LStr item :: rest) st = Done res st'))
  /\ (c_str item ∉ settable ->
      lmdb_set_property (LUserdata l :: LStr item :: v :: rest) st =
        Raise (LStr ("unknown property: " ++ c_str item)) st).
Proof.
  intros H. split; [intros Hn; split |].
  - intros Hout. rewrite (get_property_enter st l e item rest H). cbv zeta. rewrite Hn.
    unfold gettable in Hout.
    repeat match goal with
           | |- context [String.eqb (c_str item) ?s] =>
               destruct (String.eqb_spec (c_str item) s) as [E | _];
               [exfalso; apply Hout; rewrite E; set_solver |]
           end.
    reflexivity.
  - intros Hin. rewrite (get_property_enter st l e item rest H). cbv zeta. rewrite Hn.
    unfold gettable in Hin.
    repeat (apply elem_of_cons in Hin as [E | Hin];
            [rewrite E; literal_eqb; unfold bind; rewrite call_native_run; cbv beta iota;
             try match goal with
                 | |- context [(?a =? ?b)%Z] => destruct (a =? b)%Z
                 end; eexists _, _; reflexivity |]).
    by apply elem_of_nil in Hin.
  - intros Hout. unfold lmdb_set_property. unfold bind at 1. enter H. unfold bind at 1. enter H.
    unfold luaL_checkstring, luaL_checklstring, luaL_checkany, bind.
    cbn [arg lookup list_lookup ret].
    unfold settable in Hout.
    repeat match goal with
           | |- context [String.eqb (c_str item) ?s] =>
               destruct (String.eqb_spec (c_str item) s) as [E | _];
               [exfalso; apply Hout; rewrite E; set_solver |]
           end.
    reflexivity.
Qed.

(** X7. On a closed environment [copy], [sync], [get] (whatever the
    name asked for), [stat] and [info] return the failure result for
    [EINVAL] and leave heap, registry, engine and log as they were. *)
Theorem closed_env_is_refused (st : State) l e path force item rest :
  holds st l LUA_LMDB_ENV (BEnv e) ->
  is_null (env_env e) = true ->
  lmdb_copy [LUserdata l; LStr path] st = Done (failure eng EINVAL) st
  /\ lmdb_sync (LUserdata l :: force) st = Done (failure eng EINVAL) st
  /\ lmdb_get_property (LUserdata l :: LStr item :: rest) st = Done (failure eng EINVAL) st
  /\ lmdb_stat (LUserdata l :: rest) st = Done (failure eng EINVAL) st
  /\ lmdb_info (LUserdata l :: rest) st = Done (failure eng EINVAL) st.
Proof.
  intros H Hn.
  split; [by rewrite (copy_run st l e path H), Hn |].
  split; [by rewrite (sync_run st l e force H), Hn |].
  split; [by rewrite (get_property_enter st l e item rest H); cbv zeta; rewrite Hn |].
  split.
  - unfold lmdb_stat, bind. enter H. enter H. by rewrite Hn.
  - unfold lmdb_info, bind. enter H. enter H. by rewrite Hn.
Qed.

End Properties.

(** ** Transactions *)

Section Transactions.

Context {eng : Engine} {rt : Runtime}.

Local Abbreviation State := (lua_State eng rt).

(** [env:txn_begin([parent, ] [flags])] run forward. *)
Lemma txn_begin_run (st : State) le e (parent : option loc) (fl : option Z) :
  holds st le LUA_LMDB_ENV (BEnv e) ->
  (forall lp, parent = Some lp -> exists t, holds st lp LUA_LMDB_TXN (BTxn t)) ->
  let args := (LUserdata le :: match parent with Some lp => [LUserdata lp] | None => [] end ++
                 match fl with Some n => [LInt n] | None => [] end)%list in
  let c := Mdb_txn_begin (env_env e)
             (match parent with Some lp => Block lp | None => NULL end)
             (CInt.to_uint (default 0%Z fl)) in
  let r := answer_of c st in
  lmdb_txn_begin args st =
    if (status r =? 0)%Z
    then Done [LUserdata (length (heap st))]
           (built st c {| meta := Some LUA_LMDB_TXN;
                          body := BTxn {| txn_txn := out_ptr r;
                                          txn_env_ref := fresh_ref (registry st) |} |}
              (Some (LUserdata le)))
    else Done (failure eng (status r))
           (built st c {| meta := None;
                          body := BTxn {| txn_txn := out_ptr r; txn_env_ref := junk_int rt |} |}
              None).
Proof.
  intros H Hp. cbv zeta.
  unfold lmdb_txn_begin. unfold bind at 1. enter H. unfold bind at 1. enter H.
  destruct parent as [lp |].
  - destruct (Hp lp eq_refl) as [t Ht].
    unfold bind at 1. unfold lua_isuserdata. cbn [arg lookup list_lookup app].
    unfold bind at 1. unfold luaL_checkudata, check_udata. cbn [arg lookup list_lookup app].
    unfold bind at 1. unfold read_block. unfold holds in Ht. rewrite Ht. cbn [meta].
    rewrite decide_True by done. unfold ret at 1. cbv beta iota.
    unfold ret at 1. cbv beta iota. cbn [is_null].
    unfold bind, lua_newuserdata, luaL_optinteger, opt_integer. cbn [arg lookup list_lookup app].
    destruct fl as [n |]; cbn [arg lookup list_lookup app check_integer default ret];
      rewrite call_native_run;
      unfold write_body, lua_setmetatable, luaL_ref, lmdb_pusherror, ret, called, answer_of,
        MDB_SUCCESS, lua_pushvalue; simpl;
      repeat (first [rewrite insert_new_block | rewrite lookup_new_block]; simpl);
      (destruct (status _ =? 0)%Z eqn:Hrc; simpl;
       repeat (first [rewrite insert_new_block | rewrite lookup_new_block]; simpl);
       reflexivity).
  - unfold bind at 1. unfold lua_isuserdata.
    destruct fl as [n |]; cbn [arg lookup list_lookup app]; unfold ret at 1; cbv beta iota;
      cbn [is_null];
      unfold bind, lua_newuserdata, luaL_optinteger, opt_integer;
      cbn [arg lookup list_lookup app check_integer default ret];
      rewrite call_native_run;
      unfold write_body, lua_setmetatable, luaL_ref, lmdb_pusherror, ret, called, answer_of,
        MDB_SUCCESS, lua_pushvalue; simpl;
      repeat (first [rewrite insert_new_block | rewrite lookup_new_block]; simpl);
      (destruct (status _ =? 0)%Z eqn:Hrc; simpl;
       repeat (first [rewrite insert_new_block | rewrite lookup_new_block]; simpl);
       reflexivity).
Qed.

(** X8. [env:reader_check], [env:set] and [env:txn_begin] do not test
    the pointer of the environment: on a closed environment each of them
    calls the engine with the null pointer and returns what follows from
    the reply. *)
Theorem closed_env_reaches_engine (st : State) l e n :
  holds st l LUA_LMDB_ENV (BEnv e) ->
  is_null (env_env e) = true ->
  (let c := Mdb_reader_check NULL in
   lmdb_reader_check [LUserdata l] st =
     Done (by_status eng (status (answer_of c st)) [LInt (out_int (answer_of c st))])
          (called c st))
  /\ (let c := Mdb_env_set_mapsize NULL (CInt.to_size_t n) in
      lmdb_set_property [LUserdata l; LStr "mapsize"; LInt n] st =
        Done (by_status eng (status (answer_of c st)) [LUserdata l]) (called c st))
  /\ (let c := Mdb_txn_begin NULL NULL 0 in
      exists res st' evs,
        lmdb_txn_begin [LUserdata l] st = Done res st'
        /\ trace st' = (trace st ++ EvNative c (answer_of c st) :: evs)%list).
Proof.
  intros H Hn. apply is_null_true in Hn.
  split; [| split].
  - unfold lmdb_reader_check, bind. enter H. enter H. rewrite Hn. native_step.
    cbv beta iota zeta. unfold by_status. by destruct (status _ =? MDB_SUCCESS)%Z.
  - assert (Hc : c_str "mapsize" = "mapsize") by reflexivity.
    unfold lmdb_set_property, bind. enter H. enter H.
    unfold luaL_checkstring, luaL_checklstring, luaL_checkany, luaL_checkinteger, bind.
    cbn [arg lookup list_lookup ret check_integer]. rewrite Hc, Hn. literal_eqb.
    rewrite call_native_run. cbv beta iota zeta. unfold by_status.
    by destruct (status _ =? MDB_SUCCESS)%Z.
  - pose proof (txn_begin_run st l e None None H) as Hrun.
    cbv zeta in Hrun. cbn [app default] in Hrun. rewrite Hn in Hrun.
    change (CInt.to_uint 0) with 0%Z in Hrun.
    rewrite Hrun by discriminate.
    destruct (status _ =? 0)%Z.
    + eexists _, _, [_]. split; [reflexivity |]. cbn [trace built].
      by rewrite <- app_assoc.
    + eexists _, _, []. split; [reflexivity |]. reflexivity.
Qed.

(** X9. [env:txn_begin(parent, flags)] hands the engine, as parent, the
    address of the parent's userdata block and not the [MDB_txn] pointer
    stored in it: the engine call does not depend on what the parent
    handle holds.  The flags are then read from argument 3, and only the
    environment is anchored in the registry, not the parent. *)
Theorem nested_begin_passes_wrapper (st : State) le e lp t n :
  holds st le LUA_LMDB_ENV (BEnv e) ->
  holds st lp LUA_LMDB_TXN (BTxn t) ->
  let c := Mdb_txn_begin (env_env e) (Block lp) (CInt.to_uint n) in
  let r := answer_of c st in
  lmdb_txn_begin [LUserdata le; LUserdata lp; LInt n] st =
    if (status r =? 0)%Z
    then Done [LUserdata (length (heap st))]
           (built st c {| meta := Some LUA_LMDB_TXN;
                          body := BTxn {| txn_txn := out_ptr r;
                                          txn_env_ref := fresh_ref (registry st) |} |}
              (Some (LUserdata le)))
    else Done (failure eng (status r))
           (built st c {| meta := None;
                          body := BTxn {| txn_txn := out_ptr r; txn_env_ref := junk_int rt |} |}
              None).
Proof.
  intros H Ht.
  apply (txn_begin_run st le e (Some lp) (Some n) H).
  intros lp' [= <-]. by exists t.
Qed.

Lemma txn_abort_live (st : State) l p ref :
  holds st l LUA_LMDB_TXN (BTxn {| txn_txn := p; txn_env_ref := ref |}) ->
  is_null p = false -> (0 <= ref)%Z ->
  lmdb_txn_abort [LUserdata l] st = Done [] (released l ref (called (Mdb_txn_abort p) st)).
Proof.
  intros H Hn Href. unfold lmdb_txn_abort, bind. enter H. enter H. native_step.
  cbn [txn_txn].
  by rewrite (txn_close_live _ l p ref (holds_called _ st l _ _ H) Hn Href).
Qed.

(** X10. [txn:abort()] on a transaction just begun (the engine having
    handed out a non-null pointer) calls [mdb_txn_abort] once on that
    pointer and drops the reference [begin] took: the registry is what it
    was before [begin], the handle holds the null pointer and
    [LUA_NOREF], and no other block has changed. *)
Theorem begin_abort_restores_registry (st st1 : State) le rest lt :
  lmdb_txn_begin (LUserdata le :: rest) st = Done [LUserdata lt] st1 ->
  (forall t, holds st1 lt LUA_LMDB_TXN (BTxn t) -> is_null (txn_txn t) = false) ->
  exists p ref st2,
    holds st1 lt LUA_LMDB_TXN (BTxn {| txn_txn := p; txn_env_ref := ref |})
    /\ lmdb_txn_abort [LUserdata lt] st1 = Done [] st2
    /\ registry st2 = registry st
    /\ trace st2 =
         (trace st1 ++ [EvNative (Mdb_txn_abort p) (answer_of (Mdb_txn_abort p) st1);
                        EvUnref ref])%list
    /\ holds st2 lt LUA_LMDB_TXN (BTxn {| txn_txn := NULL; txn_env_ref := LUA_NOREF |})
    /\ (forall l', l' <> lt -> heap st2 !! l' = heap st1 !! l').
Proof.
  intros Hbegin Hlive.
  apply txn_begin_inv in Hbegin as (le' & e & parent & flags & Harg & He & Hb).
  cbv zeta in Hb.
  set (cb := Mdb_txn_begin (env_env e) parent flags) in *.
  destruct (status (answer_of cb st) =? 0)%Z; destruct Hb as [Hres ->]; [| discriminate Hres].
  injection Hres as ->.
  set (p := out_ptr (answer_of cb st)) in *.
  set (ref := fresh_ref (registry st)) in *.
  set (st1 := built st cb _ _) in *.
  assert (H1 : holds st1 (length (heap st)) LUA_LMDB_TXN
                 (BTxn {| txn_txn := p; txn_env_ref := ref |})).
  { unfold holds, st1, built. cbn [heap]. apply lookup_new_block. }
  pose proof (Hlive _ H1) as Hp. cbn [txn_txn] in Hp.
  assert (Href : (0 <= ref)%Z) by (pose proof (fresh_ref_pos (registry st)); unfold ref; lia).
  exists p, ref. eexists. split; [exact H1 |].
  split; [exact (txn_abort_live st1 _ p ref H1 Hp Href) |].
  split; [cbn [registry released]; rewrite registry_called; apply delete_fresh_insert |].
  split; [cbn [trace released]; rewrite trace_called; by rewrite <- app_assoc |].
  split.
  - apply holds_released. rewrite heap_called. unfold st1, built. cbn [heap].
    rewrite length_app. simpl. lia.
  - intros l' Hl'. cbn [heap released]. rewrite heap_called.
    by rewrite list_lookup_insert_ne.
Qed.

(** X11. When the engine refuses a [commit], the handle keeps its
    pointer and its anchor: nothing is cleared or released.  A following
    [txn:abort()] passes the same pointer to the engine once more and only
    then releases the anchor. *)
Theorem failed_commit_keeps_handle (st : State) l p ref :
  holds st l LUA_LMDB_TXN (BTxn {| txn_txn := p; txn_env_ref := ref |}) ->
  is_null p = false -> (0 <= ref)%Z ->
  let c := Mdb_txn_commit p in
  status (answer_of c st) <> 0%Z ->
  lmdb_txn_commit [LUserdata l] st = Done (failure eng (status (answer_of c st))) (called c st)
  /\ holds (called c st) l LUA_LMDB_TXN (BTxn {| txn_txn := p; txn_env_ref := ref |})
  /\ registry (called c st) = registry st
  /\ lmdb_txn_abort [LUserdata l] (called c st) =
       Done [] (released l ref (called (Mdb_txn_abort p) (called c st))).
Proof.
  intros H Hn Href c Hrc.
  split.
  - rewrite (txn_commit_live st l p ref H Hn Href). cbv zeta. fold c.
    by destruct (Z.eqb_spec (status (answer_of c st)) 0).
  - split; [exact H |]. split; [reflexivity |].
    exact (txn_abort_live (called c st) l p ref H Hn Href).
Qed.

End Transactions.

(** ** Tables *)

Section Tables.

Context {eng : Engine} {rt : Runtime}.

Local Abbreviation State := (lua_State eng rt).

Lemma check_udata_holds (st : State) l i tname b :
  holds st l tname b -> check_udata (Some (LUserdata l)) i tname st = Done l st.
Proof.
  intros H. unfold check_udata, bind, read_block. unfold holds in H. rewrite H.
  cbn [meta]. by rewrite decide_True.
Qed.

Lemma rawgeti_run (st : State) r :
  lua_rawgeti r st = Done (default LNil (registry st !! r)) st.
Proof. reflexivity. Qed.

(** X12. [dbi:close()] on a table whose identifier is not 0 looks up the
    transaction it anchors.  If that transaction is still live, the
    environment the transaction anchors is looked up too and
    [mdb_dbi_close] is called with the environment's pointer; if the
    transaction has ended, the engine is not called.  Either way the
    identifier is cleared, the anchor of the transaction is dropped once
    and no other block changes. *)
Theorem dbi_close_live (st : State) l d lt t le e :
  holds st l LUA_LMDB_DBI (BDbi d) ->
  dbi_dbi d <> 0%Z ->
  (0 <= dbi_txn_ref d)%Z ->
  registry st !! dbi_txn_ref d = Some (LUserdata lt) ->
  holds st lt LUA_LMDB_TXN (BTxn t) ->
  (is_null (txn_txn t) = false ->
   registry st !! txn_env_ref t = Some (LUserdata le) /\ holds st le LUA_LMDB_ENV (BEnv e)) ->
  let c := Mdb_dbi_close (env_env e) (dbi_dbi d) in
  exists st',
    lmdb_dbi_close [LUserdata l] st = Done [] st'
    /\ heap st' =
         <[l := {| meta := Some LUA_LMDB_DBI;
                   body := BDbi {| dbi_dbi := 0; dbi_txn := dbi_txn d;
                                   dbi_txn_ref := LUA_NOREF |} |}]> (heap st)
    /\ registry st' = delete (dbi_txn_ref d) (registry st)
    /\ trace st' =
         (trace st ++ (if is_null (txn_txn t) then [] else [EvNative c (answer_of c st)]) ++
            [EvUnref (dbi_txn_ref d)])%list.
Proof.
  intros H Hd Href Hreg Ht Henv c.
  pose proof (lookup_lt_Some _ _ _ H) as Hlt.
  unfold lmdb_dbi_close, bind. enter H. enter H.
  destruct (Z.eqb_spec (dbi_dbi d) 0) as [E | _]; [done |].
  rewrite rawgeti_run, Hreg. cbn [default].
  rewrite (check_udata_holds st lt _ _ _ Ht), (load_txn_holds _ _ _ _ Ht).
  apply Z.leb_le in Href.
  destruct (is_null (txn_txn t)) eqn:En.
  - unfold ret, write_body, luaL_unref. unfold holds in H. rewrite H. cbn [meta heap set_heap].
    rewrite Href. cbn [heap log set_registry set_heap].
    rewrite list_lookup_insert_eq by done. cbn [meta].
    rewrite list_insert_insert_eq.
    eexists. split; [reflexivity |]. split; [reflexivity |]. split; reflexivity.
  - destruct (Henv eq_refl) as [Hreg' He].
    rewrite rawgeti_run, Hreg'. cbn [default].
    rewrite (check_udata_holds st le _ _ _ He), (load_env_holds _ _ _ _ He).
    rewrite call_native_run. fold c.
    unfold ret, write_body, luaL_unref. rewrite heap_called.
    unfold holds in H. rewrite H. cbn [meta heap set_heap].
    rewrite Href. cbn [heap log set_registry set_heap].
    rewrite list_lookup_insert_eq by (by rewrite ?heap_called).
    cbn [meta]. rewrite list_insert_insert_eq.
    eexists. split; [reflexivity |]. split; [reflexivity |].
    split; [reflexivity |]. cbn [trace log set_registry set_heap]. rewrite trace_called.
    by rewrite <- app_assoc.
Qed.

(** X13. A key or value that is neither a string nor a number is an
    argument error raised before the engine is called: nothing is
    written, nothing is logged. *)
Theorem bad_key_raises_before_engine (st : State) l d rest :
  holds st l LUA_LMDB_DBI (BDbi d) ->
  let args := LUserdata l :: rest in
  let e := Raise (LStr "bad argument (string expected)") st in
  (no_string_at args 2 -> lmdb_get args st = e /\ lmdb_del args st = e)
  /\ (no_string_at args 2 \/ no_string_at args 3 ->
      lmdb_put args st = e /\ lmdb_cmp args st = e /\ lmdb_dcmp args st = e).
Proof.
  intros H args e. subst args e.
  set (args := LUserdata l :: rest).
  assert (Hbad : forall i, no_string_at args i ->
            lmdb_checkvalue args i st = Raise (LStr "bad argument (string expected)") st).
  { intros i Hi. unfold lmdb_checkvalue, bind, luaL_checklstring. unfold no_string_at in Hi.
    destruct (arg args i) as [[| | | | | |] |]; try done. }
  assert (Hgood : forall i, ~ no_string_at args i ->
            exists s, lmdb_checkvalue args i st = Done (whole s) st).
  { intros i Hi. unfold lmdb_checkvalue, bind, luaL_checklstring. unfold no_string_at in Hi.
    destruct (arg args i) as [[| | | | | |] |]; try (by destruct Hi); eexists; reflexivity. }
  assert (Hdec : forall i, no_string_at args i \/ ~ no_string_at args i).
  { intros i. unfold no_string_at. destruct (arg args i) as [[| | | | | |] |]; tauto. }
  split.
  - intros H2. split.
    + unfold lmdb_get, bind. unfold args at 1. enter H. enter H. by rewrite (Hbad _ H2).
    + unfold lmdb_del, bind. unfold args at 1. enter H. enter H. by rewrite (Hbad _ H2).
  - intros H23.
    assert (Hpair : forall (k : MDB_val -> MDB_val -> lua_State eng rt -> result eng rt (list lval)),
               match lmdb_checkvalue args 2 st with
               | Done a st' =>
                   match lmdb_checkvalue args 3 st' with
                   | Done b st'' => k a b st''
                   | Raise e' st'' => Raise e' st''
                   | Fault st'' => Fault st''
                   end
               | Raise e' st' => Raise e' st'
               | Fault st' => Fault st'
               end = Raise (LStr "bad argument (string expected)") st).
    { intros k. destruct (Hdec 2%nat) as [H2 | H2].
      - by rewrite (Hbad _ H2).
      - destruct (Hgood _ H2) as [s ->]. destruct H23 as [H2' | H3]; [done |].
        by rewrite (Hbad _ H3). }
    split; [| split].
    + unfold lmdb_put, bind. unfold args at 1. enter H. enter H. apply Hpair.
    + unfold lmdb_cmp, bind. unfold args at 1. enter H. enter H. apply Hpair.
    + unfold lmdb_dcmp, bind. unfold args at 1. enter H. enter H. apply Hpair.
Qed.

(** X14. A number given as key or value is the string Lua converts it
    to: [dbi:put(n, m)], [dbi:get(n)] and [dbi:del(n)] are the same
    computations as with the converted strings. *)
Theorem numbers_are_converted_to_strings (st : State) (self : lval) (n m : Z) rest :
  lmdb_put (self :: LInt n :: LInt m :: rest) st =
    lmdb_put (self :: LStr (int2str rt n) :: LStr (int2str rt m) :: rest) st
  /\ lmdb_get (self :: LInt n :: rest) st = lmdb_get (self :: LStr (int2str rt n) :: rest) st
  /\ lmdb_del (self :: LInt n :: rest) st = lmdb_del (self :: LStr (int2str rt n) :: rest) st.
Proof. split; [reflexivity |]. split; reflexivity. Qed.

(** X15. [dbi:drop] reads its argument as an integer: left out it is 0
    (the table is emptied), an integer is passed on cut to an [int], and a
    boolean is an argument error that does not reach the engine. *)
Theorem drop_takes_an_integer (st : State) l d :
  holds st l LUA_LMDB_DBI (BDbi d) ->
  (forall b, lmdb_dbi_drop [LUserdata l; LBool b] st =
               Raise (LStr "bad argument (number expected)") st)
  /\ (let c := Mdb_drop (dbi_txn d) (dbi_dbi d) 0 in
      lmdb_dbi_drop [LUserdata l] st =
        Done (by_status eng (status (answer_of c st)) [LUserdata l]) (called c st))
  /\ (forall n, let c := Mdb_drop (dbi_txn d) (dbi_dbi d) (CInt.to_int n) in
        lmdb_dbi_drop [LUserdata l; LInt n] st =
          Done (by_status eng (status (answer_of c st)) [LUserdata l]) (called c st)).
Proof.
  intros H. split; [| split].
  - intros b. unfold lmdb_dbi_drop, bind. enter H. enter H. reflexivity.
  - unfold lmdb_dbi_drop, bind. enter H. enter H.
    unfold luaL_optinteger, opt_integer. cbn [arg lookup list_lookup ret].
    change (CInt.to_int 0) with 0%Z. rewrite call_native_run.
    cbv beta iota zeta. unfold by_status. by destruct (status _ =? MDB_SUCCESS)%Z.
  - intros n. unfold lmdb_dbi_drop, bind. enter H. enter H.
    unfold luaL_optinteger, opt_integer. cbn [arg lookup list_lookup ret check_integer].
    rewrite call_native_run.
    cbv beta iota zeta. unfold by_status. by destruct (status _ =? MDB_SUCCESS)%Z.
Qed.

End Tables.

(** ** Cursors *)

Section Cursors.

Context {eng : Engine} {rt : Runtime}.

Local Abbreviation State := (lua_State eng rt).

Lemma cursor_close_live (st : State) l p ref :
  holds st l LUA_LMDB_CURSOR (BCursor {| cursor_cursor := p; cursor_dbi_ref := ref |}) ->
  is_null p = false -> (0 <= ref)%Z ->
  lmdb_cursor_close [LUserdata l] st =
    Done []
      (set_heap (<[l := {| meta := Some LUA_LMDB_CURSOR;
                           body := BCursor {| cursor_cursor := NULL;
                                              cursor_dbi_ref := LUA_NOREF |} |}]> (heap st))
         (log (EvUnref ref)
            (set_registry (delete ref (registry st)) (called (Mdb_cursor_close p) st)))).
Proof.
  intros H Hn Href. unfold lmdb_cursor_close, bind. enter H. enter H.
  cbn [cursor_cursor cursor_dbi_ref]. rewrite Hn. native_step.
  apply Z.leb_le in Href. unfold luaL_unref, write_body, ret. rewrite Href.
  cbn [heap log set_registry]. rewrite heap_called. unfold holds in H. rewrite H.
  reflexivity.
Qed.

Lemma cursor_dbi_run (st : State) l c :
  holds st l LUA_LMDB_CURSOR (BCursor c) ->
  lmdb_cursor_dbi [LUserdata l] st =
    if is_null (cursor_cursor c) then Done [] st
    else Done [default LNil (registry st !! cursor_dbi_ref c)] st.
Proof.
  intros H. unfold lmdb_cursor_dbi, bind. enter H. enter H.
  by destruct (is_null (cursor_cursor c)).
Qed.

(** X16. [cursor:close()] on a cursor just opened (the engine having
    handed out a non-null pointer) calls [mdb_cursor_close] once on that
    pointer and drops the reference [cursor_open] took for the table: the
    registry is what it was before [cursor_open].  The handle then holds
    the null pointer and [LUA_NOREF], and a second [close] does nothing. *)
Theorem cursor_open_close_restores_registry (st st1 : State) ld rest lc :
  lmdb_cursor_open (LUserdata ld :: rest) st = Done [LUserdata lc] st1 ->
  (forall c, holds st1 lc LUA_LMDB_CURSOR (BCursor c) -> is_null (cursor_cursor c) = false) ->
  exists p ref st2,
    holds st1 lc LUA_LMDB_CURSOR (BCursor {| cursor_cursor := p; cursor_dbi_ref := ref |})
    /\ registry st1 = <[ref := LUserdata ld]> (registry st)
    /\ lmdb_cursor_close [LUserdata lc] st1 = Done [] st2
    /\ registry st2 = registry st
    /\ trace st2 =
         (trace st1 ++ [EvNative (Mdb_cursor_close p) (answer_of (Mdb_cursor_close p) st1);
                        EvUnref ref])%list
    /\ holds st2 lc LUA_LMDB_CURSOR
         (BCursor {| cursor_cursor := NULL; cursor_dbi_ref := LUA_NOREF |})
    /\ lmdb_cursor_close [LUserdata lc] st2 = Done [] st2.
Proof.
  intros Hopen Hlive.
  apply cursor_open_inv in Hopen as (ld' & d & Harg & Hd & Hb).
  cbv zeta in Hb. cbn [arg lookup list_lookup] in Harg. injection Harg as <-.
  set (co := Mdb_cursor_open (dbi_txn d) (dbi_dbi d)) in *.
  destruct (status (answer_of co st) =? 0)%Z; destruct Hb as [Hres ->]; [| discriminate Hres].
  injection Hres as ->.
  set (p := out_ptr (answer_of co st)) in *.
  set (ref := fresh_ref (registry st)) in *.
  set (st1 := built st co _ _) in *.
  assert (H1 : holds st1 (length (heap st)) LUA_LMDB_CURSOR
                 (BCursor {| cursor_cursor := p; cursor_dbi_ref := ref |})).
  { unfold holds, st1, built. cbn [heap]. apply lookup_new_block. }
  pose proof (Hlive _ H1) as Hp. cbn [cursor_cursor] in Hp.
  assert (Href : (0 <= ref)%Z) by (pose proof (fresh_ref_pos (registry st)); unfold ref; lia).
  assert (Hlen : (length (heap st) < length (heap st1))%nat).
  { unfold st1, built. cbn [heap]. rewrite length_app. simpl. lia. }
  exists p, ref. eexists. split; [exact H1 |].
  split; [reflexivity |].
  split; [exact (cursor_close_live st1 _ p ref H1 Hp Href) |].
  split; [cbn [registry log set_heap set_registry]; apply delete_fresh_insert |].
  split; [cbn [trace log set_heap set_registry]; rewrite trace_called; by rewrite <- app_assoc |].
  assert (H2 : holds (set_heap
                        (<[length (heap st) :=
                             {| meta := Some LUA_LMDB_CURSOR;
                                body := BCursor {| cursor_cursor := NULL;
                                                   cursor_dbi_ref := LUA_NOREF |} |}]> (heap st1))
                        (log (EvUnref ref)
                           (set_registry (delete ref (registry st1))
                              (called (Mdb_cursor_close p) st1))))
                 (length (heap st)) LUA_LMDB_CURSOR
                 (BCursor {| cursor_cursor := NULL; cursor_dbi_ref := LUA_NOREF |})).
  { unfold holds. cbn [heap set_heap]. by rewrite list_lookup_insert_eq. }
  split; [exact H2 |].
  exact (cursor_close_dead _ _ _ H2 eq_refl).
Qed.

(** X17. A cursor knows where it came from: after [dbi:cursor_open()]
    succeeded, [cursor:dbi()] returns the table handle the cursor was
    opened on and [cursor:txn()] the value that table anchors, its
    transaction; neither calls the engine or changes anything.
    [cursor:renew()] renews the cursor in the transaction pointer that
    table copied when it was opened. *)
Theorem cursor_knows_its_table (st st1 : State) ld d vt rest lc :
  holds st ld LUA_LMDB_DBI (BDbi d) ->
  registry st !! dbi_txn_ref d = Some vt ->
  lmdb_cursor_open (LUserdata ld :: rest) st = Done [LUserdata lc] st1 ->
  (forall c, holds st1 lc LUA_LMDB_CURSOR (BCursor c) -> is_null (cursor_cursor c) = false) ->
  lmdb_cursor_dbi [LUserdata lc] st1 = Done [LUserdata ld] st1
  /\ lmdb_cursor_txn [LUserdata lc] st1 = Done [vt] st1
  /\ exists p,
       holds st1 lc LUA_LMDB_CURSOR
         (BCursor {| cursor_cursor := p; cursor_dbi_ref := fresh_ref (registry st) |})
       /\ let c := Mdb_cursor_renew (dbi_txn d) p in
          lmdb_cursor_renew [LUserdata lc] st1 =
            Done (by_status eng (status (answer_of c st1)) [LUserdata lc]) (called c st1).
Proof.
  intros Hd Hvt Hopen Hlive.
  apply cursor_open_inv in Hopen as (ld' & d' & Harg & Hd' & Hb).
  cbv zeta in Hb. cbn [arg lookup list_lookup] in Harg. injection Harg as <-.
  unfold holds in Hd, Hd'. rewrite Hd in Hd'. injection Hd' as <-.
  set (co := Mdb_cursor_open (dbi_txn d) (dbi_dbi d)) in *.
  destruct (status (answer_of co st) =? 0)%Z; destruct Hb as [Hres ->]; [| discriminate Hres].
  injection Hres as ->.
  set (p := out_ptr (answer_of co st)) in *.
  set (ref := fresh_ref (registry st)) in *.
  set (st1 := built st co _ _) in *.
  assert (H1 : holds st1 (length (heap st)) LUA_LMDB_CURSOR
                 (BCursor {| cursor_cursor := p; cursor_dbi_ref := ref |})).
  { unfold holds, st1, built. cbn [heap]. apply lookup_new_block. }
  pose proof (Hlive _ H1) as Hp. cbn [cursor_cursor] in Hp.
  assert (Hreg : registry st1 !! ref = Some (LUserdata ld)).
  { unfold st1, built. cbn [registry]. apply lookup_insert_eq. }
  assert (Hreg' : registry st1 !! dbi_txn_ref d = Some vt).
  { unfold st1, built. cbn [registry]. rewrite lookup_insert_ne; [done |].
    intros E. rewrite <- E in Hvt. unfold ref in Hvt. by rewrite fresh_ref_unused in Hvt. }
  assert (Hd1 : holds st1 ld LUA_LMDB_DBI (BDbi d)).
  { unfold holds, st1, built. cbn [heap]. rewrite lookup_app_l; [done |].
    by apply lookup_lt_Some in Hd. }
  split; [| split].
  - rewrite (cursor_dbi_run st1 _ _ H1). cbn [cursor_cursor cursor_dbi_ref].
    by rewrite Hp, Hreg.
  - unfold lmdb_cursor_txn, bind. enter H1. enter H1. cbn [cursor_dbi_ref].
    rewrite rawgeti_run, Hreg. cbn [default deref_dbi id].
    rewrite (load_dbi_holds _ _ _ _ Hd1), rawgeti_run, Hreg'. reflexivity.
  - exists p. split; [exact H1 |]. cbv zeta.
    unfold lmdb_cursor_renew, bind. enter H1. enter H1. cbn [cursor_cursor cursor_dbi_ref].
    rewrite Hp, rawgeti_run, Hreg. cbn [default deref_dbi id].
    rewrite (load_dbi_holds _ _ _ _ Hd1), call_native_run.
    cbv beta iota zeta. unfold by_status. by destruct (status _ =? MDB_SUCCESS)%Z.
Qed.

(** X18. On a closed cursor [cursor:dbi()] and [cursor:renew()] return
    nothing and touch nothing, while [cursor:txn()], which does not test
    the pointer, reads the registry at the stale reference, gets [nil]
    and dereferences the null pointer [lua_touserdata] gives for it. *)
Theorem closed_cursor_accessors (st : State) l ref :
  holds st l LUA_LMDB_CURSOR (BCursor {| cursor_cursor := NULL; cursor_dbi_ref := ref |}) ->
  registry st !! ref = None ->
  lmdb_cursor_dbi [LUserdata l] st = Done [] st
  /\ lmdb_cursor_renew [LUserdata l] st = Done [] st
  /\ lmdb_cursor_txn [LUserdata l] st = Fault st.
Proof.
  intros H Hreg. split; [| split].
  - by rewrite (cursor_dbi_run st l _ H).
  - unfold lmdb_cursor_renew, bind. enter H. enter H. reflexivity.
  - unfold lmdb_cursor_txn, bind. enter H. enter H. cbn [cursor_dbi_ref].
    rewrite rawgeti_run, Hreg. reflexivity.
Qed.

End Cursors.

(** ** Class tables in general *)

Lemma fold_register_it (fs : list luaL_Reg) (t : class_tables) (key : string) :
  starts_with_underscore key = false ->
  it (fold_left register_method fs t) !! key =
    match last (filter (fun r => name r = key) fs) with
    | Some r => Some (SFunction (func r))
    | None => it t !! key
    end.
Proof.
  intros Hkey. revert t. induction fs as [| r fs IH]; intros t; [done |].
  cbn [fold_left]. rewrite IH. rewrite filter_cons.
  destruct (decide (name r = key)) as [E | E].
  - rewrite last_cons. destruct (last (filter _ fs)); [done |].
    unfold register_method. rewrite E, Hkey. cbn [it]. by rewrite lookup_insert_eq.
  - destruct (last (filter _ fs)); [done |].
    unfold register_method. destruct (starts_with_underscore (name r)); cbn [it]; [done |].
    by rewrite lookup_insert_ne.
Qed.

Lemma fold_register_mt (fs : list luaL_Reg) (t : class_tables) (key : string) :
  starts_with_underscore key = true ->
  mt (fold_left register_method fs t) !! key =
    match last (filter (fun r => name r = key) fs) with
    | Some r => Some (SFunction (func r))
    | None => mt t !! key
    end
  /\ it (fold_left register_method fs t) !! key = it t !! key.
Proof.
  intros Hkey. revert t. induction fs as [| r fs IH]; intros t; [done |].
  cbn [fold_left]. destruct (IH (register_method t r)) as [IH1 IH2].
  rewrite IH1, IH2. rewrite filter_cons.
  destruct (decide (name r = key)) as [E | E].
  - rewrite last_cons. unfold register_method. rewrite E, Hkey. cbn [it mt].
    split; [| done]. destruct (last (filter _ fs)); [done |]. by rewrite lookup_insert_eq.
  - unfold register_method.
    destruct (starts_with_underscore (name r)) eqn:Er; cbn [it mt].
    + split; [| done]. destruct (last (filter _ fs)); [done |]. by rewrite lookup_insert_ne.
    + split; [done |]. rewrite lookup_insert_ne; [done |].
      intros E'. rewrite E' in Er. congruence.
Qed.

(** X19. In the class [auxiliar_newclass] builds from any registration
    array, a method name leads to the function of the last entry of that
    name; the name [class] leads to the class name unless an entry took it.
    Names that start with an underscore live in the metatable only, where
    again the last entry wins, except that [__index] always is the index
    table. *)
Theorem newclass_last_registration_wins (cls : string) (fs : list luaL_Reg) (key : string) :
  let t := auxiliar_newclass cls fs in
  let regs := filter (fun r => name r = key) fs in
  if starts_with_underscore key
  then it t !! key = None
       /\ mt t !! key = (if decide (key = "__index") then Some SIndex
                         else (fun r => SFunction (func r)) <$> last regs)
  else index_method t key =
         match last regs with
         | Some r => Some (SFunction (func r))
         | None => if decide (key = "class") then Some (SString cls) else None
         end.
Proof.
  intros t regs. unfold t, regs, auxiliar_newclass. clear t regs.
  destruct (starts_with_underscore key) eqn:Hkey.
  - cbn [it mt].
    destruct (fold_register_mt fs {| mt := ∅; it := {[ "class" := SString cls ]} |} key Hkey)
      as [Hmt Hit].
    split.
    + rewrite Hit. cbn [it]. apply lookup_singleton_ne. intros <-. discriminate Hkey.
    + destruct (decide (key = "__index")) as [-> | Hne].
      * by rewrite lookup_insert_eq.
      * rewrite lookup_insert_ne by done. rewrite Hmt. cbn [mt].
        destruct (last (filter _ fs)); [done |]. by rewrite lookup_empty.
  - unfold index_method. cbn [it mt]. rewrite lookup_insert_eq.
    rewrite (fold_register_it fs _ key Hkey). cbn [it].
    destruct (last (filter _ fs)); [done |].
    destruct (decide (key = "class")) as [-> | Hne].
    + by rewrite lookup_singleton_eq.
    + by rewrite lookup_singleton_ne.
Qed.

(** X20. Of the four classes only tables and cursors have a [__gc]
    entry in their metatable, [lmdb_dbi_close] and [lmdb_cursor_close]:
    an environment or transaction handle that is collected is not closed. *)
Theorem gc_only_for_tables_and_cursors (tname : string) (t : class_tables) :
  luaopen_lmdb !! tname = Some t ->
  mt t !! "__gc" =
    if decide (tname = LUA_LMDB_DBI) then Some (SFunction c_lmdb_dbi_close)
    else if decide (tname = LUA_LMDB_CURSOR) then Some (SFunction c_lmdb_cursor_close)
    else None.
Proof.
  unfold luaopen_lmdb. intros H.
  destruct (decide (tname = LUA_LMDB_CURSOR)) as [-> | H1].
  { rewrite lookup_insert_eq in H. injection H as <-. reflexivity. }
  rewrite lookup_insert_ne in H by done.
  destruct (decide (tname = LUA_LMDB_DBI)) as [-> | H2].
  { rewrite lookup_insert_eq in H. injection H as <-. reflexivity. }
  rewrite lookup_insert_ne in H by done.
  destruct (decide (tname = LUA_LMDB_TXN)) as [-> | H3].
  { rewrite lookup_insert_eq in H. injection H as <-. reflexivity. }
  rewrite lookup_insert_ne in H by done.
  destruct (decide (tname = LUA_LMDB_ENV)) as [-> | H4].
  { rewrite lookup_insert_eq in H. injection H as <-. reflexivity. }
  rewrite lookup_insert_ne in H by done. by rewrite lookup_empty in H.
Qed.

Section Strings.

Context {eng : Engine} {rt : Runtime}.

Local Abbreviation State := (lua_State eng rt).

(** X21. [__tostring] on a handle of one of the four classes gives the
    class name, a colon and the address of the block; on a userdata
    without metatable (what a failed constructor leaves), or with another
    one, it raises. *)
Theorem tostring_names_the_class (st : State) l u rest :
  heap st !! l = Some u ->
  auxiliar_tostring (LUserdata l :: rest) st =
    match meta u with
    | Some tname =>
        if bool_decide (tname ∈ [LUA_LMDB_ENV; LUA_LMDB_TXN; LUA_LMDB_DBI; LUA_LMDB_CURSOR])
        then Done [LStr (tname ++ ": " ++ fmt_ptr rt l)] st
        else Raise (LStr "invalid object passed to 'auxiliar.c:__tostring'") st
    | None => Raise (LStr "invalid object passed to 'auxiliar.c:__tostring'") st
    end.
Proof.
  intros H. unfold auxiliar_tostring, bind, read_block. cbn [arg lookup list_lookup].
  rewrite H. destruct (meta u) as [tname |]; [| reflexivity].
  unfold luaopen_lmdb.
  destruct (decide (tname = LUA_LMDB_CURSOR)) as [-> | H1]; [reflexivity |].
  rewrite lookup_insert_ne by done.
  destruct (decide (tname = LUA_LMDB_DBI)) as [-> | H2]; [reflexivity |].
  rewrite lookup_insert_ne by done.
  destruct (decide (tname = LUA_LMDB_TXN)) as [-> | H3]; [reflexivity |].
  rewrite lookup_insert_ne by done.
  destruct (decide (tname = LUA_LMDB_ENV)) as [-> | H4]; [reflexivity |].
  rewrite lookup_insert_ne by done. rewrite lookup_empty.
  rewrite bool_decide_eq_false_2; [reflexivity |].
  intros Hin. repeat (apply elem_of_cons in Hin as [E | Hin]; [congruence |]).
  by apply elem_of_nil in Hin.
Qed.

(** X22. [lmdb.strerror(n)] gives the message that stands in the failure
    result for code [n], for every [n] an [int] can hold; a larger
    integer is cut to 32 bits first, so [n] and [n + 2^32] give the same
    message. *)
Theorem strerror_matches_failure (st : State) (n : Z) :
  lmdb_strerror [LInt (n + 2 ^ 32)] st = lmdb_strerror [LInt n] st
  /\ ((- 2 ^ 31 <= n < 2 ^ 31)%Z ->
      exists msg, lmdb_strerror [LInt n] st = Done [msg] st
                  /\ failure eng n = [LNil; msg; LInt n]).
Proof.
  split.
  - unfold lmdb_strerror, bind, luaL_checkinteger. cbn [arg lookup list_lookup check_integer ret].
    assert (E : CInt.to_int (n + 2 ^ 32) = CInt.to_int n).
    { unfold CInt.to_int, CInt.to_signed. f_equal.
      replace (n + 2 ^ 32 + 2 ^ (32 - 1))%Z with (n + 2 ^ (32 - 1) + 1 * 2 ^ 32)%Z by lia.
      by rewrite Z.mod_add. }
    by rewrite E.
  - intros Hn. eexists. split; [| reflexivity].
    unfold lmdb_strerror, bind, luaL_checkinteger. cbn [arg lookup list_lookup check_integer ret].
    by rewrite to_int_small.
Qed.

End Strings.

(** ** Properties of every registered function *)

Create HintDb wrappers.

#[global] Hint Unfold lmdb_version lmdb_strerror lmdb_open lmdb_txn_begin lmdb_close lmdb_copy
  lmdb_sync lmdb_get_property lmdb_set_property lmdb_stat lmdb_info lmdb_reader_list
  lmdb_reader_check lmdb_txn_commit lmdb_txn_abort lmdb_txn_reset lmdb_txn_renew lmdb_txn_id
  lmdb_dbi_open lmdb_cmp lmdb_dcmp lmdb_put lmdb_del lmdb_get lmdb_dbi_stat lmdb_dbi_flags
  lmdb_dbi_drop lmdb_dbi_close lmdb_cursor_open lmdb_cursor_renew lmdb_cursor_close
  lmdb_cursor_dbi lmdb_cursor_txn lmdb_cursor_get lmdb_cursor_put lmdb_cursor_del
  lmdb_cursor_count : wrappers.

Section EveryFunction.

Context {eng : Engine} {rt : Runtime}.

Local Abbreviation State := (lua_State eng rt).
Local Abbreviation M := (M eng rt).

Lemma checkudata_foreign (st : State) l tname b cls rest :
  holds st l tname b -> tname <> cls ->
  luaL_checkudata (LUserdata l :: rest) 1 cls st =
    Raise (LStr ("bad argument (" ++ cls ++ " expected)")) st.
Proof.
  intros H Hne. unfold luaL_checkudata, check_udata, bind, read_block.
  cbn [arg lookup list_lookup]. unfold holds in H. rewrite H. cbn [meta].
  rewrite decide_False by congruence. reflexivity.
Qed.

(** X23. Every method of a class checks the class of the handle it is
    called on first: given a handle of another class, each function in the
    method array of a class ([__tostring] apart) raises the argument error
    naming the class it expects and leaves the state as it was. *)
Theorem methods_reject_foreign_handles (st : State) l tname b rest cls ms r :
  (cls, ms) ∈ registered_classes ->
  r ∈ ms ->
  func r <> c_auxiliar_tostring ->
  holds st l tname b ->
  tname <> cls ->
  run_cfunction (func r) (LUserdata l :: rest) st =
    Raise (LStr ("bad argument (" ++ cls ++ " expected)")) st.
Proof.
  intros Hc Hr Hf H Hne.
  pose proof (checkudata_foreign st l tname b cls rest H Hne) as Hchk.
  unfold registered_classes in Hc.
  repeat (apply elem_of_cons in Hc as [E | Hc];
          [injection E as -> ->;
           repeat (apply elem_of_cons in Hr as [-> | Hr];
                   [cbn [func] in *; try done;
                    unfold run_cfunction; autounfold with wrappers; unfold bind;
                    by rewrite Hchk |]);
           by apply elem_of_nil in Hr |]).
  by apply elem_of_nil in Hc.
Qed.

End EveryFunction.

(** ** Errors come before effects *)

Section ErrorsAreClean.

Context {eng : Engine} {rt : Runtime}.

Local Abbreviation State := (lua_State eng rt).
Local Abbreviation M := (M eng rt).

Lemma quiet_clean {A} (m : M A) : quiet m -> raises_clean m.
Proof. intros H st e st' E. specialize (H st). by rewrite E in H. Qed.

Lemma quiet_Done {A} (m : M A) st a st' : quiet m -> m st = Done a st' -> st' = st.
Proof. intros H E. specialize (H st). by rewrite E in H. Qed.

Lemma never_clean {A} (m : M A) : never_raises m -> raises_clean m.
Proof. intros H st e st' E. by destruct (H st e st'). Qed.

Lemma quiet_bind {A B} (m : M A) (k : A -> M B) :
  quiet m -> (forall a, quiet (k a)) -> quiet (bind m k).
Proof.
  intros Hm Hk st. unfold bind. specialize (Hm st).
  destruct (m st) as [a s | e s | s]; cbn [final_state] in *; [subst s; apply Hk | done | done].
Qed.

Lemma clean_bind {A B} (m : M A) (k : A -> M B) :
  quiet m -> (forall a, raises_clean (k a)) -> raises_clean (bind m k).
Proof.
  intros Hm Hk st e st'. unfold bind. specialize (Hm st).
  destruct (m st) as [a s | e' s | s]; cbn [final_state] in *;
    [subst s; apply Hk | by intros [= _ <-] | done].
Qed.

Lemma never_bind {A B} (m : M A) (k : A -> M B) :
  never_raises m -> (forall a, never_raises (k a)) -> never_raises (bind m k).
Proof.
  intros Hm Hk st e st'. unfold bind. specialize (Hm st).
  destruct (m st) as [a s | e' s | s]; [apply Hk | by destruct (Hm e' s) | done].
Qed.

Lemma clean_assoc {A B C} (m : M A) (f : A -> M B) (k : B -> M C) :
  raises_clean (bind m (fun x => bind (f x) k)) -> raises_clean (bind (bind m f) k).
Proof.
  intros H st e st' E. apply (H st e st'). revert E. unfold bind.
  by destruct (m st) as [a s | e' s | s].
Qed.

(** The argument checks. *)
Lemma quiet_ret {A} (a : A) : quiet (ret a : M A).
Proof. by intros st. Qed.

Lemma quiet_raise {A} msg : quiet (raise msg : M A).
Proof. by intros st. Qed.

Lemma quiet_read_block l : quiet (read_block l : M udata).
Proof. intros st. unfold read_block. by destruct (heap st !! l). Qed.

Lemma quiet_check_udata v i tname : quiet (check_udata v i tname : M loc).
Proof.
  unfold check_udata. destruct v as [[| | | | | l |] |]; try apply quiet_raise.
  apply quiet_bind; [apply quiet_read_block |].
  intros u. destruct (decide (meta u = Some tname)); [apply quiet_ret | apply quiet_raise].
Qed.

Lemma quiet_checkudata args i tname : quiet (luaL_checkudata args i tname : M loc).
Proof. apply quiet_check_udata. Qed.

Lemma quiet_load_env l : quiet (load_env l : M lmdb_env).
Proof. apply quiet_bind; [apply quiet_read_block |]. intros u st. by destruct (body u). Qed.

Lemma quiet_load_txn l : quiet (load_txn l : M lmdb_txn).
Proof. apply quiet_bind; [apply quiet_read_block |]. intros u st. by destruct (body u). Qed.

Lemma quiet_load_dbi l : quiet (load_dbi l : M lmdb_dbi).
Proof. apply quiet_bind; [apply quiet_read_block |]. intros u st. by destruct (body u). Qed.

Lemma quiet_load_cursor l : quiet (load_cursor l : M lmdb_cursor).
Proof. apply quiet_bind; [apply quiet_read_block |]. intros u st. by destruct (body u). Qed.

Lemma quiet_deref_dbi v : quiet (deref_dbi v : M lmdb_dbi).
Proof. destruct v; try (by intros st). apply quiet_load_dbi. Qed.

Lemma quiet_checkany args i : quiet (luaL_checkany args i : M unit).
Proof. unfold luaL_checkany. intros st. by destruct (arg args i). Qed.

Lemma quiet_checkfunction args i : quiet (luaL_checkfunction args i : M lval).
Proof. unfold luaL_checkfunction. intros st. by destruct (arg args i) as [[| | | | | |] |]. Qed.

Lemma quiet_checktable v i : quiet (luaL_checktable v i : M (list (string * lval))).
Proof. intros st. by destruct v as [[| | | | | |] |]. Qed.

Lemma quiet_check_integer v i : quiet (check_integer v i : M Z).
Proof.
  intros st. unfold check_integer.
  destruct v as [[| | | s | | |] |]; try done. by destruct (str2int rt s).
Qed.

Lemma quiet_opt_integer v i def : quiet (opt_integer v i def : M Z).
Proof.
  unfold opt_integer.
  destruct v as [[| | | | | |] |]; first [apply quiet_ret | apply quiet_check_integer].
Qed.

Lemma quiet_checkinteger args i : quiet (luaL_checkinteger args i : M Z).
Proof. apply quiet_check_integer. Qed.

Lemma quiet_optinteger args i def : quiet (luaL_optinteger args i def : M Z).
Proof. apply quiet_opt_integer. Qed.

Lemma quiet_checklstring args i : quiet (luaL_checklstring args i : M string).
Proof. unfold luaL_checklstring. intros st. by destruct (arg args i) as [[| | | | | |] |]. Qed.

Lemma quiet_checkstring args i : quiet (luaL_checkstring args i : M string).
Proof. apply quiet_bind; [apply quiet_checklstring | intros s; apply quiet_ret]. Qed.

Lemma quiet_optstring args i : quiet (luaL_optstring args i : M (option string)).
Proof.
  unfold luaL_optstring. destruct (lua_isnoneornil args i); [apply quiet_ret |].
  apply quiet_bind; [apply quiet_checkstring | intros s; apply quiet_ret].
Qed.

Lemma quiet_checkvalue args i : quiet (lmdb_checkvalue args i : M MDB_val).
Proof. apply quiet_bind; [apply quiet_checklstring | intros s; apply quiet_ret]. Qed.

Lemma quiet_rawgeti r : quiet (lua_rawgeti r : M lval).
Proof. by intros st. Qed.

(** The effects. *)
Lemma never_ret {A} (a : A) : never_raises (ret a : M A).
Proof. by intros st e st'. Qed.

Lemma never_quiet_load {A} (m : M A) :
  (forall st, match m st with Raise _ _ => False | _ => True end) -> never_raises m.
Proof. intros H st e st' E. specialize (H st). by rewrite E in H. Qed.

Lemma never_call_native c : never_raises (call_native c : M reply).
Proof. intros st e st'. by rewrite call_native_run. Qed.

Lemma never_newuserdata b : never_raises (lua_newuserdata b : M loc).
Proof. by intros st e st'. Qed.

Lemma never_write_body l b : never_raises (write_body l b : M unit).
Proof. intros st e st'. unfold write_body. by destruct (heap st !! l). Qed.

Lemma never_setmetatable l tname : never_raises (lua_setmetatable l tname : M unit).
Proof. intros st e st'. unfold lua_setmetatable. by destruct (heap st !! l). Qed.

Lemma never_ref v : never_raises (luaL_ref v : M Z).
Proof. intros st e st'. unfold luaL_ref. by destruct v. Qed.

Lemma never_unref r : never_raises (luaL_unref r : M unit).
Proof. intros st e st'. unfold luaL_unref. by destruct (0 <=? r)%Z. Qed.

Lemma never_rawgeti r : never_raises (lua_rawgeti r : M lval).
Proof. by intros st e st'. Qed.

Lemma never_pusherror rc : never_raises (lmdb_pusherror rc : M (list lval)).
Proof. by intros st e st'. Qed.

Lemma never_pcall f args : never_raises (lua_pcall f args : M (lval + list lval)).
Proof.
  intros st e st'. unfold lua_pcall. destruct f; try done.
  by destruct (lua_call rt f args (script st)).
Qed.

Lemma never_load_txn l : never_raises (load_txn l : M lmdb_txn).
Proof.
  intros st e st'. unfold load_txn, bind, read_block.
  destruct (heap st !! l) as [u |]; [| done]. by destruct (body u).
Qed.

Lemma never_msg ref msg : never_raises (lmdb_msg ref msg : M Z).
Proof.
  unfold lmdb_msg. apply never_bind; [apply never_rawgeti |]. intros f.
  apply never_bind; [apply never_pcall |]. by intros [e | vs] st e' st'.
Qed.

Lemma never_run_reader run (func : string -> M Z) :
  (forall msg, never_raises (func msg)) -> never_raises (run_reader run func).
Proof.
  intros Hf. induction run as [rc | msg k IH]; cbn [run_reader]; [apply never_ret |].
  apply never_bind; [apply Hf | intros rc; apply IH].
Qed.

Lemma never_txn_close l : never_raises (lmdb_txn_close l : M unit).
Proof.
  unfold lmdb_txn_close. apply never_bind; [apply never_load_txn |]. intros t.
  destruct (is_null (txn_txn t)); [apply never_ret |].
  apply never_bind; [apply never_write_body |]. intros _.
  apply never_bind; [apply never_unref |]. intros _. apply never_write_body.
Qed.

Lemma quiet_tostring args : quiet (auxiliar_tostring args : M (list lval)).
Proof.
  unfold auxiliar_tostring.
  destruct (arg args 1) as [[| | | | | l |] |]; try apply quiet_raise.
  apply quiet_bind; [apply quiet_read_block |]. intros u.
  destruct (meta u) as [tname |]; [| apply quiet_raise].
  destruct (luaopen_lmdb !! tname) as [t |]; [| apply quiet_raise].
  destruct (index_method t "class") as [[| |] |]; first [apply quiet_raise | apply quiet_ret].
Qed.

End ErrorsAreClean.

Create HintDb quiet.
Create HintDb never.

#[global] Hint Resolve quiet_ret quiet_raise quiet_read_block quiet_check_udata quiet_checkudata
  quiet_load_env quiet_load_txn quiet_load_dbi quiet_load_cursor quiet_deref_dbi quiet_checkany
  quiet_checkfunction quiet_checktable quiet_check_integer quiet_opt_integer quiet_checkinteger
  quiet_optinteger quiet_checklstring quiet_checkstring quiet_optstring quiet_checkvalue
  quiet_rawgeti : quiet.

#[global] Hint Resolve never_ret never_call_native never_newuserdata never_write_body
  never_setmetatable never_ref never_unref never_rawgeti never_pusherror never_pcall
  never_load_txn never_msg never_txn_close : never.

Ltac quiet_steps :=
  cbv beta zeta;
  lazymatch goal with
  | |- quiet (bind _ _) => apply quiet_bind; [quiet_steps | intros ?; quiet_steps]
  | |- quiet (if ?b then _ else _) => destruct b; quiet_steps
  | |- quiet _ => solve [eauto with quiet]
  end.

Ltac never_steps :=
  cbv beta zeta;
  lazymatch goal with
  | |- never_raises (bind _ _) => apply never_bind; [never_steps | intros ?; never_steps]
  | |- never_raises (if ?b then _ else _) => destruct b; never_steps
  | |- never_raises (run_reader _ _) => apply never_run_reader; intros ?; never_steps
  | |- never_raises _ => first [solve [eauto with never] | by intros ? ? ?]
  end.

Ltac clean_steps :=
  cbv beta zeta;
  lazymatch goal with
  | |- raises_clean (bind (if ?b then _ else _) _) => destruct b; clean_steps
  | |- raises_clean (bind (bind _ _) _) => apply clean_assoc; clean_steps
  | |- raises_clean (bind _ _) =>
      first [ apply clean_bind; [solve [quiet_steps] | intros ?; clean_steps]
            | apply never_clean; solve [never_steps] ]
  | |- raises_clean (if ?b then _ else _) => destruct b; clean_steps
  | |- raises_clean _ =>
      first [ apply quiet_clean; solve [quiet_steps] | apply never_clean; solve [never_steps] ]
  end.

Section ErrorsLeaveNoTrace.

Context {eng : Engine} {rt : Runtime}.

Local Abbreviation State := (lua_State eng rt).

(** X24. No registered function raises a Lua error after it has done
    anything: whenever one of them raises, on whatever arguments, the
    heap, the registry, the engine, the script world and the log are what
    they were when it was called.  All argument checks come before the
    first allocation, reference or engine call. *)
Theorem errors_leave_state_untouched (f : cfunction) (args : list lval) (st st' : State) e :
  run_cfunction f args st = Raise e st' -> st' = st.
Proof.
  revert st e st'. change (raises_clean (run_cfunction f args : M eng rt (list lval))).
  destruct f; cbn [run_cfunction]; try apply quiet_clean, quiet_tostring;
    autounfold with wrappers; [| clean_steps ..].
  destruct (mdb_version eng) as [version [[major minor] patch]]. clean_steps.
Qed.

End ErrorsLeaveNoTrace.

(** ** References taken and dropped *)

Section References.

Context {eng : Engine} {rt : Runtime}.

Local Abbreviation State := (lua_State eng rt).
Local Abbreviation M := (M eng rt).

Lemma final_bind {A B} (m : M A) (k : A -> M B) (st : State) :
  final_state (bind m k st) =
    match m st with
    | Done a st' => final_state (k a st')
    | Raise _ st' | Fault st' => st'
    end.
Proof. unfold bind. by destruct (m st). Qed.

Lemma shrink_quiet {A} (m : M A) : quiet m -> takes_no_reference m.
Proof. intros H st. by rewrite H. Qed.

Lemma shrink_bind {A B} (m : M A) (k : A -> M B) :
  takes_no_reference m -> (forall a, takes_no_reference (k a)) -> takes_no_reference (bind m k).
Proof.
  intros Hm Hk st. rewrite final_bind. specialize (Hm st).
  destruct (m st) as [a s | e s | s]; cbn [final_state] in Hm; [| done | done].
  etrans; [apply Hk | done].
Qed.

Lemma shrink_call_native c : takes_no_reference (call_native c : M reply).
Proof. intros st. by rewrite call_native_run. Qed.

Lemma shrink_newuserdata b : takes_no_reference (lua_newuserdata b : M loc).
Proof. by intros st. Qed.

Lemma shrink_write_body l b : takes_no_reference (write_body l b : M unit).
Proof. intros st. unfold write_body. by destruct (heap st !! l). Qed.

Lemma shrink_setmetatable l tname : takes_no_reference (lua_setmetatable l tname : M unit).
Proof. intros st. unfold lua_setmetatable. by destruct (heap st !! l). Qed.

Lemma shrink_unref r : takes_no_reference (luaL_unref r : M unit).
Proof.
  intros st. unfold luaL_unref. destruct (0 <=? r)%Z; [| done].
  cbn [final_state registry log set_registry]. apply delete_subseteq.
Qed.

Lemma shrink_pusherror rc : takes_no_reference (lmdb_pusherror rc : M (list lval)).
Proof. by intros st. Qed.

Lemma shrink_txn_close l : takes_no_reference (lmdb_txn_close l : M unit).
Proof.
  unfold lmdb_txn_close. apply shrink_bind; [apply shrink_quiet, quiet_load_txn |]. intros t.
  destruct (is_null (txn_txn t)); [by intros st |].
  apply shrink_bind; [apply shrink_write_body |]. intros _.
  apply shrink_bind; [apply shrink_unref |]. intros _. apply shrink_write_body.
Qed.

(** [env:reader_list] takes a reference for the callback and drops it
    again, whatever the arguments and whatever the callback does. *)
Lemma reader_list_registry args (st : State) :
  registry (final_state (lmdb_reader_list args st)) = registry st.
Proof.
  unfold lmdb_reader_list. rewrite final_bind.
  pose proof (quiet_checkudata args 1 LUA_LMDB_ENV st) as Q1.
  destruct (luaL_checkudata args 1 LUA_LMDB_ENV st) as [l s | e s | s];
    cbn [final_state] in Q1; subst s; [| done | done].
  rewrite final_bind.
  pose proof (quiet_load_env l st) as Q2.
  destruct (load_env l st) as [env s | e s | s]; cbn [final_state] in Q2; subst s; [| done | done].
  rewrite final_bind. unfold luaL_checkfunction.
  destruct (arg args 2) as [[| | | | | | f] |]; try reflexivity.
  unfold ret at 1. cbv beta iota.
  set (ref := fresh_ref (registry st)).
  set (st1 := log (EvReaderList (env_env env))
                (log (EvRef ref) (set_registry (<[ref := LFunction f]> (registry st)) st))).
  assert (Href : registry st1 !! ref = Some (LFunction f)) by apply lookup_insert_eq.
  destruct (run_reader_spec (mdb_reader_list eng (engine st) (env_env env)) st1 ref f Href)
    as (rc & mid & w & Hrun & _).
  unfold bind, luaL_ref. cbv beta iota zeta. fold ref. cbn [engine log set_registry]. fold st1.
  rewrite Hrun. cbv beta iota.
  unfold luaL_unref. unfold ref at 1. rewrite fresh_ref_leb. cbv beta iota.
  destruct (rc =? MDB_SUCCESS)%Z; cbn [final_state ret lmdb_pusherror registry log set_registry];
    apply delete_fresh_insert.
Qed.

End References.

Create HintDb shrink.

#[global] Hint Resolve shrink_call_native shrink_newuserdata shrink_write_body
  shrink_setmetatable shrink_unref shrink_pusherror shrink_txn_close : shrink.

Ltac shrink_steps :=
  cbv beta zeta;
  lazymatch goal with
  | |- takes_no_reference (bind _ _) =>
      apply shrink_bind; [shrink_steps | intros ?; shrink_steps]
  | |- takes_no_reference (if ?b then _ else _) => destruct b; shrink_steps
  | |- takes_no_reference _ =>
      first [ solve [eauto with shrink]
            | apply shrink_quiet; solve [quiet_steps]
            | by intros ? ]
  end.

Section ReferencesOfEveryFunction.

Context {eng : Engine} {rt : Runtime}.

Local Abbreviation State := (lua_State eng rt).

(** X25. Apart from the three constructors and [env:set], no registered
    function leaves a reference behind: however it ends (return, error or
    fault), the registry holds nothing it did not hold before the call. *)
Theorem only_constructors_take_references (f : cfunction) (args : list lval) (st : State) :
  anchors f = false ->
  registry (final_state (run_cfunction f args st)) ⊆ registry st.
Proof.
  intros Hf.
  destruct f; try discriminate Hf; cbn [run_cfunction];
    try (by rewrite reader_list_registry);
    try (by rewrite quiet_tostring);
    revert st;
    lazymatch goal with
    | |- forall st, registry (final_state (?m st)) ⊆ registry st =>
        change (takes_no_reference (m : M eng rt (list lval)))
    end;
    autounfold with wrappers; [| shrink_steps ..].
  destruct (mdb_version eng) as [version [[major minor] patch]]. shrink_steps.
Qed.

End ReferencesOfEveryFunction.

(** ** The typed heap *)

Section TypedHeap.

Context {eng : Engine} {rt : Runtime}.

Local Abbreviation State := (lua_State eng rt).
Local Abbreviation M := (M eng rt).

Lemma keeps_quiet {A} (m : M A) : quiet m -> keeps_heap m.
Proof. intros H st. by rewrite H. Qed.

Lemma keeps_bind {A B} (m : M A) (k : A -> M B) :
  keeps_heap m -> (forall a, keeps_heap (k a)) -> keeps_heap (bind m k).
Proof.
  intros Hm Hk st. rewrite final_bind. specialize (Hm st).
  destruct (m st) as [a s | e s | s]; cbn [final_state] in Hm; [| done | done].
  by rewrite Hk.
Qed.

Lemma keeps_call_native c : keeps_heap (call_native c : M reply).
Proof. intros st. by rewrite call_native_run. Qed.

Lemma keeps_ref v : keeps_heap (luaL_ref v : M Z).
Proof. intros st. unfold luaL_ref. by destruct v. Qed.

Lemma keeps_unref r : keeps_heap (luaL_unref r : M unit).
Proof. intros st. unfold luaL_unref. by destruct (0 <=? r)%Z. Qed.

Lemma keeps_pusherror rc : keeps_heap (lmdb_pusherror rc : M (list lval)).
Proof. by intros st. Qed.

Lemma keeps_pcall f args : keeps_heap (lua_pcall f args : M (lval + list lval)).
Proof.
  intros st. unfold lua_pcall. destruct f; try done.
  by destruct (lua_call rt f args (script st)).
Qed.

Lemma keeps_msg ref msg : keeps_heap (lmdb_msg ref msg : M Z).
Proof.
  unfold lmdb_msg. apply keeps_bind; [apply keeps_quiet, quiet_rawgeti |]. intros f.
  apply keeps_bind; [apply keeps_pcall |]. by intros [e | vs] st.
Qed.

Lemma keeps_run_reader run (func : string -> M Z) :
  (forall msg, keeps_heap (func msg)) -> keeps_heap (run_reader run func).
Proof.
  intros Hf. induction run as [rc | msg k IH]; cbn [run_reader]; [by intros st |].
  apply keeps_bind; [apply Hf | intros rc; apply IH].
Qed.

Lemma typed_keeps {A} l tname (m : M A) : keeps_heap m -> typed l tname m.
Proof. intros H st Hs Hw. by rewrite H. Qed.

Lemma typed_bind {A B} l tname (m : M A) (k : A -> M B) :
  typed l tname m -> (forall a, typed l tname (k a)) -> typed l tname (bind m k).
Proof.
  intros Hm Hk st Hs Hw. rewrite final_bind. specialize (Hm st Hs Hw).
  destruct (m st) as [a s | e s | s]; cbn [final_state] in Hm; [| done | done].
  destruct Hm as [Hs' Hw']. by apply Hk.
Qed.

Lemma typed_write l tname b : class_of b = tname -> typed l tname (write_body l b : M unit).
Proof.
  intros Hb st Hs Hw. unfold write_body.
  destruct (heap st !! l) as [u |] eqn:E; cbn [final_state heap set_heap]; [| done].
  pose proof (lookup_lt_Some _ _ _ E) as Hlt.
  destruct (Hs u E) as [_ Hmeta]. split.
  - intros u'. rewrite list_lookup_insert_eq by done. intros [= <-]. by cbn [body meta].
  - intros l' tname' b'. destruct (decide (l = l')) as [<- | Hne].
    + rewrite list_lookup_insert_eq by done. intros [= Hm <-].
      destruct Hmeta as [Hn | Hn]; rewrite Hn in Hm; congruence.
    + rewrite list_lookup_insert_ne by done. apply Hw.
Qed.

Lemma typed_setmetatable l tname : typed l tname (lua_setmetatable l tname : M unit).
Proof.
  intros st Hs Hw. unfold lua_setmetatable.
  destruct (heap st !! l) as [u |] eqn:E; cbn [final_state heap set_heap]; [| done].
  pose proof (lookup_lt_Some _ _ _ E) as Hlt.
  destruct (Hs u E) as [Hcls _]. split.
  - intros u'. rewrite list_lookup_insert_eq by done. intros [= <-]. cbn [body meta]. auto.
  - intros l' tname' b'. destruct (decide (l = l')) as [<- | Hne].
    + rewrite list_lookup_insert_eq by done. intros [= <- <-]. done.
    + rewrite list_lookup_insert_ne by done. apply Hw.
Qed.

Lemma typed_txn_close l : typed l LUA_LMDB_TXN (lmdb_txn_close l : M unit).
Proof.
  unfold lmdb_txn_close. apply typed_bind; [apply typed_keeps, keeps_quiet, quiet_load_txn |].
  intros t. destruct (is_null (txn_txn t)); [by apply typed_keeps |].
  apply typed_bind; [by apply typed_write |]. intros _.
  apply typed_bind; [apply typed_keeps, keeps_unref |]. intros _. by apply typed_write.
Qed.

Lemma retypes_keeps {A} (m : M A) : keeps_heap m -> retypes m.
Proof. intros H st Hw. by rewrite H. Qed.

Lemma retypes_bind {A B} (m : M A) (k : A -> M B) :
  quiet m -> (forall a, retypes (k a)) -> retypes (bind m k).
Proof.
  intros Hm Hk st Hw. rewrite final_bind. specialize (Hm st).
  destruct (m st) as [a s | e s | s]; cbn [final_state] in Hm; subst s; [| done | done].
  by apply Hk.
Qed.

(** A method that has checked its own handle works on a block of the
    class it checked for. *)
Lemma retypes_self {B} args tname (k : loc -> M B) :
  (forall l, typed l tname (k l)) -> retypes (bind (luaL_checkudata args 1 tname) k).
Proof.
  intros Hk st Hw. rewrite final_bind.
  destruct (luaL_checkudata args 1 tname st) as [l s | e s | s] eqn:E; cbn [final_state].
  - apply checkudata_inv in E as (-> & _ & b & Hb).
    apply (Hk l st); [| done].
    intros u Hu. unfold holds in Hb. rewrite Hb in Hu. injection Hu as <-. cbn [body meta].
    split; [symmetry; by apply (Hw l) | by right].
  - pose proof (quiet_checkudata args 1 tname st) as Q. rewrite E in Q. cbn [final_state] in Q.
    by subst s.
  - pose proof (quiet_checkudata args 1 tname st) as Q. rewrite E in Q. cbn [final_state] in Q.
    by subst s.
Qed.

(** A constructor works on the block it has just allocated. *)
Lemma retypes_new {B} b (k : loc -> M B) :
  (forall l, typed l (class_of b) (k l)) -> retypes (bind (lua_newuserdata b) k).
Proof.
  intros Hk st Hw. rewrite final_bind. unfold lua_newuserdata. cbv beta iota.
  apply (Hk (length (heap st))); cbn [heap set_heap].
  - intros u. rewrite lookup_new_block. intros [= <-]. cbn [body meta]. auto.
  - intros l tname b'. destruct (decide (l < length (heap st))%nat) as [Hlt | Hge].
    + rewrite lookup_app_l by done. apply Hw.
    + intros Hl. pose proof (lookup_lt_Some _ _ _ Hl) as Hlen.
      rewrite length_app in Hlen. cbn [length] in Hlen.
      assert (l = length (heap st)) as -> by lia.
      rewrite lookup_new_block in Hl. discriminate Hl.
Qed.

End TypedHeap.

Create HintDb keeps.

#[global] Hint Resolve keeps_call_native keeps_ref keeps_unref keeps_pusherror keeps_pcall
  keeps_msg : keeps.

Ltac keeps_steps :=
  cbv beta zeta;
  lazymatch goal with
  | |- keeps_heap (bind _ _) => apply keeps_bind; [keeps_steps | intros ?; keeps_steps]
  | |- keeps_heap (if ?b then _ else _) => destruct b; keeps_steps
  | |- keeps_heap (run_reader _ _) => apply keeps_run_reader; intros ?; keeps_steps
  | |- keeps_heap _ =>
      first [ solve [eauto with keeps]
            | apply keeps_quiet; solve [quiet_steps]
            | by intros ? ]
  end.

Ltac typed_steps :=
  cbv beta zeta;
  lazymatch goal with
  | |- typed _ _ (bind _ _) => apply typed_bind; [typed_steps | intros ?; typed_steps]
  | |- typed _ _ (if ?b then _ else _) => destruct b; typed_steps
  | |- typed _ _ _ =>
      first [ apply typed_write; reflexivity
            | apply typed_setmetatable
            | apply typed_txn_close
            | apply typed_keeps; solve [keeps_steps] ]
  end.

Ltac retypes_steps :=
  cbv beta zeta;
  lazymatch goal with
  | |- retypes (bind (lua_newuserdata _) _) => apply retypes_new; intros ?; typed_steps
  | |- retypes (bind _ _) =>
      first [ apply retypes_keeps; solve [keeps_steps]
            | apply retypes_bind; [solve [quiet_steps] | intros ?; retypes_steps] ]
  | |- retypes (if ?b then _ else _) => destruct b; retypes_steps
  | |- retypes _ => apply retypes_keeps; solve [keeps_steps]
  end.

Section TypedHeapOfEveryFunction.

Context {eng : Engine} {rt : Runtime}.

Local Abbreviation State := (lua_State eng rt).

Lemma retypes_cfunction (f : cfunction) (args : list lval) :
  retypes (run_cfunction f args : M eng rt (list lval)).
Proof.
  destruct f; cbn [run_cfunction];
    try (apply retypes_keeps, keeps_quiet, quiet_tostring);
    autounfold with wrappers;
    [ destruct (mdb_version eng) as [version [[major minor] patch]]; retypes_steps
    | first [ solve [retypes_steps] | apply retypes_self; intros ?; solve [typed_steps] ] .. ].
Qed.

(** X26. Handles stay well typed.  If every block that carries the
    metatable of a class holds the struct of that class, this is still so
    after any registered function has run on any arguments, however it
    ended; and in such a heap the cast each method applies to the handle
    it has checked finds the struct it expects. *)
Theorem handles_stay_well_typed (f : cfunction) (args : list lval) (st : State) :
  well_typed (heap st) ->
  well_typed (heap (final_state (run_cfunction f args st)))
  /\ (forall i l, luaL_checkudata args i LUA_LMDB_ENV st = Done l st ->
        exists e, load_env l st = Done e st)
  /\ (forall i l, luaL_checkudata args i LUA_LMDB_TXN st = Done l st ->
        exists t, load_txn l st = Done t st)
  /\ (forall i l, luaL_checkudata args i LUA_LMDB_DBI st = Done l st ->
        exists d, load_dbi l st = Done d st)
  /\ (forall i l, luaL_checkudata args i LUA_LMDB_CURSOR st = Done l st ->
        exists c, load_cursor l st = Done c st).
Proof.
  intros Hw. split; [by apply retypes_cfunction |].
  repeat split; intros i l Hl; apply checkudata_inv in Hl as (_ & _ & b & Hb);
    pose proof (Hw l _ b Hb) as Hcls; destruct b; try discriminate Hcls; eexists.
  - by apply (load_env_holds _ _ _ _ Hb).
  - by apply (load_txn_holds _ _ _ _ Hb).
  - by apply (load_dbi_holds _ _ _ _ Hb).
  - by apply (load_cursor_holds _ _ _ _ Hb).
Qed.

End TypedHeapOfEveryFunction.

(** ** Flags left out *)

Section Defaults.

Context {eng : Engine} {rt : Runtime}.

Local Abbreviation State := (lua_State eng rt).

(** X27. Flags that are left out are 0: [dbi:put(k, v)],
    [cursor:put(k, v)], [cursor:del()], [dbi:drop()], [env:txn_begin()]
    and [txn:dbi_open()] (which also takes the unnamed table) are the same
    computations as with the 0 written out. *)
Theorem omitted_flags_are_zero (st : State) (self k v : lval) :
  lmdb_put [self; k; v] st = lmdb_put [self; k; v; LInt 0] st
  /\ lmdb_cursor_put [self; k; v] st = lmdb_cursor_put [self; k; v; LInt 0] st
  /\ lmdb_cursor_del [self] st = lmdb_cursor_del [self; LInt 0] st
  /\ lmdb_dbi_drop [self] st = lmdb_dbi_drop [self; LInt 0] st
  /\ lmdb_txn_begin [self] st = lmdb_txn_begin [self; LInt 0] st
  /\ lmdb_dbi_open [self] st = lmdb_dbi_open [self; LNil; LInt 0] st.
Proof. repeat split; reflexivity. Qed.

End Defaults.

(** ** The further properties on the reference engine *)

Lemma open_outcome_witness :
  exists p evs,
    registry Sample.opened = registry Ref.init
    /\ trace Sample.opened = (trace Ref.init ++ evs)%list
    /\ Forall (fun ev => ~ is_env_close ev /\ ~ is_unref ev) evs
    /\ ((([LUserdata 0%nat] : list lval) = [LUserdata (length (heap Ref.init))]
         /\ heap Sample.opened =
              (heap Ref.init ++ [{| meta := Some LUA_LMDB_ENV;
                                    body := BEnv {| env_env := p |} |}])%list
         /\ length evs = 4%nat
         /\ Forall (fun ev => event_status ev = Some 0%Z) evs)
        \/ (exists rc, rc <> 0%Z /\ [LUserdata 0%nat] = failure Ref.lmdb rc
            /\ heap Sample.opened =
                 (heap Ref.init ++ [{| meta := None; body := BEnv {| env_env := p |} |}])%list
            /\ (length evs <= 4)%nat
            /\ event_status <$> last evs = Some (Some rc))).
Proof.
  refine (open_outcome Ref.init Sample.opened [LStr "/tmp/db"] [LUserdata 0%nat] _).
  reflexivity.
Defined.

Lemma ref_keeps_userctx : engine_keeps_userctx Ref.lmdb.
Proof.
  intros es p ctx. cbn [native Ref.lmdb Ref.step].
  destruct (Ref.known (Ref.envs es) p) eqn:E; cbn [fst snd status Ref.answer]; [| discriminate].
  intros _. cbn [Ref.step Ref.envs]. by rewrite E.
Qed.

(** With a user context set, [env:close()] drops its reference. *)
Lemma close_releases_userctx_witness :
  holds Scenes.with_ctx 0%nat LUA_LMDB_ENV (BEnv {| env_env := Native 1 |})
  /\ exists st',
       lmdb_close [LUserdata 0%nat] Scenes.with_ctx = Done [] st'
       /\ registry st' = delete 1%Z (registry Scenes.with_ctx)
       /\ lmdb_close [LUserdata 0%nat] st' = Done [] st'.
Proof.
  assert (H : holds Scenes.with_ctx 0%nat LUA_LMDB_ENV (BEnv {| env_env := Native 1 |}))
    by reflexivity.
  split; [exact H |].
  pose proof (close_releases_userctx Scenes.with_ctx 0%nat (Native 1) H eq_refl) as W.
  cbv zeta in W. destruct W as (st' & H1 & _ & H2 & _ & H3).
  exists st'. split; [exact H1 |]. split; [| exact H3].
  rewrite H2. reflexivity.
Defined.

Lemma userctx_roundtrip_witness :
  lmdb_set_property [LUserdata 0%nat; LStr "userctx"; LStr "ctx"] Sample.opened =
    Done [LUserdata 0%nat] Scenes.with_ctx
  /\ exists st2,
       lmdb_get_property [LUserdata 0%nat; LStr "userctx"] Scenes.with_ctx = Done [LStr "ctx"] st2
       /\ registry st2 = registry Scenes.with_ctx
       /\ heap st2 = heap Sample.opened.
Proof.
  assert (Hset : lmdb_set_property [LUserdata 0%nat; LStr "userctx"; LStr "ctx"] Sample.opened =
                   Done [LUserdata 0%nat] Scenes.with_ctx) by reflexivity.
  split; [exact Hset |].
  refine (userctx_roundtrip Sample.opened Scenes.with_ctx 0%nat (Native 1) (LStr "ctx") []
            ref_keeps_userctx _ eq_refl _ _ Hset).
  - reflexivity.
  - discriminate.
  - reflexivity.
Defined.

Lemma set_userctx_references_witness :
  holds Sample.opened 0%nat LUA_LMDB_ENV (BEnv {| env_env := Native 1 |})
  /\ registry Sample.opened !! fresh_ref (registry Sample.opened) = None
  /\ registry Scenes.with_ctx = <[1%Z := LStr "ctx"]> (registry Sample.opened).
Proof.
  assert (H : holds Sample.opened 0%nat LUA_LMDB_ENV (BEnv {| env_env := Native 1 |}))
    by reflexivity.
  assert (Hset : lmdb_set_property [LUserdata 0%nat; LStr "userctx"; LStr "ctx"] Sample.opened =
                   Done [LUserdata 0%nat] Scenes.with_ctx) by reflexivity.
  pose proof (set_userctx_references Sample.opened Scenes.with_ctx 0%nat {| env_env := Native 1 |}
                (LStr "ctx") [] [LUserdata 0%nat] H ltac:(discriminate) Hset) as W.
  cbv zeta in W. destruct W as (Hfree & _).
  split; [exact H |]. split; [exact Hfree | reflexivity].
Defined.

(** [mapsize] can be set but not read back. *)
Lemma unknown_property_raises_witness :
  holds Sample.opened 0%nat LUA_LMDB_ENV (BEnv {| env_env := Native 1 |})
  /\ lmdb_get_property [LUserdata 0%nat; LStr "mapsize"] Sample.opened =
       Raise (LStr "unknown property: mapsize") Sample.opened
  /\ lmdb_set_property [LUserdata 0%nat; LStr "path"; LStr "/tmp/other"] Sample.opened =
       Raise (LStr "unknown property: path") Sample.opened.
Proof.
  assert (H : holds Sample.opened 0%nat LUA_LMDB_ENV (BEnv {| env_env := Native 1 |}))
    by reflexivity.
  split; [exact H |]. split.
  - pose proof (unknown_property_raises Sample.opened 0%nat {| env_env := Native 1 |}
                  "mapsize" LNil [] H) as [Hget _].
    destruct (Hget eq_refl) as [Hout _]. apply Hout.
    apply (bool_decide_unpack _). vm_compute. exact I.
  - pose proof (unknown_property_raises Sample.opened 0%nat {| env_env := Native 1 |}
                  "path" (LStr "/tmp/other") [] H) as [_ Hset].
    apply Hset. apply (bool_decide_unpack _). vm_compute. exact I.
Defined.

Lemma closed_env_is_refused_witness :
  holds Sample.all_closed 0%nat LUA_LMDB_ENV (BEnv {| env_env := NULL |})
  /\ lmdb_get_property [LUserdata 0%nat; LStr "nonsense"] Sample.all_closed =
       Done (failure Ref.lmdb EINVAL) Sample.all_closed
  /\ lmdb_stat [LUserdata 0%nat] Sample.all_closed =
       Done (failure Ref.lmdb EINVAL) Sample.all_closed.
Proof.
  assert (H : holds Sample.all_closed 0%nat LUA_LMDB_ENV (BEnv {| env_env := NULL |}))
    by reflexivity.
  pose proof (closed_env_is_refused Sample.all_closed 0%nat {| env_env := NULL |} "" []
                "nonsense" [] H eq_refl) as (_ & _ & Hget & Hstat & _).
  split; [exact H |]. split; [exact Hget | exact Hstat].
Defined.

Lemma closed_env_reaches_engine_witness :
  holds Sample.all_closed 0%nat LUA_LMDB_ENV (BEnv {| env_env := NULL |})
  /\ lmdb_reader_check [LUserdata 0%nat] Sample.all_closed =
       Done (by_status Ref.lmdb
               (status (answer_of (Mdb_reader_check NULL) Sample.all_closed))
               [LInt (out_int (answer_of (Mdb_reader_check NULL) Sample.all_closed))])
            (called (Mdb_reader_check NULL) Sample.all_closed)
  /\ returned (lmdb_reader_check [LUserdata 0%nat] Sample.all_closed) =
       Some (failure Ref.lmdb EINVAL).
Proof.
  assert (H : holds Sample.all_closed 0%nat LUA_LMDB_ENV (BEnv {| env_env := NULL |}))
    by reflexivity.
  pose proof (closed_env_reaches_engine Sample.all_closed 0%nat {| env_env := NULL |} 0%Z
                H eq_refl) as (Hcheck & _).
  cbv zeta in Hcheck.
  split; [exact H |]. split; [exact Hcheck | reflexivity].
Defined.

Lemma nested_begin_passes_wrapper_witness :
  holds Sample.begun 0%nat LUA_LMDB_ENV (BEnv {| env_env := Native 1 |})
  /\ holds Sample.begun 1%nat LUA_LMDB_TXN (BTxn {| txn_txn := Native 2; txn_env_ref := 1 |})
  /\ exists r,
       trace (final_state (lmdb_txn_begin [LUserdata 0%nat; LUserdata 1%nat; LInt 0]
                             Sample.begun)) =
         (trace Sample.begun ++
            [EvNative (Mdb_txn_begin (Native 1) (Block 1%nat) 0) r; EvRef 2])%list.
Proof.
  assert (H : holds Sample.begun 0%nat LUA_LMDB_ENV (BEnv {| env_env := Native 1 |}))
    by reflexivity.
  assert (Ht : holds Sample.begun 1%nat LUA_LMDB_TXN
                 (BTxn {| txn_txn := Native 2; txn_env_ref := 1 |})) by reflexivity.
  split; [exact H |]. split; [exact Ht |].
  rewrite (nested_begin_passes_wrapper Sample.begun 0%nat {| env_env := Native 1 |} 1%nat
             {| txn_txn := Native 2; txn_env_ref := 1 |} 0%Z H Ht).
  eexists. reflexivity.
Defined.

Lemma begin_abort_restores_registry_witness :
  exists p ref st2,
    holds Sample.begun 1%nat LUA_LMDB_TXN (BTxn {| txn_txn := p; txn_env_ref := ref |})
    /\ lmdb_txn_abort [LUserdata 1%nat] Sample.begun = Done [] st2
    /\ registry st2 = registry Sample.opened
    /\ trace st2 =
         (trace Sample.begun ++
            [EvNative (Mdb_txn_abort p) (answer_of (Mdb_txn_abort p) Sample.begun);
             EvUnref ref])%list
    /\ holds st2 1%nat LUA_LMDB_TXN (BTxn {| txn_txn := NULL; txn_env_ref := LUA_NOREF |})
    /\ (forall l', l' <> 1%nat -> heap st2 !! l' = heap Sample.begun !! l').
Proof.
  refine (begin_abort_restores_registry Sample.opened Sample.begun 0%nat [] 1%nat _ _).
  - reflexivity.
  - intros t Ht.
    assert (Hl : heap Sample.begun !! 1%nat =
                 Some {| meta := Some LUA_LMDB_TXN;
                         body := BTxn {| txn_txn := Native 2; txn_env_ref := 1 |} |})
      by reflexivity.
    unfold holds, loc in Ht. rewrite Hl in Ht. injection Ht as <-. exact eq_refl.
Defined.

(** The engine does not know the pointer: [commit] fails, the handle keeps
    pointer and anchor, and [abort] then passes the pointer on again. *)
Lemma failed_commit_keeps_handle_witness :
  holds Scenes.orphaned 1%nat LUA_LMDB_TXN (BTxn {| txn_txn := Native 2; txn_env_ref := 1 |})
  /\ returned (lmdb_txn_commit [LUserdata 1%nat] Scenes.orphaned) = Some (failure Ref.lmdb EINVAL)
  /\ lmdb_txn_abort [LUserdata 1%nat] (called (Mdb_txn_commit (Native 2)) Scenes.orphaned) =
       Done [] (released 1%nat 1
                  (called (Mdb_txn_abort (Native 2))
                     (called (Mdb_txn_commit (Native 2)) Scenes.orphaned))).
Proof.
  assert (H : holds Scenes.orphaned 1%nat LUA_LMDB_TXN
                (BTxn {| txn_txn := Native 2; txn_env_ref := 1 |})) by reflexivity.
  pose proof (failed_commit_keeps_handle Scenes.orphaned 1%nat (Native 2) 1%Z H eq_refl
                ltac:(lia)) as W.
  cbv zeta in W.
  assert (Hrc : status (answer_of (Mdb_txn_commit (Native 2)) Scenes.orphaned) <> 0%Z)
    by (vm_compute; discriminate).
  destruct (W Hrc) as (_ & _ & _ & Habort).
  split; [exact H |]. split; [reflexivity | exact Habort].
Defined.

Lemma dbi_close_live_witness :
  holds Sample.with_dbi 2%nat LUA_LMDB_DBI
    (BDbi {| dbi_dbi := 1; dbi_txn := Native 2; dbi_txn_ref := 2 |})
  /\ exists st',
       lmdb_dbi_close [LUserdata 2%nat] Sample.with_dbi = Done [] st'
       /\ registry st' = delete 2%Z (registry Sample.with_dbi)
       /\ trace st' =
            (trace Sample.with_dbi ++
               [EvNative (Mdb_dbi_close (Native 1) 1)
                  (answer_of (Mdb_dbi_close (Native 1) 1) Sample.with_dbi)] ++
               [EvUnref 2])%list.
Proof.
  assert (H : holds Sample.with_dbi 2%nat LUA_LMDB_DBI
                (BDbi {| dbi_dbi := 1; dbi_txn := Native 2; dbi_txn_ref := 2 |}))
    by reflexivity.
  assert (Ht : holds Sample.with_dbi 1%nat LUA_LMDB_TXN
                 (BTxn {| txn_txn := Native 2; txn_env_ref := 1 |})) by reflexivity.
  assert (He : holds Sample.with_dbi 0%nat LUA_LMDB_ENV (BEnv {| env_env := Native 1 |}))
    by reflexivity.
  assert (Hr2 : registry Sample.with_dbi !! 2%Z = Some (LUserdata 1%nat)) by reflexivity.
  assert (Hr1 : registry Sample.with_dbi !! 1%Z = Some (LUserdata 0%nat)) by reflexivity.
  pose proof (dbi_close_live Sample.with_dbi 2%nat
                {| dbi_dbi := 1; dbi_txn := Native 2; dbi_txn_ref := 2 |} 1%nat
                {| txn_txn := Native 2; txn_env_ref := 1 |} 0%nat {| env_env := Native 1 |}
                H ltac:(discriminate) ltac:(cbn; lia) Hr2 Ht (fun _ => conj Hr1 He)) as W.
  cbv zeta in W. destruct W as (st' & H1 & _ & H2 & H3).
  split; [exact H |]. exists st'. split; [exact H1 |]. split; [exact H2 | exact H3].
Defined.

Lemma bad_key_raises_before_engine_witness :
  holds Sample.with_dbi 2%nat LUA_LMDB_DBI
    (BDbi {| dbi_dbi := 1; dbi_txn := Native 2; dbi_txn_ref := 2 |})
  /\ lmdb_get [LUserdata 2%nat; LBool true] Sample.with_dbi =
       Raise (LStr "bad argument (string expected)") Sample.with_dbi
  /\ lmdb_put [LUserdata 2%nat; LStr "k"] Sample.with_dbi =
       Raise (LStr "bad argument (string expected)") Sample.with_dbi.
Proof.
  assert (H : holds Sample.with_dbi 2%nat LUA_LMDB_DBI
                (BDbi {| dbi_dbi := 1; dbi_txn := Native 2; dbi_txn_ref := 2 |}))
    by reflexivity.
  pose proof (bad_key_raises_before_engine Sample.with_dbi 2%nat _ [LBool true] H) as [Wget _].
  pose proof (bad_key_raises_before_engine Sample.with_dbi 2%nat _ [LStr "k"] H) as [_ Wput].
  cbv zeta in Wget, Wput.
  split; [exact H |]. split.
  - exact (proj1 (Wget I)).
  - exact (proj1 (Wput (or_intror I))).
Defined.

Lemma drop_takes_an_integer_witness :
  holds Sample.with_dbi 2%nat LUA_LMDB_DBI
    (BDbi {| dbi_dbi := 1; dbi_txn := Native 2; dbi_txn_ref := 2 |})
  /\ lmdb_dbi_drop [LUserdata 2%nat; LBool true] Sample.with_dbi =
       Raise (LStr "bad argument (number expected)") Sample.with_dbi
  /\ returned (lmdb_dbi_drop [LUserdata 2%nat] Sample.with_dbi) = Some [LUserdata 2%nat].
Proof.
  assert (H : holds Sample.with_dbi 2%nat LUA_LMDB_DBI
                (BDbi {| dbi_dbi := 1; dbi_txn := Native 2; dbi_txn_ref := 2 |}))
    by reflexivity.
  pose proof (drop_takes_an_integer Sample.with_dbi 2%nat _ H) as (Wbool & _).
  split; [exact H |]. split; [exact (Wbool true) | reflexivity].
Defined.

Lemma returned_Done {eng : Engine} {rt : Runtime} {A} (r : result eng rt A) (a : A) :
  returned r = Some a -> r = Done a (final_state r).
Proof. destruct r; cbn [returned final_state]; [by intros [= ->] | discriminate ..]. Qed.

Lemma cursor_open_close_restores_registry_witness :
  exists p ref st2,
    holds Sample.with_cursor 3%nat LUA_LMDB_CURSOR
      (BCursor {| cursor_cursor := p; cursor_dbi_ref := ref |})
    /\ registry Sample.with_cursor = <[ref := LUserdata 2%nat]> (registry Sample.with_dbi)
    /\ lmdb_cursor_close [LUserdata 3%nat] Sample.with_cursor = Done [] st2
    /\ registry st2 = registry Sample.with_dbi
    /\ trace st2 =
         (trace Sample.with_cursor ++
            [EvNative (Mdb_cursor_close p) (answer_of (Mdb_cursor_close p) Sample.with_cursor);
             EvUnref ref])%list
    /\ holds st2 3%nat LUA_LMDB_CURSOR
         (BCursor {| cursor_cursor := NULL; cursor_dbi_ref := LUA_NOREF |})
    /\ lmdb_cursor_close [LUserdata 3%nat] st2 = Done [] st2.
Proof.
  refine (cursor_open_close_restores_registry Sample.with_dbi Sample.with_cursor 2%nat [] 3%nat
            _ _).
  - exact (returned_Done (lmdb_cursor_open [Sample.dbi] Sample.with_dbi) [LUserdata 3%nat]
             eq_refl).
  - intros c Hc.
    assert (Hl : heap Sample.with_cursor !! 3%nat =
                 Some {| meta := Some LUA_LMDB_CURSOR;
                         body := BCursor {| cursor_cursor := Native 3; cursor_dbi_ref := 3 |} |})
      by reflexivity.
    unfold holds, loc in Hc. rewrite Hl in Hc. injection Hc as <-. exact eq_refl.
Defined.

Lemma cursor_knows_its_table_witness :
  lmdb_cursor_dbi [LUserdata 3%nat] Sample.with_cursor = Done [LUserdata 2%nat] Sample.with_cursor
  /\ lmdb_cursor_txn [LUserdata 3%nat] Sample.with_cursor =
       Done [LUserdata 1%nat] Sample.with_cursor.
Proof.
  refine (let W := cursor_knows_its_table Sample.with_dbi Sample.with_cursor 2%nat
                     {| dbi_dbi := 1; dbi_txn := Native 2; dbi_txn_ref := 2 |}
                     (LUserdata 1%nat) [] 3%nat _ _ _ _ in
          conj (proj1 W) (proj1 (proj2 W))).
  - reflexivity.
  - reflexivity.
  - exact (returned_Done (lmdb_cursor_open [Sample.dbi] Sample.with_dbi) [LUserdata 3%nat]
             eq_refl).
  - intros c Hc.
    assert (Hl : heap Sample.with_cursor !! 3%nat =
                 Some {| meta := Some LUA_LMDB_CURSOR;
                         body := BCursor {| cursor_cursor := Native 3; cursor_dbi_ref := 3 |} |})
      by reflexivity.
    unfold holds, loc in Hc. rewrite Hl in Hc. injection Hc as <-. exact eq_refl.
Defined.

Lemma closed_cursor_accessors_witness :
  holds Sample.cursor_closed 3%nat LUA_LMDB_CURSOR
    (BCursor {| cursor_cursor := NULL; cursor_dbi_ref := LUA_NOREF |})
  /\ lmdb_cursor_dbi [LUserdata 3%nat] Sample.cursor_closed = Done [] Sample.cursor_closed
  /\ lmdb_cursor_renew [LUserdata 3%nat] Sample.cursor_closed = Done [] Sample.cursor_closed
  /\ lmdb_cursor_txn [LUserdata 3%nat] Sample.cursor_closed = Fault Sample.cursor_closed.
Proof.
  assert (H : holds Sample.cursor_closed 3%nat LUA_LMDB_CURSOR
                (BCursor {| cursor_cursor := NULL; cursor_dbi_ref := LUA_NOREF |}))
    by reflexivity.
  split; [exact H |].
  exact (closed_cursor_accessors Sample.cursor_closed 3%nat LUA_NOREF H eq_refl).
Defined.

Lemma gc_only_for_tables_and_cursors_witness :
  mt (auxiliar_newclass LUA_LMDB_ENV env_methods) !! "__gc" = None
  /\ mt (auxiliar_newclass LUA_LMDB_DBI dbi_methods) !! "__gc" =
       Some (SFunction c_lmdb_dbi_close).
Proof.
  split.
  - exact (gc_only_for_tables_and_cursors LUA_LMDB_ENV
             (auxiliar_newclass LUA_LMDB_ENV env_methods) eq_refl).
  - exact (gc_only_for_tables_and_cursors LUA_LMDB_DBI
             (auxiliar_newclass LUA_LMDB_DBI dbi_methods) eq_refl).
Defined.

Lemma tostring_names_the_class_witness :
  auxiliar_tostring [LUserdata 0%nat] Sample.opened = Done [LStr "LMDB.Env: 0x0"] Sample.opened.
Proof.
  exact (tostring_names_the_class Sample.opened 0%nat
           {| meta := Some LUA_LMDB_ENV; body := BEnv {| env_env := Native 1 |} |} [] eq_refl).
Defined.

Lemma strerror_matches_failure_witness :
  exists msg, lmdb_strerror [LInt EINVAL] Ref.init = Done [msg] Ref.init
              /\ failure Ref.lmdb EINVAL = [LNil; msg; LInt EINVAL].
Proof.
  apply (proj2 (strerror_matches_failure Ref.init EINVAL)). unfold EINVAL. lia.
Defined.

(** [txn.commit] called on the environment handle. *)
Lemma methods_reject_foreign_handles_witness :
  holds Sample.opened 0%nat LUA_LMDB_ENV (BEnv {| env_env := Native 1 |})
  /\ lmdb_txn_commit [LUserdata 0%nat] Sample.opened =
       Raise (LStr "bad argument (LMDB.Txn expected)") Sample.opened.
Proof.
  assert (H : holds Sample.opened 0%nat LUA_LMDB_ENV (BEnv {| env_env := Native 1 |}))
    by reflexivity.
  split; [exact H |].
  refine (methods_reject_foreign_handles Sample.opened 0%nat LUA_LMDB_ENV _ []
            LUA_LMDB_TXN txn_methods {| name := "commit"; func := c_lmdb_txn_commit |}
            _ _ _ H _).
  - apply list_elem_of_further, list_elem_of_here.
  - apply list_elem_of_here.
  - discriminate.
  - discriminate.
Defined.

Lemma errors_leave_state_untouched_witness :
  lmdb_put [Sample.dbi; LBool true] Sample.with_dbi =
    Raise (LStr "bad argument (string expected)") Sample.with_dbi
  /\ final_state (lmdb_put [Sample.dbi; LBool true] Sample.with_dbi) = Sample.with_dbi.
Proof.
  assert (H : holds Sample.with_dbi 2%nat LUA_LMDB_DBI
                (BDbi {| dbi_dbi := 1; dbi_txn := Native 2; dbi_txn_ref := 2 |}))
    by reflexivity.
  assert (Hraise : lmdb_put [Sample.dbi; LBool true] Sample.with_dbi =
                     Raise (LStr "bad argument (string expected)") Sample.with_dbi).
  { unfold lmdb_put, bind, Sample.dbi. enter H. enter H. reflexivity. }
  split; [exact Hraise |].
  apply (errors_leave_state_untouched c_lmdb_put [Sample.dbi; LBool true] Sample.with_dbi
           (final_state (lmdb_put [Sample.dbi; LBool true] Sample.with_dbi))
           (LStr "bad argument (string expected)")).
  cbn [run_cfunction]. rewrite Hraise. cbn [final_state]. reflexivity.
Defined.

Lemma only_constructors_take_references_witness :
  registry (final_state (lmdb_close [Sample.env] Scenes.with_ctx)) ⊆ registry Scenes.with_ctx.
Proof.
  exact (only_constructors_take_references c_lmdb_close [Sample.env] Scenes.with_ctx eq_refl).
Defined.

Lemma handles_stay_well_typed_witness :
  well_typed (heap Ref.init)
  /\ well_typed (heap Sample.opened).
Proof.
  assert (H : well_typed (heap Ref.init)).
  { intros l tname b Hl. cbn [heap Ref.init] in Hl. by rewrite lookup_nil in Hl. }
  split; [exact H |].
  exact (proj1 (handles_stay_well_typed c_lmdb_open [LStr "/tmp/db"] Ref.init H)).
Defined.
